(** * LibrarySpot server: a shallow embedding of the server entry point

    The server exists in two copies, [src/server/index.js] and
    [src/unnamed/part_000]; they differ in the value of [CACHE_TTL] and in the
    dash of one pattern, which are parameters here.  The development follows
    the file top to bottom:
    - [JsString], [Regex]: the string methods and the regular expressions the
      parser uses, on UTF-8 strings;
    - [Calendar]: the [Date] arithmetic of [getMondayOfWeek] and of the day
      loop of [parseRowHours];
    - [Hours]: [parseTimeToDecimal], [parseRowHours] and the hours cache of
      [fetchLibCalHours];
    - [Adapters]: [fetchOsuApi] and [scrapeLibCal] (with the slot
      de-duplication that runs inside [page.evaluate]);
    - [Cache]: [getAllLibraryData] with [dataCache] and [inFlight].

    Asynchronous code is modelled as the event loop runs it: one synchronous
    run of a function up to its next [await] is one atomic step, and the
    settlement of a promise is an event of its own. *)

From Stdlib Require Import ZArith QArith Lia Bool Ascii String DecimalString.
From stdpp Require Import gmap strings list.

Local Open Scope string_scope.

(** ** Strings

    A JavaScript string is modelled by its UTF-8 encoding, a [string] of
    bytes.  The patterns of the server are ASCII apart from one dash, so a
    search for them finds the same occurrences in either encoding. *)
Module JsString.

(** The double quote, which attribute values of the markup are written in. *)
Definition dq : string := String (ascii_of_nat 34) EmptyString.

Definition code (c : ascii) : nat := nat_of_ascii c.

Definition is_digit (c : ascii) : bool := (48 <=? code c)%nat && (code c <=? 57)%nat.
Definition is_upper (c : ascii) : bool := (65 <=? code c)%nat && (code c <=? 90)%nat.
Definition is_lower (c : ascii) : bool := (97 <=? code c)%nat && (code c <=? 122)%nat.

Definition lower_char (c : ascii) : ascii :=
  if is_upper c then ascii_of_nat (code c + 32) else c.
Definition upper_char (c : ascii) : ascii :=
  if is_lower c then ascii_of_nat (code c - 32) else c.

Fixpoint map_string (f : ascii -> ascii) (s : string) : string :=
  match s with
  | EmptyString => EmptyString
  | String c s' => String (f c) (map_string f s')
  end.

(** [s.toLowerCase()] and [s.toUpperCase()], on the ASCII letters.  No
    character outside ASCII lower-cases to a letter of the words the server
    compares with ([24 hour], [closed], [available]). *)
Definition toLowerCase : string -> string := map_string lower_char.
Definition toUpperCase : string -> string := map_string upper_char.

Fixpoint starts_with (p s : string) : bool :=
  match p, s with
  | EmptyString, _ => true
  | String a p', String b s' => Ascii.eqb a b && starts_with p' s'
  | String _ _, EmptyString => false
  end.

(** [s.includes(p)] *)
Fixpoint includes (p s : string) : bool :=
  starts_with p s ||
  match s with
  | EmptyString => false
  | String _ s' => includes p s'
  end.

Fixpoint drop (n : nat) (s : string) : string :=
  match n, s with
  | O, _ => s
  | S n', String _ s' => drop n' s'
  | S _, EmptyString => EmptyString
  end.

Fixpoint take (n : nat) (s : string) : string :=
  match n, s with
  | S n', String c s' => String c (take n' s')
  | _, _ => EmptyString
  end.

(** Length in bytes of the white space character that [s] starts with, 0 when
    it starts with none: the characters of [\s] and of [trim], which are
    U+0009..U+000D, U+0020, U+00A0, U+1680, U+2000..U+200A, U+2028, U+2029,
    U+202F, U+205F, U+3000 and U+FEFF. *)
Definition ws_len (s : string) : nat :=
  match s with
  | EmptyString => 0
  | String c s1 =>
      let a := code c in
      if ((9 <=? a) && (a <=? 13) || (a =? 32))%nat then 1
      else match s1 with
           | EmptyString => 0
           | String c2 s2 =>
               let b := code c2 in
               if ((a =? 194) && (b =? 160))%nat then 2
               else match s2 with
                    | EmptyString => 0
                    | String c3 _ =>
                        let d := code c3 in
                        if ((a =? 225) && (b =? 154) && (d =? 128)
                            || (a =? 226) && (b =? 128)
                               && ((128 <=? d) && (d <=? 138) || (d =? 168)
                                   || (d =? 169) || (d =? 175))
                            || (a =? 226) && (b =? 129) && (d =? 159)
                            || (a =? 227) && (b =? 128) && (d =? 128)
                            || (a =? 239) && (b =? 187) && (d =? 191))%nat
                        then 3 else 0
                    end
           end
  end.

Fixpoint trim_start_fuel (n : nat) (s : string) : string :=
  match n with
  | O => s
  | S n' => match ws_len s with
            | O => s
            | k => trim_start_fuel n' (drop k s)
            end
  end.

Definition trimStart (s : string) : string := trim_start_fuel (String.length s) s.

(** The string without the white space at its end: the shortest prefix that
    only white space follows. *)
Fixpoint trimEnd (s : string) : string :=
  match s with
  | EmptyString => EmptyString
  | String c s' =>
      if String.eqb (trimStart s) EmptyString then EmptyString
      else String c (trimEnd s')
  end.

(** [s.trim()] *)
Definition trim (s : string) : string := trimEnd (trimStart s).

End JsString.

(** ** Regular expressions

    A backtracking matcher for the fragment of JavaScript regular expressions
    that the server uses.  [Star] is the greedy [r*], [Lazy] is [r*?]; as in
    JavaScript an iteration of a starred expression that consumes nothing is
    given up.  [LitI] is a literal under the [i] flag: it folds the case of
    the ASCII letters, which is all that the flag does (without the [u] flag)
    for a literal that is ASCII. *)
Module Regex.
Import JsString.

Inductive re : Type :=
| Eps
| Eos
| Cls (p : ascii -> bool)
| Dot
| Ws
| Lit (s : string)
| LitI (s : string)
| Seq (r1 r2 : re)
| Alt (r1 r2 : re)
| Star (r : re)
| Lazy (r : re)
| Grp (i : nat) (r : re).

Definition captures : Type := list (nat * string).

Fixpoint capture (i : nat) (cs : captures) : option string :=
  match cs with
  | [] => None
  | (j, s) :: cs' => if Nat.eqb i j then Some s else capture i cs'
  end.

(** The input starts with a line terminator, which the dot does not match:
    U+000A, U+000D, U+2028 or U+2029. *)
Definition is_line_terminator (s : string) : bool :=
  starts_with (String (ascii_of_nat 10) EmptyString) s
  || starts_with (String (ascii_of_nat 13) EmptyString) s
  || starts_with (String (ascii_of_nat 226) (String (ascii_of_nat 128) (String (ascii_of_nat 168) EmptyString))) s
  || starts_with (String (ascii_of_nat 226) (String (ascii_of_nat 128) (String (ascii_of_nat 169) EmptyString))) s.

Definition starts_with_i (p s : string) : bool :=
  starts_with (toLowerCase p) (toLowerCase (take (String.length p) s)).

Section Matcher.
Context {A : Type}.

(** [matcher r s cs k]: match [r] at the start of [s], then continue with [k]
    on what is left of [s]; [None] once every alternative has failed. *)
Fixpoint matcher (r : re) (s : string) (cs : captures)
    (k : string -> captures -> option A) {struct r} : option A :=
  match r with
  | Eps => k s cs
  | Eos => match s with EmptyString => k s cs | String _ _ => None end
  | Dot =>
      match s with
      | String c s' => if is_line_terminator s then None else k s' cs
      | EmptyString => None
      end
  | Cls p =>
      match s with
      | String c s' => if p c then k s' cs else None
      | EmptyString => None
      end
  | Ws =>
      match ws_len s with
      | O => None
      | n => k (drop n s) cs
      end
  | Lit p => if starts_with p s then k (drop (String.length p) s) cs else None
  | LitI p => if starts_with_i p s then k (drop (String.length p) s) cs else None
  | Seq r1 r2 => matcher r1 s cs (fun s' cs' => matcher r2 s' cs' k)
  | Alt r1 r2 =>
      match matcher r1 s cs k with
      | Some a => Some a
      | None => matcher r2 s cs k
      end
  | Star r1 =>
      (fix loop (fuel : nat) (s : string) (cs : captures) {struct fuel} : option A :=
         match fuel with
         | O => k s cs
         | S fuel' =>
             match matcher r1 s cs (fun s' cs' =>
                     if (String.length s' <? String.length s)%nat
                     then loop fuel' s' cs' else None) with
             | Some a => Some a
             | None => k s cs
             end
         end) (String.length s) s cs
  | Lazy r1 =>
      (fix loop (fuel : nat) (s : string) (cs : captures) {struct fuel} : option A :=
         match fuel with
         | O => k s cs
         | S fuel' =>
             match k s cs with
             | Some a => Some a
             | None =>
                 matcher r1 s cs (fun s' cs' =>
                     if (String.length s' <? String.length s)%nat
                     then loop fuel' s' cs' else None)
             end
         end) (String.length s) s cs
  | Grp i r1 =>
      matcher r1 s cs (fun s' cs' =>
        k s' ((i, take (String.length s - String.length s') s) :: cs'))
  end.

End Matcher.

(** What a match is, said without the search for it.  [r] has no capture
    group; a relation between positions is repeated; and
    [matches r s cs s' cs']: some match of [r] at the start of [s] leaves
    [s'] of the input and takes the captures [cs] to [cs']. *)
Fixpoint groupless (r : re) : bool :=
  match r with
  | Grp _ _ => false
  | Seq r1 r2 | Alt r1 r2 => groupless r1 && groupless r2
  | Star r1 | Lazy r1 => groupless r1
  | _ => true
  end.

Inductive steps (R : string -> captures -> string -> captures -> Prop)
    : string -> captures -> string -> captures -> Prop :=
| steps_refl (s : string) (cs : captures) : steps R s cs s cs
| steps_cons (s : string) (cs : captures) (s1 : string) (cs1 : captures)
    (s' : string) (cs' : captures) :
    R s cs s1 cs1 -> steps R s1 cs1 s' cs' -> steps R s cs s' cs'.

Fixpoint matches (r : re) (s : string) (cs : captures) (s' : string) (cs' : captures)
    {struct r} : Prop :=
  match r with
  | Eps => s' = s /\ cs' = cs
  | Eos => s = EmptyString /\ s' = s /\ cs' = cs
  | Dot => (exists c, s = String c s') /\ is_line_terminator s = false /\ cs' = cs
  | Cls p => (exists c, s = String c s' /\ p c = true) /\ cs' = cs
  | Ws => ws_len s <> 0 /\ s' = drop (ws_len s) s /\ cs' = cs
  | Lit p => starts_with p s = true /\ s' = drop (String.length p) s /\ cs' = cs
  | LitI p => starts_with_i p s = true /\ s' = drop (String.length p) s /\ cs' = cs
  | Seq r1 r2 => exists s1 cs1, matches r1 s cs s1 cs1 /\ matches r2 s1 cs1 s' cs'
  | Alt r1 r2 => matches r1 s cs s' cs' \/ matches r2 s cs s' cs'
  | Star r1 | Lazy r1 => steps (matches r1) s cs s' cs'
  | Grp i r1 =>
      exists cs1, matches r1 s cs s' cs1
                  /\ cs' = (i, take (String.length s - String.length s') s) :: cs1
  end.

(** The result of one match: the text matched, its capture groups, and the
    input that follows the match. *)
Record found := { matched : string; groups : captures; rest : string }.

Definition match_here (r : re) (s : string) : option found :=
  matcher r s [] (fun s' cs =>
    Some {| matched := take (String.length s - String.length s') s;
            groups := cs; rest := s' |}).

(** [s.match(r)] without the [g] flag: the leftmost match. *)
Fixpoint search (r : re) (s : string) : option found :=
  match match_here r s with
  | Some f => Some f
  | None => match s with
            | EmptyString => None
            | String _ s' => search r s'
            end
  end.

Fixpoint matchAll_fuel (fuel : nat) (r : re) (s : string) : list found :=
  match fuel with
  | O => []
  | S fuel' =>
      match search r s with
      | None => []
      | Some f =>
          f :: match matched f, rest f with
               | EmptyString, EmptyString => []
               | EmptyString, String _ s' => matchAll_fuel fuel' r s'
               | _, s' => matchAll_fuel fuel' r s'
               end
      end
  end.

(** [[...s.matchAll(r)]] with the [g] flag: the successive matches. *)
Definition matchAll (r : re) (s : string) : list found :=
  matchAll_fuel (S (String.length s)) r s.

(** Capture group [i] of a match, the empty string when it took no part. *)
Definition group (i : nat) (f : found) : string := default EmptyString (capture i (groups f)).

Definition cat (rs : list re) : re := foldr Seq Eps rs.
Definition opt (r : re) : re := Alt r Eps.
Definition plus (r : re) : re := Seq r (Star r).
Definition one_of (rs : list re) : re := foldr Alt (Cls (fun _ => false)) rs.

Definition any : re := Cls (fun _ => true).
Definition digit : re := Cls is_digit.
Definition word : re := Cls (fun c => is_digit c || is_upper c || is_lower c || Ascii.eqb c "_").
Definition none_of (c : ascii) : re := Cls (fun a => negb (Ascii.eqb a c)).

End Regex.

(** ** Results of code that may throw *)
Inductive Outcome (A : Type) : Type :=
| Returned (a : A)
| Raised (message : string).
Arguments Returned {A} a.
Arguments Raised {A} message.

Definition bind {A B : Type} (o : Outcome A) (f : A -> Outcome B) : Outcome B :=
  match o with
  | Returned a => f a
  | Raised e => Raised e
  end.

(** [try { body } catch (error) { handler(error.message) }] *)
Definition try_catch {A : Type} (body : Outcome A) (handler : string -> Outcome A) : Outcome A :=
  match body with
  | Returned a => Returned a
  | Raised e => handler e
  end.

(** [try { body } finally { cleanup }]: the cleanup runs either way, and an
    error it throws replaces the result of the body. *)
Definition try_finally {A : Type} (body : Outcome A) (cleanup : Outcome unit) : Outcome A :=
  match cleanup with
  | Returned _ => body
  | Raised e => Raised e
  end.

#[global] Instance outcome_ret : MRet Outcome := fun A a => Returned a.
#[global] Instance outcome_bind : MBind Outcome := fun A B f o => bind o f.

(** [list.forEach(x => { a = f(a, x) })]: the loop ends at the first
    throw. *)
Fixpoint fold_outcome {A B : Type} (f : A -> B -> Outcome A) (l : list B) (a : A)
    : Outcome A :=
  match l with
  | [] => Returned a
  | x :: l' =>
      match f a x with
      | Returned a' => fold_outcome f l' a'
      | Raised e => Raised e
      end
  end.

(** ** Calendar dates

    A [Date] built from [dateStr + 'T12:00:00'] is noon of a calendar day, or
    the invalid date when the string is not a date [YYYY-MM-DD].  It is kept as
    the number of its day, counted from 1970-01-01.  The server reads it with
    the local getters, or through [toISOString] after moving it by whole days;
    the latter names the same day as long as local noon falls on that day in
    UTC too (every zone from UTC-11 to UTC+12). *)
Module Calendar.
Import JsString.
Local Open Scope Z_scope.

Definition days_from_civil (y m d : Z) : Z :=
  let y' := if m <=? 2 then y - 1 else y in
  let era := y' / 400 in
  let yoe := y' - era * 400 in
  let mp := (m + 9) mod 12 in
  let doy := (153 * mp + 2) / 5 + d - 1 in
  let doe := yoe * 365 + yoe / 4 - yoe / 100 + doy in
  era * 146097 + doe - 719468.

Definition civil_from_days (z : Z) : Z * Z * Z :=
  let z := z + 719468 in
  let era := z / 146097 in
  let doe := z - era * 146097 in
  let yoe := (doe - doe / 1460 + doe / 36524 - doe / 146096) / 365 in
  let doy := doe - (365 * yoe + yoe / 4 - yoe / 100) in
  let mp := (5 * doy + 2) / 153 in
  let d := doy - (153 * mp + 2) / 5 + 1 in
  let m := if mp <? 10 then mp + 3 else mp - 9 in
  (yoe + era * 400 + (if m <=? 2 then 1 else 0), m, d).

Definition is_leap (y : Z) : bool :=
  (y mod 4 =? 0) && (negb (y mod 100 =? 0) || (y mod 400 =? 0)).

Definition days_in_month (y m : Z) : Z :=
  if m =? 2 then (if is_leap y then 29 else 28)
  else if (m =? 4) || (m =? 6) || (m =? 9) || (m =? 11) then 30 else 31.

Definition digit_value (c : ascii) : Z := Z.of_nat (code c) - 48.

(** [parseInt] of a string of decimal digits. *)
Fixpoint parse_digits (acc : Z) (s : string) : Z :=
  match s with
  | EmptyString => acc
  | String c s' => parse_digits (acc * 10 + digit_value c) s'
  end.

Fixpoint all_digits (s : string) : bool :=
  match s with
  | EmptyString => true
  | String c s' => is_digit c && all_digits s'
  end.

(** [new Date(dateStr + 'T12:00:00')]: the day number, [None] for the invalid
    date. *)
Definition parse_date (dateStr : string) : option Z :=
  let ys := take 4 dateStr in
  let ms := take 2 (drop 5 dateStr) in
  let ds := take 2 (drop 8 dateStr) in
  if (String.length dateStr =? 10)%nat
     && all_digits ys && all_digits ms && all_digits ds
     && String.eqb (take 1 (drop 4 dateStr)) "-"
     && String.eqb (take 1 (drop 7 dateStr)) "-"
  then
    let y := parse_digits 0 ys in
    let m := parse_digits 0 ms in
    let d := parse_digits 0 ds in
    if (1 <=? m) && (m <=? 12) && (1 <=? d) && (d <=? days_in_month y m)
    then Some (days_from_civil y m d) else None
  else None.

(** [date.getDay()]: 0 is Sunday. *)
Definition getDay (day : Z) : Z := (day + 4) mod 7.

Definition show (n : Z) : string := NilZero.string_of_uint (N.to_uint (Z.to_N n)).

(** [String(n).padStart(2, '0')] *)
Definition pad2 (n : Z) : string :=
  if n <? 10 then String.append "0" (show n) else show n.

Definition pad4 (n : Z) : string :=
  if n <? 10 then String.append "000" (show n)
  else if n <? 100 then String.append "00" (show n)
  else if n <? 1000 then String.append "0" (show n)
  else show n.

(** The three getters joined by dashes, as [getMondayOfWeek] prints a date. *)
Definition format_local (day : Z) : string :=
  let '(y, m, d) := civil_from_days day in
  String.append (show y) (String.append "-" (String.append (pad2 m) (String.append "-" (pad2 d)))).

(** [date.toISOString().split('T')[0]] for the years 0 to 9999. *)
Definition format_iso (day : Z) : string :=
  let '(y, m, d) := civil_from_days day in
  String.append (pad4 y) (String.append "-" (String.append (pad2 m) (String.append "-" (pad2 d)))).

End Calendar.

(** ** Library hours: the schedule table of the LibCal widget *)
Module Hours.
Import JsString Regex Calendar.

(** One day of a schedule.  [open] and [close] are decimal hours ([None] is
    JavaScript's [null]); [closed] is [true] when the object carries
    [closed: true]; [note] is [None] when the property is [null] or absent.
    The hours are exact rationals in lowest terms, where JavaScript rounds the
    quotient [minute / 60] to a double. *)
Record DayHours : Type := {
  open : option Q;
  close : option Q;
  closed : bool;
  openStr : string;
  closeStr : string;
  note : option string
}.

(** [/(\d{1,2})(?::(\d{2}))?\s*(am|pm)/i] *)
Definition re_time : re :=
  cat [Grp 1 (Seq digit (opt digit));
       opt (Seq (Lit ":") (Grp 2 (Seq digit digit)));
       Star Ws;
       Grp 3 (Alt (LitI "am") (LitI "pm"))].

(** [hour + minute / 60] *)
Definition decimal (hour minute : Z) : Q := Qred (inject_Z hour + inject_Z minute / 60)%Q.

Definition parseTimeToDecimal (timeStr : string) : option Q :=
  if String.eqb timeStr EmptyString || String.eqb (toLowerCase timeStr) "closed" then None
  else match search re_time timeStr with
       | None => None
       | Some m =>
           let hour := parse_digits 0 (group 1 m) in
           let minute := match capture 2 (groups m) with
                         | Some s => parse_digits 0 s
                         | None => 0%Z
                         end in
           let period := toLowerCase (group 3 m) in
           let hour := if String.eqb period "pm" && negb (hour =? 12)%Z
                       then (hour + 12)%Z else hour in
           let hour := if String.eqb period "am" && (hour =? 12)%Z then 0%Z else hour in
           Some (decimal hour minute)
       end.

(** [/<tr[^>]*>([\s\S]*?)<\/tr>/gi] *)
Definition re_tr : re :=
  cat [LitI "<tr"; Star (none_of ">"); Lit ">"; Grp 1 (Lazy any); LitI "</tr>"].

(** [/<td[^>]*>([\s\S]*?)<\/td>/i] *)
Definition re_td : re :=
  cat [LitI "<td"; Star (none_of ">"); Lit ">"; Grp 1 (Lazy any); LitI "</td>"].

(** The span pattern [<span[^>]*class=QCLS[^Q]*Q[^>]*>([\s\S]*?)<\/span>]
    with the [i] flag, where Q is the double quote and CLS one of the class
    prefixes [s-lc-timetxt] and [s-lc-time]. *)
Definition re_span (cls : string) : re :=
  cat [LitI "<span"; Star (none_of ">");
       LitI (String.append "class=" (String.append dq cls));
       Star (none_of (ascii_of_nat 34)); Lit dq; Star (none_of ">"); Lit ">";
       Grp 1 (Lazy any); LitI "</span>"].

(** [/\(([^)]+)\)/] *)
Definition re_note : re := cat [Lit "("; Grp 1 (plus (none_of ")")); Lit ")"].

(** [\d{1,2}(?::\d{2})?\s*(?:am|pm)] *)
Definition re_clock : re :=
  cat [digit; opt digit; opt (cat [Lit ":"; digit; digit]); Star Ws;
       Alt (LitI "am") (LitI "pm")].

(** The dash that the range pattern accepts next to [&ndash;] and [-].  The
    copy [src/unnamed/part_000] has the en dash there; [src/server/index.js]
    has three other characters in its place, two of them letters, which the
    [i] flag matches in either case. *)
Definition dash_index_js : re :=
  cat [Lit "‚"; Alt (Lit "Ä") (Lit "ä"); Alt (Lit "ì") (Lit "Ì")].
Definition dash_part_000 : re := Lit "–".

(** [/(CLOCK)\s*(?:&ndash;|DASH|-)\s*(CLOCK)/i] *)
Definition re_range (dash : re) : re :=
  cat [Grp 1 re_clock; Star Ws;
       one_of [LitI "&ndash;"; dash; Lit "-"];
       Star Ws; Grp 2 re_clock].

(** Every byte of [s] satisfies [p]. *)
Fixpoint all_bytes (p : ascii -> bool) (s : string) : bool :=
  match s with
  | EmptyString => true
  | String c s' => p c && all_bytes p s'
  end.

(** A byte of a white space character: a control character or the space, or
    a byte of a character outside ASCII.  A byte that is none of the letters
    a and p, in either case. *)
Definition blank (c : ascii) : bool := (code c <=? 32)%nat || (128 <=? code c)%nat.
Definition quiet (c : ascii) : bool :=
  negb (Ascii.eqb (lower_char c) "a") && negb (Ascii.eqb (lower_char c) "p").

(** A run of white space characters, as [ws_len] reads them. *)
Inductive white_space : string -> Prop :=
| white_nil : white_space EmptyString
| white_cons (s : string) :
    ws_len s <> 0 -> white_space (drop (ws_len s) s) -> white_space s.

(** [t] is a time of day as the range pattern captures it: the hour [h] in
    one or two digits, then maybe a colon and the minute [m] in two digits
    (the minute is 0 without them), then white space, if any, then [am] or
    [pm] in either case. *)
Definition clock_text (t : string) (h m : Z) (pm : bool) : Prop :=
  exists hd md W ap,
    t = String.append hd (String.append md (String.append W ap))
    /\ (1 <= String.length hd <= 2)%nat /\ all_digits hd = true /\ h = parse_digits 0 hd
    /\ ((md = EmptyString /\ m = 0%Z)
        \/ exists mm, md = String ":" mm /\ String.length mm = 2%nat
                      /\ all_digits mm = true /\ m = parse_digits 0 mm)
    /\ white_space W
    /\ String.length ap = 2%nat
    /\ toLowerCase ap = (if pm then "pm" else "am").

(** [s.replace(/(am|pm)/gi, m => m.toUpperCase())] *)
Fixpoint upper_ampm_fuel (fuel : nat) (s : string) : string :=
  match fuel with
  | O => s
  | S fuel' =>
      match s with
      | EmptyString => EmptyString
      | String c s' =>
          if starts_with_i "am" s || starts_with_i "pm" s
          then String.append (toUpperCase (take 2 s)) (upper_ampm_fuel fuel' (drop 2 s))
          else String c (upper_ampm_fuel fuel' s')
      end
  end.

Definition upper_ampm (s : string) : string := upper_ampm_fuel (String.length s) s.

Definition closed_day : DayHours :=
  {| open := None; close := None; closed := true;
     openStr := "Closed"; closeStr := EmptyString; note := None |}.

Definition all_day (label : string) (n : option string) : DayHours :=
  {| open := Some 0%Q; close := Some 24%Q; closed := false;
     openStr := label; closeStr := EmptyString; note := n |}.

(** The text of the [s-lc-timetxt] span when it says [24 hour]:
    [timetxtMatch && timetxtMatch[1].toLowerCase().includes('24 hour')]. *)
Definition timetxt24 (cellContent : string) : option string :=
  match search (re_span "s-lc-timetxt") cellContent with
  | Some m => if includes "24 hour" (toLowerCase (group 1 m)) then Some (group 1 m) else None
  | None => None
  end.

(** The two clock strings of the range inside a time span's text. *)
Definition timeMatch (dash : re) (timeContent : string) : option (string * string) :=
  option_map (fun tm => (group 1 tm, group 2 tm)) (search (re_range dash) timeContent).

(** The text of the [s-lc-time] span of a cell. *)
Definition timeSpanMatch (cellContent : string) : option string :=
  option_map (group 1) (search (re_span "s-lc-time") cellContent).

(** A close time of exactly 0 is midnight at the end of the day. *)
Definition midnight_is_24 (closeTime : option Q) : option Q :=
  match closeTime with
  | Some q => if Qeq_bool q 0%Q then Some 24%Q else Some q
  | None => None
  end.

(** The note in parentheses, if there is one:
    [noteMatch ? noteMatch[1].trim() : null]. *)
Definition parenthetical (noteText : string) : option string :=
  option_map (fun noteMatch => trim (group 1 noteMatch)) (search re_note noteText).

(** The body of the day loop of [parseRowHours]: the entry for one cell. *)
Definition parseCell (dash : re) (cellContent : string) : DayHours :=
  if includes "s-lc-closed" cellContent then closed_day
  else
    match timetxt24 cellContent with
    | Some txt =>
        let noteText := trim txt in
        all_day "24 Hours" (parenthetical noteText)
    | None =>
        match timeSpanMatch cellContent with
        | Some timeContent =>
            match timeMatch dash timeContent with
            | Some (t1, t2) =>
                let openStr := upper_ampm (trim t1) in
                let closeStr := upper_ampm (trim t2) in
                let openTime := parseTimeToDecimal openStr in
                let closeTime := midnight_is_24 (parseTimeToDecimal closeStr) in
                {| open := openTime; close := closeTime; closed := false;
                   openStr := openStr; closeStr := closeStr; note := None |}
            | None => all_day "24 Hours" None
            end
        | None => all_day "Unknown" None
        end
    end.

(** The search for the target row: the whole text of the first row whose
    first [td] contains [rowName]. *)
Fixpoint findTargetRow (rowName : string) (allRows : list found) : option string :=
  match allRows with
  | [] => None
  | rowMatch :: more =>
      match search re_td (group 1 rowMatch) with
      | Some firstTd =>
          if includes rowName (group 1 firstTd) then Some (matched rowMatch)
          else findTargetRow rowName more
      | None => findTargetRow rowName more
      end
  end.

(** The day loop over the cells that follow the label.  [toISOString] throws
    a [RangeError] on the invalid date. *)
Fixpoint dayLoop (dash : re) (monday : option Z) (offset : Z) (cells : list found)
    (hours : gmap string DayHours) : Outcome (gmap string DayHours) :=
  match cells with
  | [] => Returned hours
  | td :: more =>
      match monday with
      | None => Raised "Invalid time value"
      | Some day =>
          let dayDateStr := format_iso (day + offset) in
          dayLoop dash monday (offset + 1) more
            (<[dayDateStr := parseCell dash (group 1 td)]> hours)
      end
  end.

(** [parseRowHours(html, rowName, mondayDate)]; [Returned None] is [null]. *)
Definition parseRowHours (dash : re) (html rowName mondayDate : string)
    : Outcome (option (gmap string DayHours)) :=
  let allRows := matchAll re_tr html in
  match findTargetRow rowName allRows with
  | None => Returned None
  | Some targetRow =>
      let tdMatches := matchAll re_td targetRow in
      hours ← dayLoop dash (parse_date mondayDate) 0 (List.firstn 7 (List.skipn 1 tdMatches)) ∅;
      Returned (Some hours)
  end.

(** The entry of a date in what [parseRowHours] returned. *)
Definition on_date (parsed : Outcome (option (gmap string DayHours))) (date : string)
    : option DayHours :=
  match parsed with
  | Returned (Some hours) => hours !! date
  | _ => None
  end.

(** *** Markup and clock strings to try the parser on *)

Definition span (cls text : string) : string :=
  String.append "<span class="
    (String.append dq (String.append cls
      (String.append dq (String.append ">" (String.append text "</span>"))))).

Definition td (content : string) : string :=
  String.append "<td>" (String.append content "</td>").

(** A week grid with a row for the FAES Library: Monday shows the range
    [range], Tuesday is closed, Wednesday is open all day with a note. *)
Definition faes_week (range : string) : string :=
  String.append "<table><tr><th>Location</th><th>Mon</th><th>Tue</th><th>Wed</th></tr><tr>"
    (String.append (td "Thompson Library")
      (String.append (td (span "s-lc-closed" "Closed"))
        (String.append "</tr><tr>"
          (String.append (td "FAES Library")
            (String.append (td (span "s-lc-time" range))
              (String.append (td (span "s-lc-closed" "Closed"))
                (String.append (td (span "s-lc-timetxt" "24 Hours (ID req'd after 12AM)"))
                  "</tr></table>"))))))).

(** The clock string of hour [h], minute [m] and period, as [H:MMam]. *)
Definition clock (h m : Z) (pm upper : bool) : string :=
  String.append (show h)
    (String.append ":"
      (String.append (pad2 m)
        (match pm, upper with
         | false, false => "am"
         | false, true => "AM"
         | true, false => "pm"
         | true, true => "PM"
         end))).

(** The hour of a 12-hour clock on the 24-hour clock: [pm] and not 12 adds
    12, [am] and 12 is 0. *)
Definition fold12 (h : Z) (pm : bool) : Z :=
  if pm then (if (h =? 12)%Z then h else (h + 12)%Z)
  else (if (h =? 12)%Z then 0%Z else h).

(** Equality of two optional rationals, numerator by numerator. *)
Definition same_hours (a b : option Q) : bool :=
  match a, b with
  | Some x, Some y => (Qnum x =? Qnum y)%Z && (Qden x =? Qden y)%positive
  | None, None => true
  | _, _ => false
  end.

Definition clock_parses (h m : nat) : bool :=
  forallb (fun pm => forallb (fun upper =>
      same_hours (parseTimeToDecimal (clock (Z.of_nat h) (Z.of_nat m) pm upper))
                 (Some (decimal (fold12 (Z.of_nat h) pm) (Z.of_nat m))))
    [false; true]) [false; true].

(** *** The hours cache of [fetchLibCalHours] *)

Record HoursConfig : Type := {
  lid : Z;
  buildingRowName : string;
  reservationRowName : string
}.

Definition LIBCAL_HOURS_CONFIG : gmap string HoursConfig :=
  <["18th-ave" := {| lid := 16287; buildingRowName := "18th Avenue Library";
                     reservationRowName := "18th Group Study Rooms" |}]>
  (<["thompson" := {| lid := 16286; buildingRowName := "Thompson Library";
                      reservationRowName := "Thompson Group Study Rooms" |}]>
  (<["faes" := {| lid := 16298; buildingRowName := "FAES Library";
                  reservationRowName := "FAES Library" |}]> ∅)).

Definition HOURS_CACHE_TTL : Z := 60 * 60 * 1000.

Definition getMondayOfWeek (dateStr : string) : string :=
  match parse_date dateStr with
  | None => "NaN-NaN-NaN"
  | Some date =>
      let day := getDay date in
      let diff := if (day =? 0)%Z then (-6)%Z else (1 - day)%Z in
      format_local (date + diff)
  end.

(** The hours of one date: the building row and the reservation row. *)
Definition DateHours : Type := option DayHours * option DayHours.

Record HoursEntry : Type := {
  lastUpdated : Z;
  data : gmap string DateHours
}.

(** A call of [fetchLibCalHours] that is waiting for the widget's answer. *)
Record HoursFetch : Type := {
  hf_caller : nat;
  hf_config : HoursConfig;
  hf_mondayDate : string;
  hf_cacheKey : string
}.

(** [hoursCache], the calls suspended at [await fetch(url)], the URLs that were
    requested from the widget so far, and what each finished call returned
    ([None] is [null]). *)
Record HoursState : Type := {
  hoursCache : gmap string HoursEntry;
  suspended : gmap nat HoursFetch;
  next_fetch : nat;
  requested : list string;
  returned : list (nat * option (gmap string DateHours))
}.

Definition hours_init : HoursState :=
  {| hoursCache := ∅; suspended := ∅; next_fetch := 0; requested := []; returned := [] |}.

Definition hoursKey (libraryId mondayDate : string) : string :=
  String.append libraryId (String.append "-" mondayDate).

Definition hoursUrl (config : HoursConfig) (mondayDate : string) : string :=
  String.append "https://osul.libcal.com/widget/hours/grid?iid=5296&lid="
    (String.append (show (lid config)) (String.append "&date=" mondayDate)).

(** The cache check: the entry has data, a time stamp that is not 0, and is
    younger than the TTL. *)
Definition hoursFresh (entry : option HoursEntry) (now : Z) : bool :=
  match entry with
  | Some e => negb (lastUpdated e =? 0)%Z && (now - lastUpdated e <? HOURS_CACHE_TTL)%Z
  | None => false
  end.

(** [fetchLibCalHours(libraryId, dateStr)] up to its first [await], run at
    clock reading [now] for caller [c].  The server calls it with the id of a
    library of [LIBRARIES] only; the keys of [hoursCache] hold a dash and are
    never the name of a member of [Object.prototype]. *)
Definition fetchLibCalHours (c : nat) (libraryId dateStr : string) (now : Z)
    (st : HoursState) : HoursState :=
  match LIBCAL_HOURS_CONFIG !! libraryId with
  | None =>
      {| hoursCache := hoursCache st; suspended := suspended st; next_fetch := next_fetch st;
         requested := requested st; returned := returned st ++ [(c, None)] |}
  | Some config =>
      let mondayDate := getMondayOfWeek dateStr in
      let cacheKey := hoursKey libraryId mondayDate in
      if hoursFresh (hoursCache st !! cacheKey) now then
        {| hoursCache := hoursCache st; suspended := suspended st; next_fetch := next_fetch st;
           requested := requested st;
           returned := returned st ++ [(c, data <$> hoursCache st !! cacheKey)] |}
      else
        {| hoursCache := hoursCache st;
           suspended := <[next_fetch st := {| hf_caller := c; hf_config := config;
                                              hf_mondayDate := mondayDate;
                                              hf_cacheKey := cacheKey |}]> (suspended st);
           next_fetch := S (next_fetch st);
           requested := requested st ++ [hoursUrl config mondayDate];
           returned := returned st |}
  end.

(** The result object: for every date of either row, its two entries. *)
Definition combineHours (buildingHours reservationHours : option (gmap string DayHours))
    : gmap string DateHours :=
  merge (fun b r => match b, r with
                    | None, None => None
                    | _, _ => Some (b, r)
                    end)
        (default ∅ buildingHours) (default ∅ reservationHours).

(** The body of the [try] block after the request: both rows are parsed from
    the page text and combined. *)
Definition parseHours (dash : re) (f : HoursFetch) (html : Outcome string)
    : Outcome (gmap string DateHours) :=
  text ← html;
  buildingHours ← parseRowHours dash text (buildingRowName (hf_config f)) (hf_mondayDate f);
  reservationHours ← parseRowHours dash text (reservationRowName (hf_config f)) (hf_mondayDate f);
  Returned (combineHours buildingHours reservationHours).

(** The rest of [fetchLibCalHours], run when the request of fetch [i] settles
    with the page text [html] (or fails) at clock reading [now]. *)
Definition fetchLibCalHours_resume (dash : re) (i : nat) (html : Outcome string) (now : Z)
    (st : HoursState) : HoursState :=
  match suspended st !! i with
  | None => st
  | Some f =>
      match parseHours dash f html with
      | Returned result =>
          {| hoursCache := <[hf_cacheKey f := {| lastUpdated := now; data := result |}]> (hoursCache st);
             suspended := delete i (suspended st); next_fetch := next_fetch st;
             requested := requested st;
             returned := returned st ++ [(hf_caller f, Some result)] |}
      | Raised _ =>
          {| hoursCache := hoursCache st;
             suspended := delete i (suspended st); next_fetch := next_fetch st;
             requested := requested st;
             returned := returned st ++ [(hf_caller f, None)] |}
      end
  end.

Inductive HoursEvent : Type :=
| HCall (c : nat) (libraryId dateStr : string) (now : Z)
| HSettle (i : nat) (html : Outcome string) (now : Z).

Definition hours_step (dash : re) (st : HoursState) (ev : HoursEvent) : HoursState :=
  match ev with
  | HCall c libraryId dateStr now => fetchLibCalHours c libraryId dateStr now st
  | HSettle i html now => fetchLibCalHours_resume dash i html now st
  end.

Definition hours_run (dash : re) (st : HoursState) (evs : list HoursEvent) : HoursState :=
  fold_left (hours_step dash) evs st.

End Hours.

(** ** Arrays and objects *)

(** [array.sort((a, b) => key(a) - key(b))]: a stable sort by a numeric key. *)
Section Sort.
Context {A : Type} (key : A -> Z).

Fixpoint insert_sorted (x : A) (l : list A) : list A :=
  match l with
  | [] => [x]
  | y :: l' => if (key x <=? key y)%Z then x :: y :: l' else y :: insert_sorted x l'
  end.

Definition sort_by (l : list A) : list A := foldr insert_sorted [] l.

End Sort.

(** An object literal [{}] used as a map from strings: its own properties in
    the order they were created.  Reading a key that the object has no
    property of its own for finds the member of [Object.prototype] of that
    name, if there is one. *)
Module Obj.
Import JsString Calendar.

(** The names of the members of [Object.prototype]; each of them is a
    function, or for [__proto__] the prototype itself, and counts as
    true. *)
Definition prototype_members : list string :=
  ["constructor"; "__defineGetter__"; "__defineSetter__"; "hasOwnProperty";
   "__lookupGetter__"; "__lookupSetter__"; "isPrototypeOf"; "propertyIsEnumerable";
   "toString"; "valueOf"; "__proto__"; "toLocaleString"].

Definition inherited (k : string) : bool := existsb (String.eqb k) prototype_members.

(** What [o[k]] reads. *)
Inductive Read (V : Type) : Type :=
| Own (v : V)
| Inherited
| Missing.
Arguments Own {V} v.
Arguments Inherited {V}.
Arguments Missing {V}.

Section Object.
Context {V : Type}.

(** The property of its own that [o] has under [k]. *)
Fixpoint get (k : string) (o : list (string * V)) : option V :=
  match o with
  | [] => None
  | (k', v) :: o' => if String.eqb k k' then Some v else get k o'
  end.

(** [o[k]] *)
Definition lookup (k : string) (o : list (string * V)) : Read V :=
  match get k o with
  | Some v => Own v
  | None => if inherited k then Inherited else Missing
  end.

(** [o[k] = v], for a key that the object has a property of its own for or
    that is not the name of an inherited member. *)
Fixpoint set (k : string) (v : V) (o : list (string * V)) : list (string * V) :=
  match o with
  | [] => [(k, v)]
  | (k', v') :: o' => if String.eqb k k' then (k, v) :: o' else (k', v') :: set k v o'
  end.

(** A key that is the canonical decimal form of an integer below 2^32 - 1:
    such keys come first, in ascending order, when the object is listed. *)
Definition is_index (k : string) : bool :=
  negb (String.eqb k EmptyString) && all_digits k
  && (String.eqb k "0" || negb (starts_with "0" k))
  && (Nat.leb (String.length k) 10) && (parse_digits 0 k <? 4294967295)%Z.

(** [Object.values(o)] *)
Definition values (o : list (string * V)) : list V :=
  List.map snd
    (sort_by (fun kv => parse_digits 0 (fst kv)) (List.filter (fun kv => is_index (fst kv)) o)
     ++ List.filter (fun kv => negb (is_index (fst kv))) o).

End Object.
End Obj.

(** ** The source adapters *)
Module Adapters.
Import JsString Regex Calendar Hours.

(** *** The data model *)

Record Slot : Type := {
  time : string;
  available : bool;
  starttime : option string
}.

Inductive Floor : Type := FloorNumber (n : Z) | FloorLL.

Record Room : Type := {
  name : string;
  fullName : option string;
  capacity : Z;
  floor : Floor;
  amenities : list string;
  slots : list Slot
}.

(** The two values of [library.type] in [LIBRARIES]. *)
Inductive LibraryType : Type := osu_api | libcal.

(** An entry of [LIBRARIES]; [lib_hours] is the static [hours: { open, close }]. *)
Record Library : Type := {
  lib_id : string;
  lib_name : string;
  lib_type : LibraryType;
  locationId : option Z;
  libcalUrl : option string;
  lib_hours : Q * Q;
  roomInfo : option (gmap string (Z * Z))
}.

(** The [hours] of a result: the configured pair that the spread of [library]
    brings along, the pair of rows from the widget, or the fall-back object
    with no building row. *)
Inductive FacilityHours : Type :=
| ConfiguredHours (open_close : Q * Q)
| WidgetHours (hours : DateHours)
| FallbackHours (reservation : Q * Q).

(** What an adapter returns: [{ ...library, hours, rooms, scrapedAt, isLive,
    error }]; [isLive] is [false] and [error] is [None] when the property is
    absent. *)
Record Facility : Type := {
  library : Library;
  hours : FacilityHours;
  rooms : list Room;
  scrapedAt : Z;
  isLive : bool;
  error : option string
}.

Definition hsl_roomInfo : gmap string (Z * Z) :=
  list_to_map (List.map (fun r => (r, (5%Z, 3%Z)))
    ["360A"; "360B"; "360C"; "360D"; "360E"; "360F"; "360G"; "360H"]).

Definition library_18th_ave : Library :=
  {| lib_id := "18th-ave"; lib_name := "18th Avenue Library"; lib_type := osu_api;
     locationId := Some 16287%Z; libcalUrl := None;
     lib_hours := ((15 # 2)%Q, (47 # 2)%Q); roomInfo := None |}.

Definition library_thompson : Library :=
  {| lib_id := "thompson"; lib_name := "Thompson Library"; lib_type := osu_api;
     locationId := Some 16286%Z; libcalUrl := None;
     lib_hours := (11%Q, (47 # 2)%Q); roomInfo := None |}.

Definition library_faes : Library :=
  {| lib_id := "faes"; lib_name := "FAES Library"; lib_type := osu_api;
     locationId := Some 16298%Z; libcalUrl := None;
     lib_hours := (8%Q, 18%Q); roomInfo := None |}.

Definition library_hsl : Library :=
  {| lib_id := "hsl"; lib_name := "Health Sciences Library"; lib_type := libcal;
     locationId := None;
     libcalUrl := Some "https://hsl-osu.libcal.com/spaces?lid=694&gid=24674";
     lib_hours := (8%Q, 22%Q); roomInfo := Some hsl_roomInfo |}.

Definition LIBRARIES : list Library :=
  [library_18th_ave; library_thompson; library_faes; library_hsl].

(** The value of both [catch] blocks: the library with no rooms and the
    message of the error. *)
Definition degraded (library : Library) (now : Z) (message : string) : Facility :=
  {| library := library; hours := ConfiguredHours (lib_hours library); rooms := [];
     scrapedAt := now; isLive := false; error := Some message |}.

(** *** The rendered widget: the function run by [page.evaluate] *)

(** A [.fc-timeline-event] element: its [title] and [aria-label] attributes
    ([None] when absent) and its [className]. *)
Record Element : Type := {
  title : option string;
  ariaLabel : option string;
  className : string
}.

(** [/^(\d{1,2}:\d{2}[ap]m)\s+\w+,\s+(.+?\d{4})\s+-\s+([^-]+)\s+-\s+(.+)$/i],
    matched at the start of the title. *)
Definition re_title : re :=
  cat [Grp 1 (cat [digit; opt digit; Lit ":"; digit; digit; Alt (LitI "a") (LitI "p"); LitI "m"]);
       plus Ws; plus word; Lit ","; plus Ws;
       Grp 2 (cat [Dot; Lazy Dot; digit; digit; digit; digit]);
       plus Ws; Lit "-"; plus Ws;
       Grp 3 (plus (none_of "-"));
       plus Ws; Lit "-"; plus Ws;
       Grp 4 (plus Dot); Eos].

Definition monthName (m : Z) : string :=
  nth (Z.to_nat (m - 1))
    ["January"; "February"; "March"; "April"; "May"; "June"; "July"; "August";
     "September"; "October"; "November"; "December"] "Invalid Date".

(** A string that counts as true: [Some] of a string that is not empty. *)
Definition truthy (s : option string) : option string :=
  match s with
  | Some EmptyString => None
  | _ => s
  end.

(** [`${targetMonth} ${targetDay}, ${targetYear}`] for the date asked for, or
    for the day [today] of the page when none is. *)
Definition targetDateString (targetDateStr : option string) (today : Z) : string :=
  let target := match truthy targetDateStr with
                | Some d => parse_date d
                | None => Some today
                end in
  match target with
  | Some day =>
      let '(y, m, d) := civil_from_days day in
      String.append (monthName m)
        (String.append " " (String.append (show d) (String.append ", " (show y))))
  | None => "Invalid Date NaN, NaN"
  end.

(** An entry of [roomData]. *)
Record RoomData : Type := {
  rd_name : string;
  rd_slots : list Slot;
  seenTimes : gset string
}.

(** [existingSlot = slots.find(s => s.time === time); existingSlot.available = true] *)
Fixpoint mark_available (t : string) (l : list Slot) : list Slot :=
  match l with
  | [] => []
  | s :: l' =>
      if String.eqb (time s) t
      then {| time := time s; available := true; starttime := starttime s |} :: l'
      else s :: mark_available t l'
  end.

(** The first half of the function given to [slots.forEach]: what one element
    says, as the trimmed room name, the time and [isAvailable]; [None] when
    the title does not match or is for another date. *)
Definition observe (targetDateString : string) (slot : Element)
    : option (string * string * bool) :=
  let title := default EmptyString
                 (match truthy (title slot) with
                  | Some t => Some t
                  | None => truthy (ariaLabel slot)
                  end) in
  match match_here re_title title with
  | None => None
  | Some m =>
      let time := group 1 m in
      let dateStr := group 2 m in
      let roomName := group 3 m in
      let statusText := group 4 m in
      let trimmedRoom := trim roomName in
      if negb (includes targetDateString dateStr) then None
      else
        let classList := className slot in
        let hasAvailClass := includes "s-lc-eq-avail" classList in
        let hasUnavailClass :=
          includes "s-lc-eq-unavail" classList || includes "unavailable" classList in
        let titleSaysAvailable := String.eqb (toLowerCase (trim statusText)) "available" in
        let isAvailable := hasAvailClass || (titleSaysAvailable && negb hasUnavailClass) in
        Some (trimmedRoom, time, isAvailable)
  end.

(** The two branches of the de-duplication for the entry [room] of the room:
    a time seen for the first time adds a slot; a time seen before only ever
    turns its slot available.  [seenTimes] is an object literal too; its
    keys are times of day as the title pattern captures them, digits first,
    and none is the name of an inherited member. *)
Definition deduplicate (roomData : list (string * RoomData)) (trimmedRoom time : string)
    (isAvailable : bool) (room : RoomData) : list (string * RoomData) :=
  if negb (bool_decide (time ∈ seenTimes room)) then
    Obj.set trimmedRoom
      {| rd_name := rd_name room;
         rd_slots := rd_slots room
           ++ [{| time := time; available := isAvailable; starttime := None |}];
         seenTimes := {[time]} ∪ seenTimes room |} roomData
  else if isAvailable then
    Obj.set trimmedRoom
      {| rd_name := rd_name room;
         rd_slots := mark_available time (rd_slots room);
         seenTimes := seenTimes room |} roomData
  else roomData.

(** What the second half does for a room whose name is not the name of a
    member of [Object.prototype]: the room gets an entry if it has none, and
    the observation is entered there. *)
Definition enter (roomData : list (string * RoomData)) (o : string * string * bool)
    : list (string * RoomData) :=
  let '(trimmedRoom, time, isAvailable) := o in
  let fresh := {| rd_name := trimmedRoom; rd_slots := []; seenTimes := ∅ |} in
  let roomData := match Obj.get trimmedRoom roomData with
                  | Some _ => roomData
                  | None => Obj.set trimmedRoom fresh roomData
                  end in
  let room := default fresh (Obj.get trimmedRoom roomData) in
  deduplicate roomData trimmedRoom time isAvailable room.

(** The second half: the observation is entered into [roomData].
    [!roomData[trimmedRoom]] is false for an inherited member too; no entry
    is made then, and [roomData[trimmedRoom].seenTimes[time]] throws a
    [TypeError], since the member has no [seenTimes]. *)
Definition record (roomData : list (string * RoomData)) (o : string * string * bool)
    : Outcome (list (string * RoomData)) :=
  let '(trimmedRoom, time, isAvailable) := o in
  let fresh := {| rd_name := trimmedRoom; rd_slots := []; seenTimes := ∅ |} in
  let roomData := match Obj.lookup trimmedRoom roomData with
                  | Obj.Missing => Obj.set trimmedRoom fresh roomData
                  | _ => roomData
                  end in
  match Obj.lookup trimmedRoom roomData with
  | Obj.Own room => Returned (deduplicate roomData trimmedRoom time isAvailable room)
  | _ => Raised "Cannot read properties of undefined"
  end.

(** The function given to [slots.forEach]. *)
Definition visit (targetDateString : string) (roomData : list (string * RoomData))
    (slot : Element) : Outcome (list (string * RoomData)) :=
  match observe targetDateString slot with
  | None => Returned roomData
  | Some o => record roomData o
  end.

(** [/^(\d{1,2}):(\d{2})([ap]m)$/i] *)
Definition re_parseTime : re :=
  cat [Grp 1 (Seq digit (opt digit)); Lit ":"; Grp 2 (Seq digit digit);
       Grp 3 (Seq (Alt (LitI "a") (LitI "p")) (LitI "m")); Eos].

(** Minutes since midnight, the key that the slots are sorted by. *)
Definition parseTime (t : string) : Z :=
  match match_here re_parseTime t with
  | None => 0
  | Some m =>
      let h := parse_digits 0 (group 1 m) in
      let min := parse_digits 0 (group 2 m) in
      let h := if String.eqb (toLowerCase (group 3 m)) "pm" && negb (h =? 12)%Z
               then (h + 12)%Z else h in
      let h := if String.eqb (toLowerCase (group 3 m)) "am" && (h =? 12)%Z then 0%Z else h in
      (h * 60 + min)%Z
  end.

(** What the elements of the page say, in the order of the page. *)
Definition observations (targetDateString : string) (slots : list Element)
    : list (string * string * bool) :=
  omap (observe targetDateString) slots.

(** An observation is about room [k] at time [t]. *)
Definition about (k t : string) (o : string * string * bool) : bool :=
  String.eqb o.1.1 k && String.eqb o.1.2 t.

Definition at_time (t : string) (s : Slot) : bool := String.eqb (time s) t.

(** Room [k] was observed at time [t]; it was observed available there. *)
Definition observed (k t : string) (os : list (string * string * bool)) : bool :=
  existsb (about k t) os.
Definition observed_available (k t : string) (os : list (string * string * bool)) : bool :=
  existsb (fun o => about k t o && o.2) os.

(** No room observed is named like a member of [Object.prototype], and
    [roomData] has no entry under such a name. *)
Definition plain_names (os : list (string * string * bool)) : bool :=
  forallb (fun o => negb (Obj.inherited o.1.1)) os.
Definition plain_keys (rd : list (string * RoomData)) : Prop :=
  forall k, Obj.inherited k = true -> Obj.get k rd = None.

(** [roomData] keeps track of the observations [os]: it has one entry per
    room observed, under the room's name, and this entry has seen the times
    the room was observed at and holds, for each of them, one slot, which is
    available when one of the observations was. *)
Definition tracks (roomData : list (string * RoomData)) (os : list (string * string * bool))
    : Prop :=
  NoDup (List.map fst roomData)
  /\ forall k,
       match Obj.get k roomData with
       | None => forall t, observed k t os = false
       | Some r =>
           rd_name r = k
           /\ forall t,
                bool_decide (t ∈ seenTimes r) = observed k t os
                /\ List.filter (at_time t) (rd_slots r)
                   = if observed k t os
                     then [{| time := t; available := observed_available k t os;
                              starttime := None |}]
                     else []
       end.

(** The whole function of [page.evaluate]: the rooms with their sorted
    slots, or the error thrown on the way, with which the promise of
    [page.evaluate] rejects. *)
Definition evaluate (targetDateStr : option string) (today : Z) (slots : list Element)
    : Outcome (list (string * list Slot)) :=
  roomData ← fold_outcome (visit (targetDateString targetDateStr today)) slots [];
  Returned
    (List.map (fun room => (rd_name room, sort_by (fun s => parseTime (time s)) (rd_slots room)))
       (Obj.values roomData)).

(** *** [scrapeLibCal]

    What the outside world does during one call: each field is the result
    of one awaited operation, [Raised] when that operation throws or its
    promise rejects. *)
Record Chrome : Type := {
  import_puppeteer : Outcome unit;
  launch : Outcome unit;
  newPage : Outcome unit;
  goto : Outcome unit;
  waitForSelector : Outcome unit;
  document : Outcome (list Element);
  close : Outcome unit;
  today : Z;
  chrome_clock : Z
}.

(** [data.map(room => ({ ...room, capacity, floor, amenities }))]; reading
    [library.roomInfo[room.name]] throws when the library has no [roomInfo]. *)
Definition addMetadata (library : Library) (data : list (string * list Slot))
    : Outcome (list Room) :=
  match roomInfo library with
  | None =>
      match data with
      | [] => Returned []
      | _ :: _ => Raised "Cannot read properties of undefined"
      end
  | Some info =>
      Returned (List.map (fun room =>
        let meta := info !! fst room in
        let cap := match meta with Some (c, _) => if (c =? 0)%Z then 5%Z else c | None => 5%Z end in
        let fl := match meta with Some (_, f) => if (f =? 0)%Z then 3%Z else f | None => 3%Z end in
        {| name := fst room; fullName := None; capacity := cap; floor := FloorNumber fl;
           amenities := ["whiteboard"; "monitor"]; slots := snd room |}) data)
  end.

Definition scrapeLibCal (library : Library) (dateStr : option string) (w : Chrome)
    : Outcome Facility :=
  match import_puppeteer w with
  | Raised _ => Returned (degraded library (chrome_clock w) "Puppeteer not installed")
  | Returned _ =>
      (* const browser = await puppeteer.default.launch(...), before the try *)
      _ ← launch w;
      try_finally
        (try_catch
           (_ ← newPage w;
            _ ← goto w;
            _ ← waitForSelector w;
            slots ← document w;
            data ← evaluate dateStr (today w) slots;
            rooms ← addMetadata library data;
            Returned {| library := library; hours := ConfiguredHours (lib_hours library);
                        rooms := rooms; scrapedAt := chrome_clock w; isLive := true;
                        error := None |})
           (fun message => Returned (degraded library (chrome_clock w) message)))
        (close w)
  end.

(** *** [fetchOsuApi] *)

(** The body of the answer once parsed: its [status], and under
    [data.locationAvailableRooms] ([None] when it is missing) the rooms that
    the grouping and sorting code builds from the time slot records, or the
    error it throws on a record of another shape. *)
Record ApiJson : Type := {
  api_status : string;
  locationAvailableRooms : option (Outcome (list Room))
}.

Record Response : Type := {
  ok : bool;
  status : Z;
  json : Outcome ApiJson
}.

(** The two requests of one call: the room search, and the hours of the day
    from [getLibraryHoursForDate] ([Returned None] is [null]). *)
Record OsuNet : Type := {
  fetch : Outcome Response;
  dynamicHours : Outcome (option DateHours);
  osu_clock : Z
}.

(** [fetchOsuApi(library, dateStr)] for a date that is a string or missing.
    Before its [try] block the function only computes the address of the
    request from the date and the clock, which does not throw for such a
    date; what the request and the hours query answer is given by [w]. *)
Definition fetchOsuApi (library : Library) (dateStr : option string) (w : OsuNet)
    : Outcome Facility :=
  try_catch
    (response ← fetch w;
     dynamicHours ← dynamicHours w;
     if negb (ok response) then Raised (String.append "HTTP " (show (status response)))
     else
       json ← json response;
       match (if String.eqb (api_status json) "success"
              then locationAvailableRooms json else None) with
       | None => Raised "Invalid API response"
       | Some normalised =>
           rooms ← normalised;
           let hours := match dynamicHours with
                        | Some h => WidgetHours h
                        | None => FallbackHours (lib_hours library)
                        end in
           Returned {| library := library; hours := hours; rooms := rooms;
                       scrapedAt := osu_clock w; isLive := true; error := None |}
       end)
    (fun message => Returned (degraded library (osu_clock w) message)).

(** *** One round of adapter fetches *)

(** The outside world during one population: the network as each OSU library
    sees it, and the browser. *)
Record World : Type := {
  osu : string -> OsuNet;
  chrome : Chrome
}.

(** The function mapped over [LIBRARIES] in [getAllLibraryData]. *)
Definition fetchLibrary (dateStr : option string) (w : World) (library : Library)
    : Outcome Facility :=
  match lib_type library with
  | osu_api => fetchOsuApi library dateStr (osu w (lib_id library))
  | libcal => scrapeLibCal library dateStr (chrome w)
  end.

(** [Promise.all]: every result in order, or the error of a promise that
    rejected (the first of them in the order of the list). *)
Fixpoint promise_all {A : Type} (l : list (Outcome A)) : Outcome (list A) :=
  match l with
  | [] => Returned []
  | o :: l' => a ← o; rest ← promise_all l'; Returned (a :: rest)
  end.

Definition fetchAll (dateStr : option string) (w : World) : Outcome (list Facility) :=
  promise_all (List.map (fetchLibrary dateStr w) LIBRARIES).

(** *** Some worlds *)

(** The room search answers with no rooms and the widget with no hours. *)
Definition net_up : OsuNet :=
  {| fetch := Returned {| ok := true; status := 200;
                          json := Returned {| api_status := "success";
                                              locationAvailableRooms := Some (Returned []) |} |};
     dynamicHours := Returned None;
     osu_clock := 1768950000000 |}.

(** The room search cannot be reached. *)
Definition net_down : OsuNet :=
  {| fetch := Raised "fetch failed"; dynamicHours := Returned None;
     osu_clock := 1768950000000 |}.

(** The browser shows room 360H at 1:30pm twice, taken and then free. *)
Definition chrome_up : Chrome :=
  {| import_puppeteer := Returned tt; launch := Returned tt; newPage := Returned tt;
     goto := Returned tt; waitForSelector := Returned tt;
     document := Returned
       [ {| title := Some "1:30pm Wednesday, January 21, 2026 - 360H - Unavailable/Padding";
            ariaLabel := None; className := "fc-timeline-event s-lc-eq-unavail" |};
         {| title := Some "1:30pm Wednesday, January 21, 2026 - 360H - Available";
            ariaLabel := None; className := "fc-timeline-event s-lc-eq-avail" |} ];
     close := Returned tt;
     today := 20474;
     chrome_clock := 1768950000000 |}.

(** The browser shows room 360H free at 1:30pm, and a room that the page
    names [constructor]. *)
Definition chrome_shows_constructor : Chrome :=
  {| import_puppeteer := Returned tt; launch := Returned tt; newPage := Returned tt;
     goto := Returned tt; waitForSelector := Returned tt;
     document := Returned
       [ {| title := Some "1:30pm Wednesday, January 21, 2026 - 360H - Available";
            ariaLabel := None; className := "fc-timeline-event s-lc-eq-avail" |};
         {| title := Some "1:30pm Wednesday, January 21, 2026 - constructor - Available";
            ariaLabel := None; className := "fc-timeline-event s-lc-eq-avail" |} ];
     close := Returned tt;
     today := 20474;
     chrome_clock := 1768950000000 |}.

(** Puppeteer is installed, and the browser does not start. *)
Definition chrome_launch_fails : Chrome :=
  {| import_puppeteer := Returned tt;
     launch := Raised "Failed to launch the browser process!";
     newPage := Returned tt; goto := Returned tt; waitForSelector := Returned tt;
     document := Returned []; close := Returned tt;
     today := 20474;
     chrome_clock := 1768950000000 |}.

Definition world_up : World := {| osu := fun _ => net_up; chrome := chrome_up |}.

Definition world_launch_fails : World :=
  {| osu := fun _ => net_up; chrome := chrome_launch_fails |}.

End Adapters.

(** ** [getAllLibraryData]: the snapshot cache with stampede protection

    The server runs on one thread.  A step of the model is what runs without
    interruption: a call of [getAllLibraryData] up to its [return] or its
    first [await]; or the end of a population, which is the rest of the async
    function behind [fetchPromise] followed, in the same turn of the
    micro-task queue, by the rest of every call that awaits the promise.
    [Date.now()] is read once per step.

    [dataCache] is an object literal used as a map.  [getAllLibraryData]
    reads and writes it under the key of the call only, and what it reads
    there is what was last written there: for the key [__proto__] too, where
    the write makes the entry the prototype of the object and the read
    returns this prototype.  Under a key that was never written the read may
    find an inherited value; none of them has both [data] and
    [lastUpdated], so the entry is not fresh, as when there is none. *)
Module Cache.
Import JsString Adapters.

(** An entry of [dataCache]. *)
Record Entry : Type := {
  lastUpdated : Z;
  data : list Facility;
  lastFetchDurationMs : Z
}.

(** What a call resolves to: [{ data, fetchedAt, fetchDurationMs, cacheHit,
    deduped }], with [None] for a property that the object does not have. *)
Record Reply : Type := {
  reply_data : list Facility;
  fetchedAt : Z;
  fetchDurationMs : option Z;
  cacheHit : option bool;
  deduped : option bool
}.

(** A [fetchPromise] that has not settled: the key and the date it was
    started for, and its [startedAt]. *)
Record Population : Type := {
  pop_key : string;
  pop_dateStr : option string;
  startedAt : Z
}.

(** A call suspended at an [await]: the one that started the population and
    awaits its own [fetchPromise], or one that found the promise in
    [inFlight]. *)
Inductive Role : Type := Initiator | Joiner.

Record Waiter : Type := {
  caller : nat;
  promise : nat;
  role : Role
}.

(** The module-level state ([dataCache], [inFlight]), the promises and the
    suspended calls of the event loop, and two records of what happened: the
    keys of the lines [Fetching fresh data for KEY...] printed when a
    population starts, and what each finished call resolved to. *)
Record State : Type := {
  dataCache : gmap string Entry;
  inFlight : gmap string nat;
  populations : gmap nat Population;
  awaiting : list Waiter;
  next_promise : nat;
  console : list string;
  replies : list (nat * Outcome Reply)
}.

Definition init : State :=
  {| dataCache := ∅; inFlight := ∅; populations := ∅; awaiting := [];
     next_promise := 0; console := []; replies := [] |}.

(** [dateStr || 'today'] *)
Definition cacheKeyOf (dateStr : option string) : string := default "today" (truthy dateStr).

Section WithTTL.
Variable CACHE_TTL : Z.

(** [entry?.data && entry?.lastUpdated && (now - entry.lastUpdated) < CACHE_TTL]:
    the data is an array, which counts as true, and the time stamp counts
    as true when it is not 0. *)
Definition isFresh (entry : option Entry) (now : Z) : bool :=
  match entry with
  | Some e => negb (lastUpdated e =? 0)%Z && (now - lastUpdated e <? CACHE_TTL)%Z
  | None => false
  end.

(** A call that is not served from the cache: it is forced, or the entry of
    its key is not fresh. *)
Definition misses (force : bool) (entry : option Entry) (now : Z) : Prop :=
  force = true \/ isFresh entry now = false.

(** [return r] (or [throw]) in the call of caller [c]. *)
Definition answer (c : nat) (r : Outcome Reply) (st : State) : State :=
  {| dataCache := dataCache st; inFlight := inFlight st; populations := populations st;
     awaiting := awaiting st; next_promise := next_promise st; console := console st;
     replies := replies st ++ [(c, r)] |}.

(** [await] of promise [p] in the call of caller [c]. *)
Definition suspend (c p : nat) (r : Role) (st : State) : State :=
  {| dataCache := dataCache st; inFlight := inFlight st; populations := populations st;
     awaiting := awaiting st ++ [{| caller := c; promise := p; role := r |}];
     next_promise := next_promise st; console := console st; replies := replies st |}.

(** The start of a population: the async function behind [fetchPromise] runs
    up to its [await Promise.all(...)], which prints the line and reads
    [startedAt]; then [inFlight.set(cacheKey, fetchPromise)]. *)
Definition populate (cacheKey : string) (dateStr : option string) (now : Z) (st : State)
    : State :=
  {| dataCache := dataCache st;
     inFlight := <[cacheKey := next_promise st]> (inFlight st);
     populations := <[next_promise st := {| pop_key := cacheKey; pop_dateStr := dateStr;
                                            startedAt := now |}]> (populations st);
     awaiting := awaiting st;
     next_promise := S (next_promise st);
     console := console st ++ [cacheKey];
     replies := replies st |}.

(** The call [getAllLibraryData(dateStr, { force })] of caller [c] at clock
    reading [now], up to the point where it returns or is suspended. *)
Definition getAllLibraryData (c : nat) (dateStr : option string) (force : bool) (now : Z)
    (st : State) : State :=
  let cacheKey := cacheKeyOf dateStr in
  let entry := dataCache st !! cacheKey in
  match (if negb force && isFresh entry now then entry else None) with
  | Some e =>
      answer c (Returned {| reply_data := data e; fetchedAt := lastUpdated e;
                            fetchDurationMs := None; cacheHit := Some true;
                            deduped := None |}) st
  | None =>
      (* If someone else is already fetching, await it (stampede protection) *)
      match inFlight st !! cacheKey with
      | Some p => suspend c p Joiner st
      | None => suspend c (next_promise st) Initiator (populate cacheKey dateStr now st)
      end
  end.

(** [{ ...result, cacheHit: false, deduped: true }] *)
Definition joined (result : Reply) : Reply :=
  {| reply_data := reply_data result; fetchedAt := fetchedAt result;
     fetchDurationMs := fetchDurationMs result;
     cacheHit := Some false; deduped := Some true |}.

(** A suspended call goes on after the promise it awaits has settled with
    [result]: the initiator returns the result through its [finally], which
    deletes the key from [inFlight]; a joiner returns the flagged copy.  A
    rejection is thrown on to the caller by both. *)
Definition resume (cacheKey : string) (result : Outcome Reply) (st : State) (w : Waiter)
    : State :=
  match role w with
  | Initiator =>
      answer (caller w) result
        {| dataCache := dataCache st; inFlight := delete cacheKey (inFlight st);
           populations := populations st; awaiting := awaiting st;
           next_promise := next_promise st; console := console st; replies := replies st |}
  | Joiner =>
      answer (caller w) (r ← result; Returned (joined r)) st
  end.

Definition awaits (p : nat) (w : Waiter) : bool := Nat.eqb (promise w) p.

(** The population behind promise [p] ends at clock reading [finishedAt], the
    adapters having met the world [w]: the rest of the async function runs
    (it writes the entry when [Promise.all] fulfilled, and nothing when it
    rejected), the promise settles, and the calls that await it go on in the
    order in which they were suspended.  For the key [__proto__] the write
    makes the entry the prototype of [dataCache]; the entry of that key in
    the model stands for it. *)
Definition settle (p : nat) (w : World) (finishedAt : Z) (st : State) : State :=
  match populations st !! p with
  | None => st
  | Some pop =>
      let result :=
        results ← fetchAll (pop_dateStr pop) w;
        Returned {| reply_data := results; fetchedAt := finishedAt;
                    fetchDurationMs := Some (finishedAt - startedAt pop)%Z;
                    cacheHit := None; deduped := None |} in
      let dataCache' :=
        match fetchAll (pop_dateStr pop) w with
        | Returned results =>
            <[pop_key pop := {| lastUpdated := finishedAt; data := results;
                                lastFetchDurationMs := (finishedAt - startedAt pop)%Z |}]>
              (dataCache st)
        | Raised _ => dataCache st
        end in
      fold_left (resume (pop_key pop) result) (List.filter (awaits p) (awaiting st))
        {| dataCache := dataCache';
           inFlight := inFlight st;
           populations := delete p (populations st);
           awaiting := List.filter (fun w => negb (awaits p w)) (awaiting st);
           next_promise := next_promise st; console := console st; replies := replies st |}
  end.

Inductive Event : Type :=
| Call (c : nat) (dateStr : option string) (force : bool) (now : Z)
| Settle (p : nat) (w : World) (finishedAt : Z).

Definition step (st : State) (ev : Event) : State :=
  match ev with
  | Call c dateStr force now => getAllLibraryData c dateStr force now st
  | Settle p w finishedAt => settle p w finishedAt st
  end.

Definition run (st : State) (evs : list Event) : State := fold_left step evs st.

(** Callers that arrive one after the other for the same date, each with its
    own [force] flag and clock reading. *)
Definition arrivals (dateStr : option string) (cs : list (nat * bool * Z)) : list Event :=
  List.map (fun c => Call c.1.1 dateStr c.1.2 c.2) cs.

End WithTTL.

(** What a waiter resolves to when the promise it awaits settles with
    [result]. *)
Definition reply_of (result : Outcome Reply) (w : Waiter) : nat * Outcome Reply :=
  (caller w, match role w with
             | Initiator => result
             | Joiner => r ← result; Returned (joined r)
             end).

Definition joiner_of (p : nat) (c : nat * bool * Z) : Waiter :=
  {| caller := c.1.1; promise := p; role := Joiner |}.

Definition is_initiator (w : Waiter) : bool :=
  match role w with Initiator => true | Joiner => false end.

(** The outcome of the population that a reply carries: the snapshot and the
    time it was completed, or the error. *)
Definition outcome_of (r : Outcome Reply) : Outcome (list Facility * Z) :=
  x ← r; Returned (reply_data x, fetchedAt x).

(** The state of the event loop is consistent: [inFlight] holds exactly the
    populations that have not settled, each under its key; their promises
    were handed out already; every one of them is awaited by the call that
    started it; and a suspended call awaits a population that has not
    settled. *)
Definition consistent (st : State) : Prop :=
  (forall k p, inFlight st !! k = Some p ->
     exists pop, populations st !! p = Some pop /\ pop_key pop = k)
  /\ (forall p pop, populations st !! p = Some pop -> inFlight st !! pop_key pop = Some p)
  /\ (forall p pop, populations st !! p = Some pop -> p < next_promise st)
  /\ (forall p pop, populations st !! p = Some pop ->
       exists c, {| caller := c; promise := p; role := Initiator |} ∈ awaiting st)
  /\ (forall w, w ∈ awaiting st -> is_Some (populations st !! promise w)).

(** The value of [CACHE_TTL] in each copy of the server. *)
Definition CACHE_TTL_index_js : Z := 50 * 1000.
Definition CACHE_TTL_part_000 : Z := 60 * 1000.

End Cache.

(** * Further parts of the server

    - [Formatting]: [formatEstTime] and [extractRoomNumber];
    - [Routes]: the handlers of [/api/refresh], [/api/health] and
      [/api/libraries] over the snapshot cache, and words to read a trace;
    - [Weeks]: [getLibraryHoursForDate] and [getNext8DaysNY];
    - [Bootstrap]: [safeJsonForHtml] and the injection of the bootstrap data
      into the page;
    - [Grouping]: the grouping of the time slot records in [fetchOsuApi];
    - [Page]: [renderIndexWithBootstrap] with the page it caches. *)

(** ** Display times and room keys of the structured source *)
Module Formatting.
Import JsString Regex Calendar.

(** [s.split(':')]: the fields between the colons; there is always one. *)
Fixpoint split_colon (s : string) : list string :=
  match s with
  | EmptyString => [EmptyString]
  | String c s' =>
      if Ascii.eqb c ":" then EmptyString :: split_colon s'
      else match split_colon s' with
           | f :: fs => String c f :: fs
           | [] => [String c EmptyString]
           end
  end.

Definition is_hex_digit (c : ascii) : bool :=
  is_digit c || ((65 <=? code c)%nat && (code c <=? 70)%nat)
  || ((97 <=? code c)%nat && (code c <=? 102)%nat).

Definition hex_value (c : ascii) : Z :=
  if is_digit c then Z.of_nat (code c) - 48
  else if is_upper c then Z.of_nat (code c) - 55
  else Z.of_nat (code c) - 87.

(** The value of the longest prefix of digits of the radix, [None] when there
    is no digit. *)
Fixpoint digits_prefix (radix : Z) (is_d : ascii -> bool) (value : ascii -> Z)
    (acc : option Z) (s : string) : option Z :=
  match s with
  | String c s' =>
      if is_d c
      then digits_prefix radix is_d value (Some (default 0 acc * radix + value c)%Z) s'
      else acc
  | EmptyString => acc
  end.

(** [parseInt(s)] with no radix, [None] for [NaN]: white space, a sign, the
    prefix [0x] for base 16, then digits.  The integers are exact, as they
    are in JavaScript below 2^53. *)
Definition parseInt (s : string) : option Z :=
  let s := trimStart s in
  let negative := starts_with "-" s in
  let s := if starts_with "-" s || starts_with "+" s then drop 1 s else s in
  let magnitude :=
    if starts_with "0x" s || starts_with "0X" s
    then digits_prefix 16 is_hex_digit hex_value None (drop 2 s)
    else digits_prefix 10 is_digit digit_value None s in
  option_map (fun n => if negative then (- n)%Z else n) magnitude.

(** [parseInt(x)] where [x] may be [undefined]. *)
Definition parseInt_opt (x : option string) : option Z :=
  match x with
  | Some s => parseInt s
  | None => None
  end.

(** [String(n)] for an integer or [NaN]. *)
Definition number_to_string (n : option Z) : string :=
  match n with
  | None => "NaN"
  | Some z => if (z <? 0)%Z then String.append "-" (show (- z)) else show z
  end.

(** [s.padStart(2, '0')] *)
Definition padStart2 (s : string) : string :=
  match String.length s with
  | 0 => "00"
  | 1 => String.append "0" s
  | _ => s
  end.

(** [formatEstTime(starttime)]: [HH:MM:SS] to the display form, as [2:30pm].
    A comparison with [NaN] is false. *)
Definition formatEstTime (starttime : string) : string :=
  let fields := split_colon starttime in
  let hourStr := nth_error fields 0 in
  let minStr := nth_error fields 1 in
  let hour := parseInt_opt hourStr in
  let minute := parseInt_opt minStr in
  let h := match hour with
           | Some n => Some (if (12 <? n)%Z then (n - 12)%Z
                             else if (n =? 0)%Z then 12%Z else n)
           | None => None
           end in
  let period := match hour with
                | Some n => if (12 <=? n)%Z then "pm" else "am"
                | None => "am"
                end in
  let m := padStart2 (number_to_string minute) in
  String.append (number_to_string h) (String.append ":" (String.append m period)).

Definition is_letter (c : ascii) : bool := is_upper c || is_lower c.

(** [/(\d+[A-Za-z]?)\s*$/] *)
Definition re_roomNumber : re :=
  cat [Grp 1 (cat [plus digit; opt (Cls is_letter)]); Star Ws; Eos].

(** [extractRoomNumber(roomName)]: the number at the end of the name, the
    name itself when it does not end with one. *)
Definition extractRoomNumber (roomName : string) : string :=
  match search re_roomNumber roomName with
  | Some m => group 1 m
  | None => roomName
  end.

End Formatting.

(** ** The routes over the snapshot cache *)
Module Routes.
Import JsString Adapters Cache.

(** What the expression [dataCache[k]] evaluates to.  [dataCache] is an
    object literal: a key that it has no property of its own for is looked up
    in its prototype.  The prototype is [Object.prototype], until a
    population for the date [__proto__] has run
    [dataCache['__proto__'] = { lastUpdated, data, lastFetchDurationMs }],
    which makes that entry the prototype; the entry under the key
    [__proto__] of the model is this prototype.  Its three fields are then
    read under their names, and the members of [Object.prototype] behind
    it. *)
Inductive Value : Type :=
| AnEntry (e : Entry)
| ANumber (z : Z)
| AnArray (l : list Facility)
| AMember
| Undefined.

Definition read (k : string) (st : State) : Value :=
  match dataCache st !! k with
  | Some e => AnEntry e
  | None =>
      match dataCache st !! "__proto__" with
      | Some proto =>
          if String.eqb k "lastUpdated" then ANumber (lastUpdated proto)
          else if String.eqb k "data" then AnArray (data proto)
          else if String.eqb k "lastFetchDurationMs" then ANumber (lastFetchDurationMs proto)
          else if Obj.inherited k then AMember else Undefined
      | None => if Obj.inherited k then AMember else Undefined
      end
  end.

(** [delete dataCache[cacheKey]] removes a property that the object has of
    its own; the prototype is none, so for the key [__proto__] nothing is
    removed. *)
Definition delete_entry (cacheKey : string) (st : State) : State :=
  if String.eqb cacheKey "__proto__" then st
  else
    {| dataCache := delete cacheKey (dataCache st); inFlight := inFlight st;
       populations := populations st; awaiting := awaiting st;
       next_promise := next_promise st; console := console st; replies := replies st |}.

(** The handler of [POST /api/refresh] in [server/index.js], up to its
    [await]: the entry of the key is deleted, then the snapshot is asked for
    without [force]. *)
Definition refresh_index_js (c : nat) (dateStr : option string) (now : Z) (st : State)
    : State :=
  getAllLibraryData CACHE_TTL_index_js c dateStr false now
    (delete_entry (cacheKeyOf dateStr) st).

(** The same handler in the other copy of the server: the snapshot is asked
    for with [force: true]. *)
Definition refresh_part_000 (c : nat) (dateStr : option string) (now : Z) (st : State)
    : State :=
  getAllLibraryData CACHE_TTL_part_000 c dateStr true now st.

(** A number as [res.json] prints it may be [NaN]. *)
Inductive Num : Type := Finite (z : Z) | NaN.

(** [cacheAge] of [GET /api/health] in [server/index.js]:
    [dataCache.lastUpdated ? Date.now() - dataCache.lastUpdated : null].
    [dataCache.lastUpdated] is the entry of the key [lastUpdated], an
    object, which counts as true and is not a number; without such an entry
    it is the time stamp of the prototype that a population for the date
    [__proto__] has left, a number, which counts as true unless it is 0; and
    otherwise it is [undefined]. *)
Definition cacheAge (st : State) (now : Z) : option Num :=
  match dataCache st !! "lastUpdated" with
  | Some _ => Some NaN
  | None =>
      match dataCache st !! "__proto__" with
      | Some proto =>
          if (lastUpdated proto =? 0)%Z then None
          else Some (Finite (now - lastUpdated proto))
      | None => None
      end
  end.

(** The function given to [entries.reduce], and [newest], in
    [GET /api/health] of the other copy; [None] is [null], and [null] and 0
    count as false. *)
Definition newer (best : option Z) (e : Entry) : option Z :=
  if (lastUpdated e =? 0)%Z then best
  else match best with
       | None => Some (lastUpdated e)
       | Some b => if (b =? 0)%Z || (b <? lastUpdated e)%Z then Some (lastUpdated e) else best
       end.

Definition newest (entries : list Entry) : option Z := fold_left newer entries None.

(** [newestCacheAgeMs]: [newest ? Date.now() - newest : null] *)
Definition newestCacheAgeMs (entries : list Entry) (now : Z) : option Z :=
  match newest entries with
  | Some n => if (n =? 0)%Z then None else Some (now - n)%Z
  | None => None
  end.

(** The body of [GET /api/libraries] in [server/index.js] after its [await]:
    [result] is what [getAllLibraryData] resolved to, [entry] the entry of
    the key as the handler finds it then, and [now] its clock reading. *)
Record LibrariesJson : Type := {
  json_data : list Facility;
  fetchedAtMs : Z;
  serverNowMs : Z;
  cacheAgeMs : option Z;
  json_cacheHit : option bool;
  json_deduped : bool;
  json_fetchDurationMs : option Z
}.

Definition libraries_json (result : Reply) (entry : option Entry) (now : Z) : LibrariesJson :=
  {| json_data := reply_data result;
     fetchedAtMs := fetchedAt result;
     serverNowMs := now;
     cacheAgeMs := match entry with
                   | Some e => if (lastUpdated e =? 0)%Z then None
                               else Some (now - lastUpdated e)%Z
                   | None => None
                   end;
     json_cacheHit := cacheHit result;
     json_deduped := default false (deduped result);
     json_fetchDurationMs := match entry with
                             | Some e => Some (lastFetchDurationMs e)
                             | None => fetchDurationMs result
                             end |}.

(** *** Reading a trace *)

(** The callers of the calls of a trace, the clock reading of an event, and
    the key that an event works on. *)
Definition caller_of (ev : Event) : option nat :=
  match ev with
  | Call c _ _ _ => Some c
  | Settle _ _ _ => None
  end.

Definition callers (evs : list Event) : list nat := omap caller_of evs.

Definition clock_of (ev : Event) : Z :=
  match ev with
  | Call _ _ _ now => now
  | Settle _ _ finishedAt => finishedAt
  end.

Definition key_of (st : State) (ev : Event) : option string :=
  match ev with
  | Call _ dateStr _ _ => Some (cacheKeyOf dateStr)
  | Settle p _ _ => pop_key <$> populations st !! p
  end.

(** The clock never goes back along the trace, starting from [t0]. *)
Fixpoint clock_runs_forward (t0 : Z) (evs : list Event) : Prop :=
  match evs with
  | [] => True
  | ev :: evs' => (t0 <= clock_of ev)%Z /\ clock_runs_forward (clock_of ev) evs'
  end.

(** The settlement of each of the populations [ps], one after the other. *)
Definition settlements (ps : list (nat * World * Z)) : list Event :=
  List.map (fun s => Settle s.1.1 s.1.2 s.2) ps.

(** Every time stamp in the cache is at most [t]. *)
Definition stamps_below (t : Z) (st : State) : Prop :=
  forall k e, dataCache st !! k = Some e -> (lastUpdated e <= t)%Z.

(** The snapshot and the time of a population that came to its end in the
    trace. *)
Definition completed (evs : list Event) (results : list Facility) (t : Z) : Prop :=
  exists p w d, In (Settle p w t) evs /\ fetchAll d w = Returned results.

(** What the adapters return in the world [world_up], and what a population
    there resolves to that started at 10 and ended at 20. *)
Definition snapshot_up : list Facility :=
  match fetchAll None world_up with
  | Returned results => results
  | Raised _ => []
  end.

Definition reply_up : Reply :=
  {| reply_data := snapshot_up; fetchedAt := 20; fetchDurationMs := Some 10%Z;
     cacheHit := None; deduped := None |}.

(** The date of a call is neither the word [lastUpdated] nor the word
    [__proto__]. *)
Definition plain_date (ev : Event) : Prop :=
  match ev with
  | Call _ dateStr _ _ => dateStr <> Some "lastUpdated" /\ dateStr <> Some "__proto__"
  | Settle _ _ _ => True
  end.

End Routes.

(** ** Checking a range of integers *)
Module Range.

(** [f] holds for the [n] integers from [lo] on. *)
Fixpoint forall_range (f : Z -> bool) (lo : Z) (n : nat) : bool :=
  match n with
  | O => true
  | S n' => if f lo then forall_range f (lo + 1)%Z n' else false
  end.

End Range.

(** ** The week of a date *)
Module Weeks.
Import JsString Calendar Hours.

(** What a function does that awaits [fetchLibCalHours] and goes on with its
    answer ([None] is [null]) until it returns. *)
Inductive Script : Type :=
| Done (result : option DateHours)
| Await (libraryId dateStr : string) (rest : option (gmap string DateHours) -> Script).

(** The script played against the answers that the awaited calls resolve to,
    in order: the calls made, and the result when the script got to its
    end. *)
Fixpoint play (s : Script) (answers : list (option (gmap string DateHours)))
    : list (string * string) * option (option DateHours) :=
  match s with
  | Done result => ([], Some result)
  | Await libraryId dateStr rest =>
      match answers with
      | [] => ([(libraryId, dateStr)], None)
      | answer :: more =>
          ((libraryId, dateStr) :: (play (rest answer) more).1, (play (rest answer) more).2)
      end
  end.

Section Zone.
(** The offset of local time from UTC at local noon of a day, in
    milliseconds. *)
Variable offset : Z -> Z.

(** [new Date(dateStr + 'T12:00:00').getTime()] for the day of [dateStr]. *)
Definition noon (day : Z) : Z := (day * 86400000 + 43200000 - offset day)%Z.

(** [Math.floor((requestedDate - mondayDate) / (24 * 60 * 60 * 1000))];
    [None] is [NaN], which either date gives when it is invalid. *)
Definition daysSinceMonday (dateStr : string) : option Z :=
  match parse_date dateStr, parse_date (getMondayOfWeek dateStr) with
  | Some requestedDate, Some mondayDate =>
      Some ((noon requestedDate - noon mondayDate) / (24 * 60 * 60 * 1000))%Z
  | _, _ => None
  end.

(** [hours && hours[dateStr]]: the entry of a date is an object, which
    counts as true. *)
Definition entry_of (hours : option (gmap string DateHours)) (dateStr : string)
    : option DateHours :=
  match hours with
  | Some h => h !! dateStr
  | None => None
  end.

(** [getLibraryHoursForDate(libraryId, dateStr)] *)
Definition getLibraryHoursForDate (libraryId dateStr : string) : Script :=
  Await libraryId dateStr (fun hours =>
    match entry_of hours dateStr with
    | Some found => Done (Some found)
    | None =>
        match daysSinceMonday dateStr, parse_date (getMondayOfWeek dateStr) with
        | Some days, Some mondayDate =>
            if (7 <=? days)%Z then
              let nextMondayStr := format_iso (mondayDate + 7) in
              Await libraryId nextMondayStr (fun hours =>
                match entry_of hours dateStr with
                | Some found => Done (Some found)
                | None => Done None
                end)
            else Done None
        | _, _ => Done None
        end
    end).

End Zone.

(** [getNext8DaysNY()], given [todayStr], the date of today in New York as
    [toLocaleDateString('en-CA', ...)] prints it: [YYYY-MM-DD]. *)
Definition getNext8DaysNY (todayStr : string) : list string :=
  List.map (fun i =>
    match parse_date todayStr with
    | Some base => format_local (base + i)
    | None => "NaN-NaN-NaN"
    end) [0; 1; 2; 3; 4; 5; 6; 7]%Z.

(** The week of a day, counted in weeks that start on Monday. *)
Definition week_of (day : Z) : Z := ((day + 3) / 7)%Z.

(** Eastern Standard Time, five hours behind UTC all year. *)
Definition est (day : Z) : Z := (-18000000)%Z.

End Weeks.

(** ** Reading a trace of the hours cache *)
Module HoursTrace.
Import JsString Hours.

Definition is_call (ev : HoursEvent) : bool :=
  match ev with
  | HCall _ _ _ _ => true
  | HSettle _ _ _ => false
  end.

(** The calls of [fetchLibCalHours] in a trace. *)
Definition calls (evs : list HoursEvent) : list HoursEvent := List.filter is_call evs.

(** The clock reading of an event; the clock never goes back along the
    trace, starting from [t0]. *)
Definition hours_clock_of (ev : HoursEvent) : Z :=
  match ev with
  | HCall _ _ _ now => now
  | HSettle _ _ now => now
  end.

Fixpoint hours_clock_runs_forward (t0 : Z) (evs : list HoursEvent) : Prop :=
  match evs with
  | [] => True
  | ev :: evs' => (t0 <= hours_clock_of ev)%Z /\ hours_clock_runs_forward (hours_clock_of ev) evs'
  end.

End HoursTrace.

(** ** Lists in ascending order *)
Module Order.

(** The keys of the list never go down from one place to a later one. *)
Definition ascending {A : Type} (key : A -> Z) (l : list A) : Prop :=
  forall i j a b, (i < j)%nat -> l !! i = Some a -> l !! j = Some b -> (key a <= key b)%Z.

End Order.

(** ** The page with its bootstrap data *)
Module Bootstrap.
Import JsString.

Definition backslash : string := String (ascii_of_nat 92) EmptyString.

(** [text.replace(/</g, "\\u003c")] *)
Fixpoint escape_lt (text : string) : string :=
  match text with
  | EmptyString => EmptyString
  | String c text' =>
      if Ascii.eqb c "<" then String.append backslash (String.append "u003c" (escape_lt text'))
      else String c (escape_lt text')
  end.

(** [safeJsonForHtml(obj)], given the text [JSON.stringify(obj)]. *)
Definition safeJsonForHtml (json : string) : string := escape_lt json.

(** The first occurrence of [pattern] in [s]: what stands before it and what
    stands after it. *)
Fixpoint split_first (pattern s : string) : option (string * string) :=
  if starts_with pattern s then Some (EmptyString, drop (String.length pattern) s)
  else match s with
       | EmptyString => None
       | String c s' =>
           match split_first pattern s' with
           | Some (before, after) => Some (String c before, after)
           | None => None
           end
       end.

(** The replacement text of [String.prototype.replace] for a pattern that is
    a string: [$$] stands for a dollar sign, [$&] for the match, [$`] for
    what stands before the match, [$'] for what stands after it; there are
    no groups, so every other dollar sign stands for itself. *)
Fixpoint substitute (matched before after replacement : string) : string :=
  match replacement with
  | EmptyString => EmptyString
  | String c rest =>
      if Ascii.eqb c "$" then
        match rest with
        | String d rest' =>
            if Ascii.eqb d "$" then String "$" (substitute matched before after rest')
            else if Ascii.eqb d "&"
              then String.append matched (substitute matched before after rest')
            else if Ascii.eqb d "`"
              then String.append before (substitute matched before after rest')
            else if Ascii.eqb d "'"
              then String.append after (substitute matched before after rest')
            else String c (substitute matched before after rest)
        | EmptyString => String c EmptyString
        end
      else String c (substitute matched before after rest)
  end.

(** [s.replace(pattern, replacement)] for strings [pattern] and
    [replacement]: the first occurrence only. *)
Definition replace (pattern replacement s : string) : string :=
  match split_first pattern s with
  | Some (before, after) =>
      String.append before
        (String.append (substitute pattern before after replacement) after)
  | None => s
  end.

(** [`<script>window.__LIBRARYSPOT_INITIAL__=${safeJsonForHtml(payload)};</script>`] *)
Definition bootstrapTag (json : string) : string :=
  String.append "<script>window.__LIBRARYSPOT_INITIAL__="
    (String.append (safeJsonForHtml json) ";</script>").

Definition newline : string := String (ascii_of_nat 10) EmptyString.

(** [template.replace("</head>", `${bootstrapTag}\n</head>`)] *)
Definition inject (template json : string) : string :=
  replace "</head>" (String.append (bootstrapTag json) (String.append newline "</head>"))
    template.

End Bootstrap.

(** ** The rooms of the OSU service

    The part of [fetchOsuApi] that groups the time slot records of the
    answer by room, before the rooms and their slots are sorted. *)
Module Grouping.
Import JsString Adapters Formatting.

(** A record of [timeslots]: [roomHide] is whether the property is exactly
    [true], the other flags whether the property counts as true. *)
Record Timeslot : Type := {
  roomHide : bool;
  roomName : string;
  maximumCapacity : Z;
  whiteboard : bool;
  hdtv : bool;
  videoConferencing : bool;
  ts_open : bool;
  taken : bool;
  ts_starttime : string
}.

(** [slot.roomName.includes('045') ? 'LL' : parseInt(roomNum.charAt(0)) || 1] *)
Definition floor_of (slot : Timeslot) (roomNum : string) : Floor :=
  if includes "045" (roomName slot) then FloorLL
  else match parseInt (take 1 roomNum) with
       | Some n => if (n =? 0)%Z then FloorNumber 1 else FloorNumber n
       | None => FloorNumber 1
       end.

(** The room made for the first record of a room number. *)
Definition new_room (slot : Timeslot) (roomNum : string) : Room :=
  {| name := roomNum;
     fullName := Some (roomName slot);
     capacity := maximumCapacity slot;
     floor := floor_of slot roomNum;
     amenities := (if whiteboard slot then ["whiteboard"] else [])
                  ++ (if hdtv slot then ["monitor"] else [])
                  ++ (if videoConferencing slot then ["video-conf"] else []);
     slots := [] |}.

(** [{ time: formatEstTime(slot.starttime), available: !slot.taken,
    starttime: slot.starttime }] *)
Definition slot_of (slot : Timeslot) : Slot :=
  {| time := formatEstTime (ts_starttime slot);
     available := negb (taken slot);
     starttime := Some (ts_starttime slot) |}.

(** [roomsMap[roomNum].slots.push(s)] *)
Definition push_slot (room : Room) (s : Slot) : Room :=
  {| name := name room; fullName := fullName room; capacity := capacity room;
     floor := floor room; amenities := amenities room; slots := slots room ++ [s] |}.

(** The record makes the function given to [forEach] throw: it is shown and
    open, and its room number is the name of a member of
    [Object.prototype]. *)
Definition throwing (slot : Timeslot) : bool :=
  negb (roomHide slot) && ts_open slot
  && Obj.inherited (extractRoomNumber (roomName slot)).

(** The record is entered into the map: it is shown and its room number is
    no such name. *)
Definition entered (slot : Timeslot) : bool :=
  negb (roomHide slot) && negb (Obj.inherited (extractRoomNumber (roomName slot))).

(** What the function does to the map when it does not throw: for a record
    that is entered, the room gets an entry if it has none, and an open
    record adds its slot. *)
Definition file_timeslot (roomsMap : list (string * Room)) (slot : Timeslot)
    : list (string * Room) :=
  if entered slot then
    let roomNum := extractRoomNumber (roomName slot) in
    let roomsMap := match Obj.get roomNum roomsMap with
                    | Some _ => roomsMap
                    | None => Obj.set roomNum (new_room slot roomNum) roomsMap
                    end in
    if ts_open slot then
      match Obj.get roomNum roomsMap with
      | Some room => Obj.set roomNum (push_slot room (slot_of slot)) roomsMap
      | None => roomsMap
      end
    else roomsMap
  else roomsMap.

(** The function given to [roomData.timeslots.forEach].
    [!roomsMap[roomNum]] is false for an inherited member too; no entry is
    made then, and for an open record [roomsMap[roomNum].slots.push] throws
    a [TypeError], since the member has no [slots]. *)
Definition add_timeslot (roomsMap : list (string * Room)) (slot : Timeslot)
    : Outcome (list (string * Room)) :=
  if roomHide slot then Returned roomsMap
  else
    let roomNum := extractRoomNumber (roomName slot) in
    let roomsMap := match Obj.lookup roomNum roomsMap with
                    | Obj.Missing => Obj.set roomNum (new_room slot roomNum) roomsMap
                    | _ => roomsMap
                    end in
    if ts_open slot then
      match Obj.lookup roomNum roomsMap with
      | Obj.Own room => Returned (Obj.set roomNum (push_slot room (slot_of slot)) roomsMap)
      | _ => Raised "Cannot read properties of undefined"
      end
    else Returned roomsMap.

(** [roomsMap] after the two nested [forEach] over
    [json.data.locationAvailableRooms], or the error thrown on the way,
    which the [catch] block of [fetchOsuApi] turns into the degraded
    facility. *)
Definition group_rooms (locationAvailableRooms : list (list Timeslot))
    : Outcome (list (string * Room)) :=
  fold_outcome (fun roomsMap timeslots => fold_outcome add_timeslot timeslots roomsMap)
    locationAvailableRooms [].

(** The record is shown and belongs to room number [k]. *)
Definition shown_as (k : string) (slot : Timeslot) : bool :=
  negb (roomHide slot) && String.eqb (extractRoomNumber (roomName slot)) k.

(** What [roomsMap] holds for room number [k] after the records [ts]. *)
Definition grouped (ts : list Timeslot) (m : list (string * Room)) (k : string) : Prop :=
  match Obj.get k m with
  | None => List.filter (shown_as k) ts = []
  | Some room =>
      exists first,
        head (List.filter (shown_as k) ts) = Some first
        /\ room = fold_left push_slot
                    (List.map slot_of (List.filter (fun t => shown_as k t && ts_open t) ts))
                    (new_room first k)
  end.

End Grouping.

(** ** The date of a request

    The routes pass [req.query.date] on as [dateStr].  It is a string, or
    missing; and for a query that repeats the parameter or gives it fields
    ([?date=a&date=b], [?date[k]=v]) it is an array or an object. *)
Module Query.
Import JsString Adapters.

(** [shown] is the string that the array or the object turns into where
    it is appended to a string. *)
Inductive QueryDate : Type :=
| NoDate
| DateText (s : string)
| DateObject (shown : string).

(** [fetchOsuApi] from its first line on.  [if (dateStr) { ...
    dateStr.split('-') ... }] runs before the [try] block: an array or an
    object counts as true and has no [split], so the call throws a
    [TypeError] that no [catch] block of the function sees.  On a string
    [split], [map(Number)] and [padStart] never throw. *)
Definition fetchOsuApi_query (library : Library) (date : QueryDate) (w : OsuNet)
    : Outcome Facility :=
  match date with
  | NoDate => fetchOsuApi library None w
  | DateText s => fetchOsuApi library (Some s) w
  | DateObject _ => Raised "dateStr.split is not a function"
  end.

(** [scrapeLibCal] only appends the date to strings.  An array or an
    object counts as true whatever it shows; when it shows the empty
    string, [new Date('' + 'T12:00:00')] is the invalid date, as it is for
    the text [T12:00:00]. *)
Definition scrapeLibCal_query (library : Library) (date : QueryDate) (w : Chrome)
    : Outcome Facility :=
  match date with
  | NoDate => scrapeLibCal library None w
  | DateText s => scrapeLibCal library (Some s) w
  | DateObject shown =>
      scrapeLibCal library
        (Some (if String.eqb shown EmptyString then "T12:00:00" else shown)) w
  end.

Definition fetchLibrary_query (date : QueryDate) (w : World) (library : Library)
    : Outcome Facility :=
  match lib_type library with
  | osu_api => fetchOsuApi_query library date (osu w (lib_id library))
  | libcal => scrapeLibCal_query library date (chrome w)
  end.

(** One round of adapter fetches for the date of a request. *)
Definition fetchAll_query (date : QueryDate) (w : World) : Outcome (list Facility) :=
  promise_all (List.map (fetchLibrary_query date w) LIBRARIES).

End Query.

(** ** [renderIndexWithBootstrap]: the page cache

    The page with its bootstrap data is built at most once a minute and by
    one request at a time.  A step is a request up to its [return] or its
    [await], or the end of a build: the rest of the async function behind
    [bootstrapInFlight], with the template it read and the JSON text of the
    payload it gathered (either may have failed), followed by the rest of
    every request that awaits it. *)
Module Page.
Import JsString Adapters Cache Bootstrap.

Definition BOOTSTRAP_TTL : Z := 60 * 1000.

(** [cachedBootstrapHtml], [cachedBootstrapAt] and [bootstrapInFlight]; the
    builds that have not come to their end, the requests suspended at an
    [await], and what was sent in answer to each request: the page, or the
    error passed to [next]. *)
Record PageState : Type := {
  cachedBootstrapHtml : option string;
  cachedBootstrapAt : Z;
  bootstrapInFlight : option nat;
  builds : gset nat;
  page_awaiting : list Waiter;
  next_build : nat;
  sent : list (nat * Outcome string)
}.

Definition page_init : PageState :=
  {| cachedBootstrapHtml := None; cachedBootstrapAt := 0; bootstrapInFlight := None;
     builds := ∅; page_awaiting := []; next_build := 0; sent := [] |}.

(** [res.status(200).send(html)], or the error thrown to the route. *)
Definition send (c : nat) (r : Outcome string) (st : PageState) : PageState :=
  {| cachedBootstrapHtml := cachedBootstrapHtml st; cachedBootstrapAt := cachedBootstrapAt st;
     bootstrapInFlight := bootstrapInFlight st; builds := builds st;
     page_awaiting := page_awaiting st; next_build := next_build st;
     sent := sent st ++ [(c, r)] |}.

Definition page_suspend (c p : nat) (r : Role) (st : PageState) : PageState :=
  {| cachedBootstrapHtml := cachedBootstrapHtml st; cachedBootstrapAt := cachedBootstrapAt st;
     bootstrapInFlight := bootstrapInFlight st; builds := builds st;
     page_awaiting := page_awaiting st ++ [{| caller := c; promise := p; role := r |}];
     next_build := next_build st; sent := sent st |}.

(** [cachedBootstrapHtml && now - cachedBootstrapAt < BOOTSTRAP_TTL]: the
    page to serve from the cache, if any.  The empty string counts as
    false. *)
Definition cached_page (now : Z) (st : PageState) : option string :=
  match truthy (cachedBootstrapHtml st) with
  | Some html => if (now - cachedBootstrapAt st <? BOOTSTRAP_TTL)%Z then Some html else None
  | None => None
  end.

(** [bootstrapInFlight = (async () => { ... })()] *)
Definition start_build (st : PageState) : PageState :=
  {| cachedBootstrapHtml := cachedBootstrapHtml st; cachedBootstrapAt := cachedBootstrapAt st;
     bootstrapInFlight := Some (next_build st);
     builds := {[next_build st]} ∪ builds st;
     page_awaiting := page_awaiting st; next_build := S (next_build st); sent := sent st |}.

(** [renderIndexWithBootstrap(req, res)] for request [c] at clock reading
    [now], up to the point where it answers or is suspended. *)
Definition renderIndexWithBootstrap (c : nat) (now : Z) (st : PageState) : PageState :=
  match cached_page now st with
  | Some html => send c (Returned html) st
  | None =>
      match bootstrapInFlight st with
      | Some p => page_suspend c p Joiner st
      | None => page_suspend c (next_build st) Initiator (start_build st)
      end
  end.

(** What the build resolves to. *)
Definition build_html (template json : Outcome string) : Outcome string :=
  t ← template; j ← json; Returned (inject t j).

(** A suspended request goes on: it sends the page, or throws; the one that
    started the build then sets [bootstrapInFlight = null] in its
    [finally]. *)
Definition page_resume (result : Outcome string) (st : PageState) (w : Waiter) : PageState :=
  match role w with
  | Initiator =>
      send (caller w) result
        {| cachedBootstrapHtml := cachedBootstrapHtml st;
           cachedBootstrapAt := cachedBootstrapAt st;
           bootstrapInFlight := None; builds := builds st;
           page_awaiting := page_awaiting st; next_build := next_build st; sent := sent st |}
  | Joiner => send (caller w) result st
  end.

(** The end of build [p] at clock reading [finishedAt]. *)
Definition build_end (p : nat) (template json : Outcome string) (finishedAt : Z)
    (st : PageState) : PageState :=
  if bool_decide (p ∈ builds st) then
    let result := build_html template json in
    fold_left (page_resume result) (List.filter (awaits p) (page_awaiting st))
      {| cachedBootstrapHtml := match result with
                                | Returned out => Some out
                                | Raised _ => cachedBootstrapHtml st
                                end;
         cachedBootstrapAt := match result with
                              | Returned _ => finishedAt
                              | Raised _ => cachedBootstrapAt st
                              end;
         bootstrapInFlight := bootstrapInFlight st;
         builds := builds st ∖ {[p]};
         page_awaiting := List.filter (fun w => negb (awaits p w)) (page_awaiting st);
         next_build := next_build st; sent := sent st |}
  else st.

Inductive PageEvent : Type :=
| Request (c : nat) (now : Z)
| BuildEnd (p : nat) (template json : Outcome string) (finishedAt : Z).

Definition page_step (st : PageState) (ev : PageEvent) : PageState :=
  match ev with
  | Request c now => renderIndexWithBootstrap c now st
  | BuildEnd p template json finishedAt => build_end p template json finishedAt st
  end.

Definition page_run (st : PageState) (evs : list PageEvent) : PageState :=
  fold_left page_step evs st.

(** The requests of a trace. *)
Definition requester (ev : PageEvent) : option nat :=
  match ev with
  | Request c _ => Some c
  | BuildEnd _ _ _ _ => None
  end.

Definition requesters (evs : list PageEvent) : list nat := omap requester evs.

(** Requests that come one after the other. *)
Definition requests (cs : list (nat * Z)) : list PageEvent :=
  List.map (fun c => Request c.1 c.2) cs.

(** The builds not yet at their end are the one behind [bootstrapInFlight],
    if any; it was started by a request that awaits it, and every suspended
    request awaits it. *)
Definition page_consistent (st : PageState) : Prop :=
  builds st = match bootstrapInFlight st with
              | Some p => {[p]}
              | None => ∅
              end
  /\ (forall p, bootstrapInFlight st = Some p ->
        (p < next_build st)%nat
        /\ exists c, {| caller := c; promise := p; role := Initiator |} ∈ page_awaiting st)
  /\ (forall w, w ∈ page_awaiting st -> bootstrapInFlight st = Some (promise w)).

End Page.

(** * Theorems *)

Module StringFacts.
Import JsString.

Lemma append_cons (c : ascii) (a s : string) :
  String.append (String c a) s = String c (String.append a s).
Proof. reflexivity. Qed.

Lemma append_empty (s : string) : String.append EmptyString s = s.
Proof. reflexivity. Qed.

Lemma append_nil_r (s : string) : String.append s EmptyString = s.
Proof. induction s as [|c s IH]; [done|]. by rewrite append_cons, IH. Qed.

Lemma append_assoc (s t u : string) :
  String.append s (String.append t u) = String.append (String.append s t) u.
Proof. induction s as [|c s IH]; [done|]. by rewrite !append_cons, IH. Qed.

Lemma length_append (a b : string) :
  String.length (String.append a b) = (String.length a + String.length b)%nat.
Proof. induction a as [|c a IH]; [done|]. rewrite append_cons. simpl. by rewrite IH. Qed.

Lemma take_drop (n : nat) (s : string) : String.append (take n s) (drop n s) = s.
Proof.
  revert s. induction n as [|n IH]; intros [|c s]; try done.
  simpl. by rewrite append_cons, IH.
Qed.

Lemma length_take (n : nat) (s : string) :
  (n <= String.length s)%nat -> String.length (take n s) = n.
Proof.
  revert s. induction n as [|n IH]; intros [|c s] H; simpl in *; try done; try lia.
  rewrite IH; [done|lia].
Qed.

Lemma take_append (a b : string) :
  take (String.length (String.append a b) - String.length b) (String.append a b) = a.
Proof.
  rewrite length_append. replace (String.length a + String.length b - String.length b)%nat
    with (String.length a) by lia.
  induction a as [|c a IH]; [by destruct b|].
  rewrite append_cons. simpl. by rewrite IH.
Qed.

Lemma drop_append (a b : string) : drop (String.length a) (String.append a b) = b.
Proof. induction a as [|c a IH]; [done|]. rewrite append_cons. exact IH. Qed.

Lemma drop_append_le (n : nat) (a b : string) :
  (n <= String.length a)%nat -> drop n (String.append a b) = String.append (drop n a) b.
Proof.
  revert a. induction n as [|n IH]; intros [|c a] H; simpl in *; try done;
    try (exfalso; lia).
  rewrite ?append_cons. simpl. apply IH. lia.
Qed.

End StringFacts.

Module RegexTheory.
Import JsString Regex StringFacts.
Local Open Scope list_scope.

(** *** The matcher finds matches only *)

Lemma matcher_sound {A : Type} (r : re) :
  forall (s : string) (cs : captures) (k : string -> captures -> option A) (a : A),
  matcher r s cs k = Some a ->
  exists s' cs', matches r s cs s' cs' /\ k s' cs' = Some a.
Proof.
  induction r as [| | p | | | p | p | r1 IH1 r2 IH2 | r1 IH1 r2 IH2 | r1 IH1 | r1 IH1 | i r1 IH1];
    intros s cs k a H; cbn [matcher matches] in *.
  - eauto.
  - destruct s; [eauto 6|done].
  - destruct s as [|c s0]; [done|]. destruct (p c) eqn:Hp; [|done]. eauto 8.
  - destruct s as [|c s0]; [done|]. destruct (is_line_terminator _) eqn:Hl; [done|]. eauto 8.
  - destruct (ws_len s) eqn:Hn; [done|]. eexists _, _. split; [|exact H]. done.
  - destruct (starts_with p s) eqn:Hp; [|done]. eauto 8.
  - destruct (starts_with_i p s) eqn:Hp; [|done]. eauto 8.
  - apply IH1 in H as (s1 & cs1 & H1 & H). apply IH2 in H as (s' & cs' & H2 & H). eauto 8.
  - destruct (matcher r1 s cs k) as [a0|] eqn:H1.
    + injection H as <-. apply IH1 in H1 as (s' & cs' & H1 & H). eauto 8.
    + apply IH2 in H as (s' & cs' & H2 & H). eauto 8.
  - revert H. generalize (String.length s) as fuel. intros fuel. revert s cs.
    induction fuel as [|fuel IHf]; intros s cs H.
    + exists s, cs. split; [constructor|done].
    + destruct (matcher r1 s cs _) as [a0|] eqn:H1.
      * injection H as <-. apply IH1 in H1 as (s1 & cs1 & H1 & H).
        destruct (String.length s1 <? String.length s)%nat; [|done].
        apply IHf in H as (s' & cs' & Hs & H). exists s', cs'. split; [|done].
        by apply steps_cons with s1 cs1.
      * exists s, cs. split; [constructor|done].
  - revert H. generalize (String.length s) as fuel. intros fuel. revert s cs.
    induction fuel as [|fuel IHf]; intros s cs H.
    + exists s, cs. split; [constructor|done].
    + destruct (k s cs) as [a0|] eqn:Hk.
      * injection H as <-. exists s, cs. split; [constructor|done].
      * apply IH1 in H as (s1 & cs1 & H1 & H).
        destruct (String.length s1 <? String.length s)%nat; [|done].
        apply IHf in H as (s' & cs' & Hs & H). exists s', cs'. split; [|done].
        by apply steps_cons with s1 cs1.
  - apply IH1 in H as (s' & cs1 & H1 & H). eauto 8.
Qed.

Lemma match_here_sound (r : re) (s : string) (f : found) :
  match_here r s = Some f ->
  matches r s [] (rest f) (groups f)
  /\ matched f = take (String.length s - String.length (rest f)) s.
Proof.
  unfold match_here. intros H. apply matcher_sound in H as (s' & cs' & Hm & [= <-]). done.
Qed.

Lemma search_sound (r : re) (s : string) (f : found) :
  search r s = Some f -> exists s0, match_here r s0 = Some f.
Proof.
  induction s as [|c s IH]; simpl.
  - destruct (match_here r EmptyString) eqn:H; [|done]. intros [= <-]. eauto.
  - destruct (match_here r (String c s)) eqn:H; [intros [= <-]; eauto|]. exact IH.
Qed.

(** A pattern without capture groups leaves the captures as they are. *)
Lemma steps_captures (R : string -> captures -> string -> captures -> Prop) :
  (forall s cs s' cs', R s cs s' cs' -> cs' = cs) ->
  forall s cs s' cs', steps R s cs s' cs' -> cs' = cs.
Proof.
  intros HR s cs s' cs' H. induction H as [|s cs s1 cs1 s' cs' H1 _ IH]; [done|].
  rewrite IH. by apply HR in H1.
Qed.

Lemma groupless_captures (r : re) :
  groupless r = true ->
  forall s cs s' cs', matches r s cs s' cs' -> cs' = cs.
Proof.
  induction r as [| | p | | | p | p | r1 IH1 r2 IH2 | r1 IH1 r2 IH2 | r1 IH1 | r1 IH1 | i r1 IH1];
    cbn [groupless matches]; intros Hg s cs s' cs' H; try (by intuition).
  - apply andb_prop in Hg as [H1 H2]. destruct H as (s1 & cs1 & Ha & Hb).
    apply IH1 in Ha; [|done]. apply IH2 in Hb; [|done]. congruence.
  - apply andb_prop in Hg as [H1 H2]. destruct H as [H|H]; eauto.
  - eapply steps_captures; [|exact H]. eauto.
  - eapply steps_captures; [|exact H]. eauto.
Qed.

End RegexTheory.

Module ClockTheory.
Import JsString Regex Calendar Hours StringFacts RegexTheory.
Local Open Scope list_scope.

(** *** Bytes *)

Ltac each_byte c := destruct c as [[] [] [] [] [] [] [] []]; try discriminate; try reflexivity.

Lemma digit_byte (c : ascii) :
  is_digit c = true ->
  blank c = false /\ quiet c = true /\ lower_char c = c /\ Ascii.eqb c "c" = false
  /\ Ascii.eqb ":" c = false.
Proof. each_byte c; intros _; repeat split. Qed.

Lemma blank_byte (c : ascii) :
  blank c = true ->
  quiet c = true /\ is_digit c = false /\ Ascii.eqb ":" c = false.
Proof. each_byte c; intros _; repeat split. Qed.

Lemma period_byte (c : ascii) :
  Ascii.eqb "a" (lower_char c) = true \/ Ascii.eqb "p" (lower_char c) = true
  \/ Ascii.eqb "m" (lower_char c) = true ->
  blank c = false /\ is_digit c = false /\ Ascii.eqb ":" c = false.
Proof. each_byte c; intros [H|[H|H]]; try discriminate H; repeat split. Qed.

(** *** White space *)

Ltac bools :=
  repeat match goal with
         | H : (_ || _) = true |- _ => apply orb_prop in H as [H|H]
         | H : (_ && _) = true |- _ =>
             let H' := fresh H in apply andb_prop in H as [H' H]
         | H : (_ <=? _)%nat = true |- _ => apply Nat.leb_le in H
         | H : (_ =? _)%nat = true |- _ => apply Nat.eqb_eq in H
         end.

Lemma blank_intro (c : ascii) : (code c <= 32 \/ 128 <= code c)%nat -> blank c = true.
Proof.
  intros [H|H]; unfold blank; apply orb_true_iff; [left|right]; by apply Nat.leb_le.
Qed.

(** The white space character that a string starts with: its bytes, and
    that it is read the same whatever follows. *)
Lemma ws_len_char (s : string) :
  ws_len s <> 0 ->
  exists c rest,
    s = String.append c rest /\ String.length c = ws_len s
    /\ all_bytes blank c = true
    /\ forall x, ws_len (String.append c x) = ws_len s.
Proof.
  unfold ws_len. destruct s as [|a s1]; [done|]. cbv zeta.
  destruct ((9 <=? code a) && (code a <=? 13) || (code a =? 32))%nat eqn:H1.
  { intros _. exists (String a EmptyString), s1. repeat split.
    - simpl. rewrite andb_true_r. apply blank_intro. bools; lia.
    - intros x. rewrite append_cons. by rewrite H1. }
  destruct s1 as [|b s2]; [done|].
  destruct ((code a =? 194) && (code b =? 160))%nat eqn:H2.
  { intros _. exists (String a (String b EmptyString)), s2. repeat split.
    - simpl. rewrite andb_true_r. apply andb_true_intro.
      split; apply blank_intro; bools; lia.
    - intros x. rewrite !append_cons. by rewrite H1, H2. }
  destruct s2 as [|d s3]; [done|].
  match goal with |- context [if ?c then 3 else 0] => destruct c eqn:H3 end; [|done].
  intros _. exists (String a (String b (String d EmptyString))), s3. repeat split.
  - simpl. rewrite andb_true_r.
    apply andb_true_intro; split; [|apply andb_true_intro; split];
      apply blank_intro; bools; lia.
  - intros x. rewrite !append_cons. by rewrite H1, H2, H3.
Qed.

Lemma ws_len_le (s : string) : ws_len s <= String.length s.
Proof.
  destruct (Nat.eq_dec (ws_len s) 0) as [->|H]; [lia|].
  destruct (ws_len_char s H) as (c & rest & Hs & Hl & _). rewrite <- Hl.
  rewrite Hs, length_append. lia.
Qed.

Lemma ws_len_append (s x : string) :
  ws_len s <> 0 -> ws_len (String.append s x) = ws_len s.
Proof.
  intros H. destruct (ws_len_char s H) as (c & rest & Hs & _ & _ & Hc).
  rewrite Hs at 1. rewrite <- append_assoc. apply Hc.
Qed.

Lemma ws_len_take (s : string) : ws_len (take (ws_len s) s) = ws_len s.
Proof.
  destruct (Nat.eq_dec (ws_len s) 0) as [H|H]; [rewrite H; by destruct s|].
  destruct (ws_len_char s H) as (c & rest & Hs & Hl & _ & Hc).
  assert (take (ws_len s) s = c) as ->.
  { rewrite <- Hl. rewrite Hs.
    replace (String.length c)
      with (String.length (String.append c rest) - String.length rest)
      by (rewrite length_append; lia).
    apply take_append. }
  rewrite <- (append_nil_r c). apply Hc.
Qed.

Lemma white_space_append (W W' : string) :
  white_space W -> white_space W' -> white_space (String.append W W').
Proof.
  intros H. induction H as [|s Hn Hs IH]; intros HW'; [done|].
  apply white_cons.
  - by rewrite ws_len_append.
  - rewrite ws_len_append by done. rewrite drop_append_le by apply ws_len_le. by apply IH.
Qed.

Lemma white_space_char (s : string) : white_space (take (ws_len s) s).
Proof.
  destruct (Nat.eq_dec (ws_len s) 0) as [H|H].
  - rewrite H. destruct s; constructor.
  - apply white_cons; rewrite ws_len_take; [done|].
    pose proof (drop_append (take (ws_len s) s) EmptyString) as Hd.
    rewrite length_take, append_nil_r in Hd by apply ws_len_le. rewrite Hd. constructor.
Qed.

Lemma white_space_blank (W : string) : white_space W -> all_bytes blank W = true.
Proof.
  assert (forall a b, all_bytes blank a = true -> all_bytes blank b = true ->
                      all_bytes blank (String.append a b) = true) as Happ.
  { induction a as [|c a IH]; intros b Ha Hb; [done|]. rewrite append_cons. simpl in *.
    apply andb_prop in Ha as [-> Ha]. by apply IH. }
  induction 1 as [|s Hn Hs IH]; [done|].
  destruct (ws_len_char s Hn) as (c & rest & Hs' & Hl & Hc & _).
  assert (drop (ws_len s) s = rest) as Hr.
  { rewrite <- Hl, Hs'. apply drop_append. }
  rewrite Hr in IH. rewrite Hs'. by apply Happ.
Qed.

(** What [\s*] has matched is a run of white space. *)
Lemma steps_ws (s : string) (cs : captures) (s' : string) (cs' : captures) :
  steps (matches Ws) s cs s' cs' ->
  cs' = cs /\ exists W, s = String.append W s' /\ white_space W.
Proof.
  induction 1 as [s cs|s cs s1 cs1 s' cs' (Hn & -> & ->) _ (-> & W & HW & Hw)].
  - split; [done|]. exists EmptyString. split; [done|constructor].
  - split; [done|]. exists (String.append (take (ws_len s) s) W). split.
    + rewrite <- append_assoc, <- HW. by rewrite take_drop.
    + apply white_space_append; [apply white_space_char|done].
Qed.

(** The greedy star takes the whole run when the match goes on after it. *)
Lemma star_ws_greedy {A : Type} (W rest : string) (cs : captures)
    (k : string -> captures -> option A) (a : A) :
  white_space W -> ws_len rest = 0 -> k rest cs = Some a ->
  matcher (Star Ws) (String.append W rest) cs k = Some a.
Proof.
  intros HW Hrest Hk. cbn [matcher].
  assert (String.length W <= String.length (String.append W rest)) as Hfuel
    by (rewrite length_append; lia).
  revert Hfuel. generalize (String.length (String.append W rest)) as fuel.
  intros fuel. revert W HW. induction fuel as [|fuel IH]; intros W HW Hfuel.
  - destruct W; [exact Hk|simpl in Hfuel; lia].
  - destruct HW as [|W Hn HW].
    + rewrite append_empty, Hrest. exact Hk.
    + rewrite ws_len_append by done.
      destruct (ws_len W) as [|n] eqn:Hw; [done|].
      pose proof (ws_len_le W) as Hle. rewrite Hw in Hle.
      rewrite drop_append_le by lia.
      assert (String.length (drop (S n) W) + S n = String.length W) as Hd.
      { rewrite <- (take_drop (S n) W) at 2. rewrite length_append, length_take; lia. }
      destruct (Nat.ltb_spec (String.length (String.append (drop (S n) W) rest))
                  (String.length (String.append W rest))) as [_|Hge].
      * rewrite IH; [done|done|lia].
      * rewrite !length_append in Hge. lia.
Qed.

(** *** What the range pattern captures *)

Lemma matches_digit (s : string) (cs : captures) (s' : string) (cs' : captures) :
  matches digit s cs s' cs' -> cs' = cs /\ exists c, s = String c s' /\ is_digit c = true.
Proof. intros [(c & -> & Hc) ->]. eauto. Qed.

Lemma matches_period (p : string) (s : string) (cs : captures) (s' : string) (cs' : captures) :
  p = "am" \/ p = "pm" ->
  matches (LitI p) s cs s' cs' ->
  cs' = cs /\ exists ap, s = String.append ap s' /\ String.length ap = 2
                         /\ toLowerCase ap = p.
Proof.
  intros Hp (H & -> & ->). split; [done|].
  destruct s as [|a [|b s]];
    [by destruct Hp as [->| ->]
    |destruct Hp as [->| ->]; unfold starts_with_i in H; simpl in H;
     by rewrite andb_false_r in H|].
  exists (String a (String b EmptyString)). split; [by destruct Hp as [->| ->]|].
  split; [done|].
  destruct Hp as [->| ->];
    [change (Ascii.eqb "a" (lower_char a) && (Ascii.eqb "m" (lower_char b) && true) = true)
       in H
    |change (Ascii.eqb "p" (lower_char a) && (Ascii.eqb "m" (lower_char b) && true) = true)
       in H];
    apply andb_prop in H as [Ha H]; apply andb_prop in H as [Hb _];
    apply Ascii.eqb_eq in Ha, Hb; unfold toLowerCase; cbn [map_string];
    by rewrite <- Ha, <- Hb.
Qed.

Lemma matches_colon (s : string) (cs : captures) (s' : string) (cs' : captures) :
  matches (Lit ":") s cs s' cs' -> cs' = cs /\ s = String ":" s'.
Proof.
  intros (H & -> & ->). split; [done|]. destruct s as [|c s]; [done|].
  change (Ascii.eqb ":" c && true = true) in H.
  rewrite andb_true_r in H. apply Ascii.eqb_eq in H. by subst.
Qed.

(** A match of the pattern of one time of day is a [clock_text]. *)
Lemma clock_shape (s : string) (cs : captures) (s' : string) (cs' : captures) :
  matches re_clock s cs s' cs' ->
  cs' = cs /\ exists t h m pm, s = String.append t s' /\ clock_text t h m pm.
Proof.
  unfold re_clock. cbn [cat foldr opt matches].
  intros (s1 & cs1 & H1 & s2 & cs2 & H2 & s3 & cs3 & H3 & s4 & cs4 & H4
          & s5 & cs5 & H5 & Hs' & Hcs').
  subst s' cs'.
  apply matches_digit in H1 as (-> & d1 & -> & Hd1).
  apply steps_ws in H4 as (-> & W & -> & HW).
  assert (cs5 = cs3 /\ exists ap (pm : bool), s4 = String.append ap s5 /\ String.length ap = 2
                                     /\ toLowerCase ap = if pm then "pm" else "am")
    as (-> & ap & pm & -> & Hap & Hpm).
  { destruct H5 as [H5|H5]; eapply matches_period in H5 as (-> & ap & ? & ? & ?); eauto.
    - split; [done|]. by exists ap, false.
    - split; [done|]. by exists ap, true. }
  assert (cs3 = cs2
          /\ exists md m, s2 = String.append md (String.append W (String.append ap s5))
               /\ ((md = EmptyString /\ m = 0%Z)
                   \/ exists mm, md = String ":" mm /\ String.length mm = 2
                                 /\ all_digits mm = true /\ m = parse_digits 0 mm))
    as (-> & md & m & -> & Hmd).
  { destruct H3 as [(s31 & cs31 & Hc & s32 & cs32 & Hd3 & s33 & cs33 & Hd4 & -> & ->)
                   |[-> ->]].
    - apply matches_colon in Hc as (-> & ->).
      apply matches_digit in Hd3 as (-> & d3 & -> & Hd3).
      apply matches_digit in Hd4 as (-> & d4 & -> & Hd4).
      split; [done|].
      exists (String ":" (String d3 (String d4 EmptyString))), (parse_digits 0 (String d3 (String d4 EmptyString))).
      split; [done|]. right. exists (String d3 (String d4 EmptyString)).
      repeat split. simpl. by rewrite Hd3, Hd4.
    - split; [done|]. exists EmptyString, 0%Z. split; [done|]. by left. }
  assert (cs2 = cs
          /\ exists hd, String d1 s1 = String.append hd
                          (String.append md (String.append W (String.append ap s5)))
               /\ 1 <= String.length hd <= 2 /\ all_digits hd = true)
    as (-> & hd & Hs & Hlen & Hhd).
  { destruct H2 as [H2|[-> ->]].
    - apply matches_digit in H2 as (-> & d2 & -> & Hd2). split; [done|].
      exists (String d1 (String d2 EmptyString)). split; [done|]. split; [simpl; lia|].
      simpl. by rewrite Hd1, Hd2.
    - split; [done|]. exists (String d1 EmptyString). split; [done|]. split; [simpl; lia|].
      simpl. by rewrite Hd1. }
  split; [done|].
  exists (String.append hd (String.append md (String.append W ap))), (parse_digits 0 hd), m, pm.
  split.
  - rewrite Hs. by rewrite <- !append_assoc.
  - exists hd, md, W, ap. eauto 10.
Qed.

(** The two captures of the range pattern are times of day. *)
Lemma timeMatch_shape (dash : re) (timeContent t1 t2 : string) :
  groupless dash = true ->
  timeMatch dash timeContent = Some (t1, t2) ->
  (exists h m pm, clock_text t1 h m pm) /\ (exists h m pm, clock_text t2 h m pm).
Proof.
  intros Hdash. unfold timeMatch.
  destruct (search (re_range dash) timeContent) as [tm|] eqn:Hs; [|done].
  simpl. intros [= <- <-].
  apply search_sound in Hs as [s0 Hs]. apply match_here_sound in Hs as [Hm _].
  revert Hm. generalize (rest tm) as s'. unfold group. generalize (groups tm) as cs'.
  intros cs' s'. unfold re_range. cbn [cat foldr matches].
  intros (s1 & cs1 & (cs1' & Hc1 & ->) & s2 & cs2 & Hw1 & s3 & cs3 & Hd & s4 & cs4 & Hw2
          & s5 & cs5 & (cs5' & Hc2 & ->) & -> & ->).
  apply clock_shape in Hc1 as (-> & t1 & h1 & m1 & pm1 & -> & Ht1).
  apply steps_ws in Hw1 as (-> & _).
  apply steps_ws in Hw2 as (-> & _).
  apply clock_shape in Hc2 as (-> & t2 & h2 & m2 & pm2 & -> & Ht2).
  assert (cs3 = [(1, take (String.length (String.append t1 s1) - String.length s1)
                       (String.append t1 s1))]) as ->.
  { apply (groupless_captures (one_of [LitI "&ndash;"; dash; Lit "-"])) in Hd; [done|].
    simpl. by rewrite Hdash. }
  cbn [capture Nat.eqb default from_option id]. rewrite !take_append. eauto 8.
Qed.

(** *** What [trim] and the upper-casing of the period do to a time of day *)

Lemma all_bytes_append (p : ascii -> bool) (a b : string) :
  all_bytes p (String.append a b) = all_bytes p a && all_bytes p b.
Proof.
  induction a as [|c a IH]; [done|]. rewrite append_cons. simpl. by rewrite IH, andb_assoc.
Qed.

Lemma all_bytes_impl (p q : ascii -> bool) (s : string) :
  (forall c, p c = true -> q c = true) -> all_bytes p s = true -> all_bytes q s = true.
Proof.
  intros Hpq. induction s as [|c s IH]; [done|]. simpl.
  intros [Hc Hs]%andb_prop. by rewrite (Hpq c Hc), IH.
Qed.

(** No white space character holds the last byte of a string that ends
    with a byte that is not [blank]. *)
Lemma char_before_end (c rest x : string) (b : ascii) :
  String.append c rest = String.append x (String b EmptyString) ->
  all_bytes blank c = true -> blank b = false ->
  exists x', rest = String.append x' (String b EmptyString).
Proof.
  revert x. induction c as [|c1 c IH]; intros x Heq Hc Hb.
  - exists x. by rewrite append_empty in Heq.
  - rewrite append_cons in Heq. cbn [all_bytes] in Hc. apply andb_prop in Hc as [Hc1 Hc].
    destruct x as [|x1 x].
    + rewrite append_empty in Heq. injection Heq as -> _. congruence.
    + rewrite append_cons in Heq. injection Heq as _ Heq. by apply IH with x.
Qed.

Lemma trim_start_keeps_end (fuel : nat) : forall (x : string) (b : ascii),
  blank b = false -> trim_start_fuel fuel (String.append x (String b EmptyString)) <> EmptyString.
Proof.
  induction fuel as [|fuel IH]; intros x b Hb; cbn [trim_start_fuel].
  - by destruct x.
  - destruct (ws_len (String.append x (String b EmptyString))) as [|n] eqn:Hn;
      [by destruct x|].
    destruct (ws_len_char (String.append x (String b EmptyString))) as (c & rest & Hs & Hl & Hc & _);
      [by rewrite Hn|].
    rewrite Hn in Hl. rewrite Hs, <- Hl, drop_append.
    destruct (char_before_end c rest x b) as [x' ->]; [done|done|done|]. by apply IH.
Qed.

Lemma trimEnd_keeps_end (x : string) (b : ascii) :
  blank b = false ->
  trimEnd (String.append x (String b EmptyString)) = String.append x (String b EmptyString).
Proof.
  intros Hb. induction x as [|c x IH].
  - rewrite append_empty. cbn [trimEnd].
    pose proof (trim_start_keeps_end 1 EmptyString b Hb) as H. rewrite append_empty in H.
    apply String.eqb_neq in H. unfold trimStart. cbn [String.length]. by rewrite H.
  - rewrite append_cons. cbn [trimEnd].
    pose proof (trim_start_keeps_end
                  (String.length (String c (String.append x (String b EmptyString))))
                  (String c x) b Hb) as H.
    rewrite append_cons in H. apply String.eqb_neq in H. unfold trimStart.
    by rewrite H, IH.
Qed.

Lemma no_ws_at_digit (d : ascii) (s : string) : blank d = false -> ws_len (String d s) = 0.
Proof.
  intros Hd. destruct (Nat.eq_dec (ws_len (String d s)) 0) as [H|H]; [done|].
  destruct (ws_len_char _ H) as (c & rest & Hs & Hl & Hc & _).
  destruct c as [|c1 c]; [cbn [String.length] in Hl; congruence|].
  rewrite append_cons in Hs. injection Hs as Hd' _. subst c1. cbn [all_bytes] in Hc.
  apply andb_prop in Hc as [Hc _]. congruence.
Qed.

Lemma trimStart_keeps (d : ascii) (s : string) :
  blank d = false -> trimStart (String d s) = String d s.
Proof. intros Hd. unfold trimStart. cbn [String.length trim_start_fuel]. by rewrite no_ws_at_digit. Qed.

Lemma quiet_start (c : ascii) (y : string) :
  quiet c = true ->
  starts_with_i "am" (String c y) = false /\ starts_with_i "pm" (String c y) = false.
Proof.
  unfold quiet. intros [Ha Hp]%andb_prop.
  apply negb_true_iff in Ha, Hp. rewrite Ascii.eqb_sym in Ha. rewrite Ascii.eqb_sym in Hp.
  split.
  - change (Ascii.eqb "a" (lower_char c) && starts_with "m" (toLowerCase (take 1 y)) = false).
    by rewrite Ha.
  - change (Ascii.eqb "p" (lower_char c) && starts_with "m" (toLowerCase (take 1 y)) = false).
    by rewrite Hp.
Qed.

Lemma upper_quiet (X : string) : forall (x : string) (fuel : nat),
  all_bytes quiet X = true ->
  upper_ampm_fuel (String.length X + fuel) (String.append X x)
  = String.append X (upper_ampm_fuel fuel x).
Proof.
  induction X as [|c X IH]; intros x fuel HX; [done|].
  cbn [all_bytes] in HX. apply andb_prop in HX as [Hc HX].
  rewrite !append_cons. cbn [String.length Nat.add upper_ampm_fuel].
  destruct (quiet_start c (String.append X x) Hc) as [-> ->]. cbn [orb].
  by rewrite IH.
Qed.

Lemma byte_upper (c : ascii) :
  (lower_char c = "a"%char -> upper_char c = "A"%char)
  /\ (lower_char c = "p"%char -> upper_char c = "P"%char)
  /\ (lower_char c = "m"%char -> upper_char c = "M"%char).
Proof. each_byte c; repeat split; intros H; try discriminate H; reflexivity. Qed.

Lemma period_upper (ap : string) (pm : bool) :
  String.length ap = 2 -> toLowerCase ap = (if pm then "pm" else "am") ->
  upper_ampm_fuel 2 ap = (if pm then "PM" else "AM")
  /\ exists a b, ap = String a (String b EmptyString) /\ blank b = false.
Proof.
  destruct ap as [|a [|b [|]]]; try done. intros _ H.
  unfold toLowerCase in H. cbn [map_string] in H.
  assert (lower_char a = (if pm then "p"%char else "a"%char) /\ lower_char b = "m"%char)
    as [Ha Hb] by (destruct pm; injection H as Ha Hb; eauto).
  split; [|exists a, b; split; [done|]].
  - change (upper_ampm_fuel 2 (String a (String b EmptyString)))
      with (if Ascii.eqb "a" (lower_char a) && (Ascii.eqb "m" (lower_char b) && true)
               || Ascii.eqb "p" (lower_char a) && (Ascii.eqb "m" (lower_char b) && true)
            then String (upper_char a) (String (upper_char b) EmptyString)
            else String a (if Ascii.eqb "a" (lower_char b) && false
                              || Ascii.eqb "p" (lower_char b) && false
                           then String (upper_char b) EmptyString
                           else String b EmptyString)).
    destruct (byte_upper a) as (Ua & Up & _). destruct (byte_upper b) as (_ & _ & Um).
    rewrite (Um Hb), Hb. destruct pm; rewrite Ha; [by rewrite (Up Ha)|by rewrite (Ua Ha)].
  - apply (period_byte b). right. right. by rewrite Hb.
Qed.

Lemma all_digits_bytes (s : string) : all_digits s = all_bytes is_digit s.
Proof. induction s as [|c s IH]; [done|]. simpl. by rewrite IH. Qed.

(** A time of day is left as it is by [trim], and the upper-casing only
    touches its period. *)
Lemma clock_parts (hd md W ap : string) (pm : bool) :
  1 <= String.length hd <= 2 -> all_digits hd = true ->
  (md = EmptyString
   \/ exists mm, md = String ":" mm /\ String.length mm = 2 /\ all_digits mm = true) ->
  white_space W ->
  String.length ap = 2 -> toLowerCase ap = (if pm then "pm" else "am") ->
  let t := String.append hd (String.append md (String.append W ap)) in
  trim t = t
  /\ upper_ampm t
     = String.append hd (String.append md (String.append W (if pm then "PM" else "AM"))).
Proof.
  intros Hlen Hhd Hmd HW Hap Hpm t.
  destruct (period_upper ap pm Hap Hpm) as (Hup & a & b & -> & Hb).
  assert (all_bytes quiet (String.append hd (String.append md W)) = true) as Hq.
  { rewrite !all_bytes_append. apply andb_true_intro. split; [|apply andb_true_intro; split].
    - rewrite all_digits_bytes in Hhd.
      eapply all_bytes_impl; [|exact Hhd]. intros c Hc. by apply digit_byte.
    - destruct Hmd as [->|(mm & -> & _ & Hmm)]; [done|]. cbn [all_bytes].
      rewrite all_digits_bytes in Hmm.
      apply andb_true_intro. split; [reflexivity|].
      eapply all_bytes_impl; [|exact Hmm]. intros c Hc. by apply digit_byte.
    - eapply all_bytes_impl; [|by apply white_space_blank]. intros c Hc. by apply blank_byte. }
  split.
  - unfold trim.
    assert (exists d s, t = String d s /\ blank d = false) as (d & s & Ht & Hd).
    { subst t. destruct hd as [|d hd]; [simpl in Hlen; lia|]. rewrite append_cons.
      simpl in Hhd. apply andb_prop in Hhd as [Hd _]. eexists _, _. split; [done|].
      by apply digit_byte. }
    rewrite Ht, trimStart_keeps by done. rewrite <- Ht. subst t.
    replace (String.append hd (String.append md (String.append W (String a (String b EmptyString)))))
      with (String.append (String.append hd (String.append md (String.append W (String a EmptyString))))
              (String b EmptyString))
      by (by rewrite <- !append_assoc).
    by apply trimEnd_keeps_end.
  - unfold upper_ampm. subst t.
    replace (String.append hd (String.append md (String.append W (String a (String b EmptyString)))))
      with (String.append (String.append hd (String.append md W)) (String a (String b EmptyString)))
      by (by rewrite <- !append_assoc).
    rewrite length_append. cbn [String.length].
    rewrite upper_quiet by done. rewrite Hup. by rewrite <- !append_assoc.
Qed.

(** *** [parseTimeToDecimal] on a time of day *)

Lemma search_here (r : re) (s : string) (f : found) :
  match_here r s = Some f -> search r s = Some f.
Proof. intros H. destruct s; simpl; by rewrite H. Qed.

Lemma m_digit_yes {A : Type} (d : ascii) (s : string) (cs : captures)
    (k : string -> captures -> option A) :
  is_digit d = true -> matcher digit (String d s) cs k = k s cs.
Proof. intros H. unfold digit. cbn [matcher]. by rewrite H. Qed.

Lemma m_digit_no {A : Type} (c : ascii) (s : string) (cs : captures)
    (k : string -> captures -> option A) :
  is_digit c = false -> matcher digit (String c s) cs k = None.
Proof. intros H. unfold digit. cbn [matcher]. by rewrite H. Qed.

Lemma m_colon_no {A : Type} (c : ascii) (s : string) (cs : captures)
    (k : string -> captures -> option A) :
  Ascii.eqb ":" c = false -> matcher (Lit ":") (String c s) cs k = None.
Proof.
  intros H. cbn [matcher].
  change (starts_with ":" (String c s)) with (Ascii.eqb ":" c && true). by rewrite H.
Qed.

Lemma m_opt {A : Type} (r : re) (s : string) (cs : captures)
    (k : string -> captures -> option A) :
  matcher (opt r) s cs k
  = match matcher r s cs k with
    | Some x => Some x
    | None => k s cs
    end.
Proof. reflexivity. Qed.

Lemma take_2 (a b : ascii) (s : string) :
  take (String.length (String a (String b s)) - String.length s) (String a (String b s))
  = String a (String b EmptyString).
Proof.
  cbn [String.length]. replace (S (S (String.length s)) - String.length s) with 2 by lia.
  reflexivity.
Qed.

Lemma take_1 (a : ascii) (s : string) :
  take (String.length (String a s) - String.length s) (String a s) = String a EmptyString.
Proof.
  cbn [String.length]. replace (S (String.length s) - String.length s) with 1 by lia.
  reflexivity.
Qed.

(** The period, after white space. *)
Lemma tail_match {A : Type} (W : string) (pm : bool) (cs : captures)
    (k : string -> captures -> option A) (a : A) :
  white_space W ->
  k EmptyString ((3, if pm then "PM" else "AM") :: cs) = Some a ->
  matcher (cat [Star Ws; Grp 3 (Alt (LitI "am") (LitI "pm"))])
    (String.append W (if pm then "PM" else "AM")) cs k = Some a.
Proof.
  intros HW Hk.
  change (matcher (Star Ws) (String.append W (if pm then "PM" else "AM")) cs
            (fun s' cs' => matcher (Seq (Grp 3 (Alt (LitI "am") (LitI "pm"))) Eps) s' cs' k)
          = Some a).
  apply star_ws_greedy; [done|by destruct pm|].
  destruct pm; cbn; by rewrite Hk.
Qed.

(** What follows the digits starts with a byte that is neither a digit nor
    the colon. *)
Lemma tail_head (W : string) (pm : bool) :
  white_space W ->
  exists c tail', String.append W (if pm then "PM" else "AM") = String c tail'
                  /\ Ascii.eqb ":" c = false /\ is_digit c = false.
Proof.
  intros HW. destruct HW as [|W Hn HW].
  - destruct pm; eexists _, _; repeat split; reflexivity.
  - pose proof (white_space_blank W (white_cons W Hn HW)) as Hb.
    destruct W as [|c W]; [done|]. cbn [all_bytes] in Hb.
    apply andb_prop in Hb as [Hc _]. rewrite append_cons. eexists _, _. split; [done|].
    split; by apply blank_byte.
Qed.

(** The minutes, if any, before that. *)
Lemma minutes_match {A : Type} (md W : string) (pm : bool) (cs : captures)
    (k : string -> captures -> option A) (a : A) :
  white_space W ->
  (md = EmptyString /\ k EmptyString ((3, if pm then "PM" else "AM") :: cs) = Some a
   \/ exists d3 d4, md = String ":" (String d3 (String d4 EmptyString))
        /\ is_digit d3 = true /\ is_digit d4 = true
        /\ k EmptyString ((3, if pm then "PM" else "AM")
                          :: (2, String d3 (String d4 EmptyString)) :: cs) = Some a) ->
  matcher (cat [opt (Seq (Lit ":") (Grp 2 (Seq digit digit))); Star Ws;
                Grp 3 (Alt (LitI "am") (LitI "pm"))])
    (String.append md (String.append W (if pm then "PM" else "AM"))) cs k = Some a.
Proof.
  intros HW Hmd.
  set (tail := String.append W (if pm then "PM" else "AM")).
  set (rest := cat [Star Ws; Grp 3 (Alt (LitI "am") (LitI "pm"))]).
  change (match matcher (Seq (Lit ":") (Grp 2 (Seq digit digit)))
                  (String.append md tail) cs (fun s' cs' => matcher rest s' cs' k) with
          | Some x => Some x
          | None => matcher rest (String.append md tail) cs k
          end = Some a).
  destruct Hmd as [[-> Hk]|(d3 & d4 & -> & Hd3 & Hd4 & Hk)].
  - rewrite append_empty.
    destruct (tail_head W pm HW) as (c & tail' & Ht & Hc & _). fold tail in Ht.
    rewrite Ht. cbn [matcher]. fold (@matcher A).
    change (starts_with ":" (String c tail')) with (Ascii.eqb ":" c && true).
    rewrite Hc. cbn [andb]. rewrite <- Ht. by apply tail_match.
  - rewrite !append_cons, append_empty.
    change (matcher (Seq (Lit ":") (Grp 2 (Seq digit digit)))
              (String ":" (String d3 (String d4 tail))) cs
              (fun s' cs' => matcher rest s' cs' k))
      with (matcher digit (String d3 (String d4 tail)) cs
              (fun s1 cs1 => matcher digit s1 cs1
                 (fun s' cs' =>
                    matcher rest s'
                      ((2, take (String.length (String d3 (String d4 tail)) - String.length s')
                             (String d3 (String d4 tail))) :: cs') k))).
    rewrite m_digit_yes by done. rewrite m_digit_yes by done. rewrite take_2.
    unfold rest, tail. by rewrite (tail_match W pm _ k a HW Hk).
Qed.

(** The whole pattern on a time of day: the groups it captures. *)
Lemma re_time_match (hd md W : string) (pm : bool) :
  1 <= String.length hd <= 2 -> all_digits hd = true ->
  (md = EmptyString
   \/ exists mm, md = String ":" mm /\ String.length mm = 2 /\ all_digits mm = true) ->
  white_space W ->
  exists mt,
    search re_time
      (String.append hd (String.append md (String.append W (if pm then "PM" else "AM"))))
    = Some {| matched := mt;
              groups := (3, if pm then "PM" else "AM")
                        :: match md with
                           | EmptyString => []
                           | String _ mm => [(2, mm)]
                           end ++ [(1, hd)];
              rest := EmptyString |}.
Proof.
  intros Hlen Hhd Hmd HW.
  set (u := String.append hd (String.append md (String.append W (if pm then "PM" else "AM")))).
  exists (take (String.length u - 0) u). apply search_here. unfold match_here.
  set (k := fun (s' : string) (cs : captures) =>
              Some {| matched := take (String.length u - String.length s') u;
                      groups := cs; rest := s' |}).
  set (a := {| matched := take (String.length u - 0) u;
               groups := (3, if pm then "PM" else "AM")
                         :: match md with
                            | EmptyString => []
                            | String _ mm => [(2, mm)]
                            end ++ [(1, hd)];
               rest := EmptyString |}).
  set (REST := cat [opt (Seq (Lit ":") (Grp 2 (Seq digit digit))); Star Ws;
                    Grp 3 (Alt (LitI "am") (LitI "pm"))]).
  assert (forall cs,
            cs = [(1, hd)] ->
            matcher REST (String.append md (String.append W (if pm then "PM" else "AM")))
              cs k = Some a) as Hrest.
  { intros cs ->. apply minutes_match; [done|].
    destruct Hmd as [->|(mm & -> & Hl & Hmm)]; [by left|right].
    destruct mm as [|d3 [|d4 [|]]]; try done. cbn [all_digits] in Hmm.
    apply andb_prop in Hmm as [Hd3 Hmm]. apply andb_prop in Hmm as [Hd4 _].
    exists d3, d4. done. }
  destruct hd as [|d1 [|d2 [|]]]; cbn [String.length] in Hlen; try lia;
    cbn [all_digits] in Hhd.
  - (* one digit *)
    apply andb_prop in Hhd as [Hd1 _].
    assert (exists c tail', String.append md (String.append W (if pm then "PM" else "AM"))
                            = String c tail' /\ is_digit c = false) as (c & tail' & Ht & Hc).
    { destruct Hmd as [->|(mm & -> & _)].
      - rewrite append_empty. destruct (tail_head W pm HW) as (c & tail' & -> & _ & Hc). eauto.
      - rewrite append_cons. eexists _, _. split; reflexivity. }
    subst u. rewrite append_cons, append_empty in *.
    set (tail := String.append md (String.append W (if pm then "PM" else "AM"))) in *.
    assert (forall K : string -> captures -> option found, matcher digit tail [] K = None)
      as Hno by (intros K; rewrite Ht; by apply m_digit_no).
    change (matcher re_time (String d1 tail) [] k)
      with (matcher digit (String d1 tail) []
              (fun s1 cs1 => matcher (opt digit) s1 cs1 (fun s' cs' =>
                 matcher REST s'
                   ((1, take (String.length (String d1 tail) - String.length s')
                          (String d1 tail)) :: cs') k))).
    rewrite m_digit_yes by done. rewrite m_opt, Hno, take_1. by apply Hrest.
  - (* two digits *)
    apply andb_prop in Hhd as [Hd1 Hhd]. apply andb_prop in Hhd as [Hd2 _].
    subst u. rewrite !append_cons, append_empty in *.
    set (tail := String.append md (String.append W (if pm then "PM" else "AM"))) in *.
    change (matcher re_time (String d1 (String d2 tail)) [] k)
      with (matcher digit (String d1 (String d2 tail)) []
              (fun s1 cs1 => matcher (opt digit) s1 cs1 (fun s' cs' =>
                 matcher REST s'
                   ((1, take (String.length (String d1 (String d2 tail)) - String.length s')
                          (String d1 (String d2 tail))) :: cs') k))).
    rewrite m_digit_yes by done. rewrite m_opt, m_digit_yes by done.
    rewrite take_2. by rewrite Hrest.
Qed.

Lemma decimal_zero (h m : Z) :
  (0 <= h)%Z -> (0 <= m)%Z ->
  Qeq_bool (decimal h m) 0 = (h =? 0)%Z && (m =? 0)%Z.
Proof.
  intros Hh Hm. unfold decimal.
  assert (Qeq_bool (Qred (inject_Z h + inject_Z m / 60)) 0
          = Qeq_bool (inject_Z h + inject_Z m / 60) 0) as ->.
  { apply eq_true_iff_eq. rewrite !Qeq_bool_iff. by rewrite Qred_correct. }
  apply eq_true_iff_eq. rewrite Qeq_bool_iff, andb_true_iff, !Z.eqb_eq.
  unfold Qeq, Qplus, Qdiv, Qmult, Qinv, inject_Z. simpl. lia.
Qed.

Lemma parse_digits_nonneg (s : string) : forall acc,
  all_digits s = true -> (0 <= acc)%Z -> (0 <= parse_digits acc s)%Z.
Proof.
  induction s as [|c s IH]; intros acc Hs Hacc; [done|]. simpl in *.
  apply andb_prop in Hs as [Hc Hs]. apply IH; [done|].
  unfold is_digit in Hc. apply andb_prop in Hc as [Hc _]. apply Nat.leb_le in Hc.
  unfold digit_value. lia.
Qed.

(** A time of day is read as [hour + minute / 60] on the 24-hour clock. *)
Lemma clock_text_parses (t : string) (h m : Z) (pm : bool) :
  clock_text t h m pm ->
  parseTimeToDecimal (upper_ampm (trim t)) = Some (decimal (fold12 h pm) m)
  /\ (0 <= h)%Z /\ (0 <= m)%Z.
Proof.
  intros (hd & md & W & ap & -> & Hlen & Hhd & -> & Hmd & HW & Hap & Hpm).
  assert (md = EmptyString
          \/ exists mm, md = String ":" mm /\ String.length mm = 2 /\ all_digits mm = true)
    as Hmd'.
  { destruct Hmd as [[-> _]|(mm & -> & ? & ? & _)]; eauto. }
  destruct (clock_parts hd md W ap pm Hlen Hhd Hmd' HW Hap Hpm) as [-> ->].
  destruct (re_time_match hd md W pm Hlen Hhd Hmd' HW) as [mt Hs].
  assert (0 <= parse_digits 0 hd)%Z as Hh by (by apply parse_digits_nonneg).
  assert (0 <= m)%Z as Hm.
  { destruct Hmd as [[_ ->]|(mm & _ & _ & Hmm & ->)]; [done|]. by apply parse_digits_nonneg. }
  split; [|done].
  unfold parseTimeToDecimal. rewrite Hs.
  assert (String.eqb (String.append hd (String.append md
                        (String.append W (if pm then "PM" else "AM")))) EmptyString
          || String.eqb (toLowerCase (String.append hd (String.append md
                           (String.append W (if pm then "PM" else "AM"))))) "closed"
          = false) as ->.
  { destruct hd as [|d1 hd]; [simpl in Hlen; lia|]. rewrite append_cons.
    cbn [all_digits] in Hhd. apply andb_prop in Hhd as [Hd1 _].
    destruct (digit_byte d1 Hd1) as (_ & _ & Hl & Hc & _).
    unfold toLowerCase. cbn [map_string String.eqb orb]. by rewrite Hl, Hc. }
  unfold group. cbn [groups capture Nat.eqb default from_option id].
  assert (match capture 2 (match md with
                           | EmptyString => []
                           | String _ mm => [(2, mm)]
                           end ++ [(1, hd)]) with
          | Some s => parse_digits 0 s
          | None => 0%Z
          end = m) as ->.
  { destruct Hmd as [[-> ->]|(mm & -> & _ & _ & ->)]; reflexivity. }
  assert (capture 1 (match md with
                     | EmptyString => []
                     | String _ mm => [(2, mm)]
                     end ++ [(1, hd)]) = Some hd) as ->
    by (by destruct md).
  cbn [default from_option id].
  f_equal. unfold fold12.
  destruct pm; cbn [toLowerCase map_string lower_char]; simpl String.eqb;
    destruct (parse_digits 0 hd =? 12)%Z eqn:H12; cbn [negb andb]; try reflexivity.
  all: by rewrite ?H12.
Qed.

End ClockTheory.

Module CalendarTheory.
Import JsString Calendar Range.
Local Open Scope list_scope.
Local Open Scope Z_scope.

(** Moving a day by whole cycles of 400 years. *)
Lemma civil_from_days_shift z k :
  civil_from_days (z + 146097 * k)
  = ((civil_from_days z).1.1 + 400 * k, (civil_from_days z).1.2, (civil_from_days z).2).
Proof.
  unfold civil_from_days. cbv zeta.
  replace (z + 146097 * k + 719468) with (z + 719468 + k * 146097) by lia.
  rewrite Z.div_add by lia.
  replace (z + 719468 + k * 146097 - ((z + 719468) / 146097 + k) * 146097)
    with (z + 719468 - (z + 719468) / 146097 * 146097) by lia.
  set (doe := z + 719468 - (z + 719468) / 146097 * 146097).
  simpl. f_equal. f_equal. lia.
Qed.

Lemma days_from_civil_shift y m d k :
  days_from_civil (y + 400 * k) m d = days_from_civil y m d + 146097 * k.
Proof.
  unfold days_from_civil. cbv zeta.
  replace ((if m <=? 2 then y + 400 * k - 1 else y + 400 * k))
    with ((if m <=? 2 then y - 1 else y) + k * 400) by (destruct (m <=? 2); lia).
  set (y' := if m <=? 2 then y - 1 else y).
  rewrite Z.div_add by lia.
  replace (y' + k * 400 - (y' / 400 + k) * 400) with (y' - y' / 400 * 400) by lia.
  lia.
Qed.

Lemma is_leap_shift y k : is_leap (y + 400 * k) = is_leap y.
Proof.
  unfold is_leap.
  replace ((y + 400 * k) mod 4) with (y mod 4) by (Z.div_mod_to_equations; lia).
  replace ((y + 400 * k) mod 100) with (y mod 100) by (Z.div_mod_to_equations; lia).
  replace ((y + 400 * k) mod 400) with (y mod 400) by (Z.div_mod_to_equations; lia).
  done.
Qed.

Lemma days_in_month_shift y m k : days_in_month (y + 400 * k) m = days_in_month y m.
Proof. unfold days_in_month. by rewrite is_leap_shift. Qed.

Lemma forall_range_spec f lo n :
  forall_range f lo n = true -> forall z, lo <= z < lo + Z.of_nat n -> f z = true.
Proof.
  revert lo. induction n as [|n IH]; intros lo H z Hz; [lia|].
  simpl in H. destruct (f lo) eqn:Hlo; [|done].
  destruct (decide (z = lo)) as [->|Hne]; [done|].
  apply (IH (lo + 1)); [done|lia].
Qed.

(** The days of one cycle of 400 years, checked one by one. *)
Lemma civil_from_days_cycle :
  forall_range (fun z =>
    let '(y, m, d) := civil_from_days z in
    (1 <=? m) && (m <=? 12) && (1 <=? d) && (d <=? days_in_month y m)
    && (days_from_civil y m d =? z)) (- 719468) (Z.to_nat 146097) = true.
Proof. vm_compute. reflexivity. Qed.

(** [civil_from_days] gives a date of the calendar, and [days_from_civil]
    takes it back to the day. *)
Lemma civil_from_days_valid z :
  1 <= (civil_from_days z).1.2 <= 12
  /\ 1 <= (civil_from_days z).2 <= days_in_month (civil_from_days z).1.1 (civil_from_days z).1.2
  /\ days_from_civil (civil_from_days z).1.1 (civil_from_days z).1.2 (civil_from_days z).2 = z.
Proof.
  set (k := (z + 719468) / 146097).
  set (n := (z + 719468) mod 146097).
  assert (0 <= n < 146097) as Hn by (apply Z.mod_pos_bound; lia).
  assert (z = (n - 719468) + 146097 * k) as Hz.
  { unfold n, k. pose proof (Z.div_mod (z + 719468) 146097). lia. }
  pose proof (forall_range_spec _ _ _ civil_from_days_cycle (n - 719468)) as Hin.
  cbv beta zeta in Hin. rewrite Z2Nat.id in Hin by lia.
  specialize (Hin ltac:(lia)).
  clearbody n k. subst z. rewrite civil_from_days_shift.
  destruct (civil_from_days (n - 719468)) as [[y m] d]. cbn [fst snd].
  rewrite days_in_month_shift, days_from_civil_shift.
  repeat (apply andb_prop in Hin as [Hin ?]).
  repeat match goal with
         | H : (_ <=? _) = true |- _ => apply Z.leb_le in H
         | H : (_ =? _) = true |- _ => apply Z.eqb_eq in H
         end.
  lia.
Qed.

Lemma days_in_month_le y m : days_in_month y m <= 31.
Proof.
  unfold days_in_month.
  destruct (m =? 2); [destruct (is_leap y); lia|].
  destruct ((m =? 4) || (m =? 6) || (m =? 9) || (m =? 11)); lia.
Qed.

(** The first and the last day of the years with four digits. *)
Lemma days_from_civil_years y m d :
  1 <= m <= 12 -> 1 <= d <= 31 ->
  (y <= 999 -> days_from_civil y m d < days_from_civil 1000 1 1)
  /\ (10000 <= y -> days_from_civil 9999 12 31 < days_from_civil y m d).
Proof.
  intros Hm Hd.
  change (days_from_civil 1000 1 1) with (-354285).
  change (days_from_civil 9999 12 31) with 2932896.
  unfold days_from_civil.
  split; intros Hy; destruct (Z.leb_spec m 2); Z.div_mod_to_equations; lia.
Qed.

Lemma year_range z :
  days_from_civil 1000 1 1 <= z <= days_from_civil 9999 12 31 ->
  1000 <= (civil_from_days z).1.1 <= 9999.
Proof.
  intros Hz. destruct (civil_from_days_valid z) as (Hm & Hd & Heq).
  pose proof (days_in_month_le (civil_from_days z).1.1 (civil_from_days z).1.2) as Hle.
  destruct (days_from_civil_years (civil_from_days z).1.1 (civil_from_days z).1.2
              (civil_from_days z).2) as [Hlo Hhi]; [lia|lia|].
  rewrite Heq in Hlo, Hhi. lia.
Qed.

(** The digits of a year and of a month or day. *)
Lemma show_year_cycle :
  forall_range (fun y =>
    match show y with
    | String a (String b (String c (String d EmptyString))) =>
        is_digit a && is_digit b && is_digit c && is_digit d
        && (parse_digits 0 (String a (String b (String c (String d EmptyString)))) =? y)
    | _ => false
    end) 1000 (Z.to_nat 9000) = true.
Proof. vm_compute. reflexivity. Qed.

Lemma pad2_cycle :
  forall_range (fun n =>
    match pad2 n with
    | String a (String b EmptyString) =>
        is_digit a && is_digit b && (parse_digits 0 (String a (String b EmptyString)) =? n)
    | _ => false
    end) 0 (Z.to_nat 100) = true.
Proof. vm_compute. reflexivity. Qed.

Lemma show_year y :
  1000 <= y <= 9999 ->
  exists a b c d,
    show y = String a (String b (String c (String d EmptyString)))
    /\ is_digit a = true /\ is_digit b = true /\ is_digit c = true /\ is_digit d = true
    /\ parse_digits 0 (String a (String b (String c (String d EmptyString)))) = y.
Proof.
  intros Hy. pose proof (forall_range_spec _ _ _ show_year_cycle y ltac:(lia)) as H.
  cbv beta in H. destruct (show y) as [|a [|b [|c [|d [|]]]]]; try done.
  repeat (apply andb_prop in H as [H ?]).
  match goal with E : (_ =? _) = true |- _ => apply Z.eqb_eq in E end.
  exists a, b, c, d. repeat split;
    first [assumption|reflexivity|apply andb_true_intro; split; assumption].
Qed.

Lemma pad2_digits n :
  0 <= n <= 99 ->
  exists a b,
    pad2 n = String a (String b EmptyString)
    /\ is_digit a = true /\ is_digit b = true
    /\ parse_digits 0 (String a (String b EmptyString)) = n.
Proof.
  intros Hn. pose proof (forall_range_spec _ _ _ pad2_cycle n ltac:(lia)) as H.
  cbv beta in H. destruct (pad2 n) as [|a [|b [|]]]; try done.
  repeat (apply andb_prop in H as [H ?]).
  match goal with E : (_ =? _) = true |- _ => apply Z.eqb_eq in E end.
  exists a, b. repeat split;
    first [assumption|reflexivity|apply andb_true_intro; split; assumption].
Qed.

(** A date printed with a year of four digits reads back as its day. *)
Lemma parse_date_printed y m d :
  1000 <= y <= 9999 -> 1 <= m <= 12 -> 1 <= d <= days_in_month y m ->
  parse_date (String.append (show y) (String.append "-" (String.append (pad2 m)
                (String.append "-" (pad2 d)))))
  = Some (days_from_civil y m d).
Proof.
  intros Hy Hm Hd. pose proof (days_in_month_le y m) as Hle.
  destruct (show_year y Hy) as (a & b & c & e & -> & Ha & Hb & Hc & He & Hpy).
  destruct (pad2_digits m ltac:(lia)) as (m1 & m2 & -> & Hm1 & Hm2 & Hpm).
  destruct (pad2_digits d ltac:(lia)) as (d1 & d2 & -> & Hd1 & Hd2 & Hpd).
  unfold parse_date.
  cbv [String.append].
  cbn [String.length take drop all_digits Nat.eqb].
  rewrite Ha, Hb, Hc, He, Hm1, Hm2, Hd1, Hd2.
  cbn [andb String.eqb Ascii.eqb Bool.eqb].
  rewrite Hpy, Hpm, Hpd.
  destruct (Z.leb_spec 1 m); [|lia]. destruct (Z.leb_spec m 12); [|lia].
  destruct (Z.leb_spec 1 d); [|lia]. destruct (Z.leb_spec d (days_in_month y m)); [|lia].
  done.
Qed.

(** The date that [getMondayOfWeek] prints reads back as its day, and so
    does the one that [toISOString] prints, which is the same string. *)
Lemma parse_format_local z :
  days_from_civil 1000 1 1 <= z <= days_from_civil 9999 12 31 ->
  parse_date (format_local z) = Some z.
Proof.
  intros Hz. pose proof (year_range z Hz) as Hy.
  destruct (civil_from_days_valid z) as (Hm & Hd & Heq).
  unfold format_local. destruct (civil_from_days z) as [[y m] d]. cbn [fst snd] in *.
  rewrite parse_date_printed by done. by rewrite Heq.
Qed.

Lemma format_iso_local z :
  days_from_civil 1000 1 1 <= z <= days_from_civil 9999 12 31 ->
  format_iso z = format_local z.
Proof.
  intros Hz. pose proof (year_range z Hz) as Hy.
  unfold format_iso, format_local. destruct (civil_from_days z) as [[y m] d].
  cbn [fst snd] in *. unfold pad4.
  destruct (Z.ltb_spec y 10); [lia|]. destruct (Z.ltb_spec y 100); [lia|].
  destruct (Z.ltb_spec y 1000); [lia|]. done.
Qed.

End CalendarTheory.

Module HoursTheory.
Import JsString Regex Calendar Hours HoursTrace.
Local Open Scope list_scope.

(** *** Clock strings *)

Lemma same_hours_eq (a b : option Q) : same_hours a b = true -> a = b.
Proof.
  destruct a as [[n1 d1]|], b as [[n2 d2]|]; simpl; try done.
  intros [Hn Hd]%andb_true_iff. apply Z.eqb_eq in Hn. apply Pos.eqb_eq in Hd. by subst.
Qed.

Lemma all_clocks_parse :
  forallb (fun h => forallb (clock_parses h) (seq 0 100)) (seq 0 100) = true.
Proof. vm_compute. reflexivity. Qed.

(** Every clock string [H:MM] with [am] or [pm], in either case, is read as
    [hour + minute / 60] on the 24-hour clock. *)
Lemma parseTimeToDecimal_clock (h m : Z) (pm upper : bool) :
  (0 <= h < 100)%Z -> (0 <= m < 100)%Z ->
  parseTimeToDecimal (clock h m pm upper) = Some (decimal (fold12 h pm) m).
Proof.
  intros Hh Hm. pose proof all_clocks_parse as H.
  rewrite forallb_forall in H. specialize (H (Z.to_nat h)).
  rewrite forallb_forall in H. specialize (H ltac:(apply in_seq; lia) (Z.to_nat m)).
  specialize (H ltac:(apply in_seq; lia)). unfold clock_parses in H.
  rewrite !Z2Nat.id in H by lia.
  simpl in H. rewrite !andb_true_r in H.
  apply andb_true_iff in H as [[H1 H2]%andb_true_iff [H3 H4]%andb_true_iff].
  apply same_hours_eq. by destruct pm, upper.
Qed.

(** *** The day loop *)

Lemma midnight_is_24_nonzero (q : option Q) : midnight_is_24 q <> Some 0%Q.
Proof.
  destruct q as [q|]; simpl; [|done].
  destruct (Qeq_bool q 0) eqn:Hq; [done|].
  intros [= ->]. done.
Qed.

(** On a valid Monday the loop returns, whatever the cells hold; every entry
    it adds is the entry of one of the cells, and every cell has an entry
    under its date. *)
Lemma dayLoop_total (dash : re) (day : Z) (cells : list found) :
  forall (offset : Z) (hours : gmap string DayHours),
  exists hours',
    dayLoop dash (Some day) offset cells hours = Returned hours'
    /\ (forall d e, hours' !! d = Some e ->
          hours !! d = Some e \/ exists cell, In cell cells /\ e = parseCell dash (group 1 cell))
    /\ (forall d, is_Some (hours !! d) -> is_Some (hours' !! d))
    /\ (forall i cell, cells !! i = Some cell ->
          is_Some (hours' !! format_iso (day + (offset + Z.of_nat i)))).
Proof.
  induction cells as [|cell cells IH]; intros offset hours; simpl.
  - exists hours. repeat split; eauto. intros i cell. by rewrite lookup_nil.
  - destruct (IH (offset + 1)%Z
                (<[format_iso (day + offset) := parseCell dash (group 1 cell)]> hours))
      as (hours' & Hrun & Hfrom & Hkeep & Hall).
    exists hours'. split; [exact Hrun|]. split; [|split].
    + intros d e Hd. destruct (Hfrom d e Hd) as [Hin|(c & Hc & He)].
      * rewrite lookup_insert in Hin. case_decide.
        -- injection Hin as <-. right. exists cell. split; [by left|done].
        -- by left.
      * right. exists c. split; [by right|done].
    + intros d Hd. apply Hkeep. rewrite lookup_insert. case_decide; [eauto|done].
    + intros [|i] c Hc; simpl in Hc.
      * apply Hkeep. replace (offset + Z.of_nat 0)%Z with offset by lia.
        rewrite lookup_insert_eq. eauto.
      * replace (offset + Z.of_nat (S i))%Z with (offset + 1 + Z.of_nat i)%Z by lia.
        eapply Hall. exact Hc.
Qed.

(** Two days of the years 1000 to 9999 that print alike are the same day. *)
Lemma format_iso_inj (a b : Z) :
  (days_from_civil 1000 1 1 <= a <= days_from_civil 9999 12 31)%Z ->
  (days_from_civil 1000 1 1 <= b <= days_from_civil 9999 12 31)%Z ->
  format_iso a = format_iso b -> a = b.
Proof.
  intros Ha Hb Heq.
  pose proof (CalendarTheory.parse_format_local a Ha) as Pa.
  pose proof (CalendarTheory.parse_format_local b Hb) as Pb.
  rewrite <- CalendarTheory.format_iso_local in Pa, Pb by done.
  rewrite Heq in Pa. congruence.
Qed.

(** The day loop gives every cell its own date: the entry of the date
    [offset + i] days from Monday is that of cell [i], the other dates keep
    what they had, and no other date gets an entry. *)
Lemma dayLoop_cells (dash : re) (day : Z) (cells : list found) :
  forall (offset : Z) (hours : gmap string DayHours),
  (days_from_civil 1000 1 1 <= day + offset)%Z ->
  (day + offset + Z.of_nat (length cells) - 1 <= days_from_civil 9999 12 31)%Z ->
  exists hours',
    dayLoop dash (Some day) offset cells hours = Returned hours'
    /\ (forall i cell, cells !! i = Some cell ->
          hours' !! format_iso (day + offset + Z.of_nat i)
          = Some (parseCell dash (group 1 cell)))
    /\ (forall d, (forall i, (i < length cells)%nat ->
                     d <> format_iso (day + offset + Z.of_nat i)) ->
          hours' !! d = hours !! d)
    /\ (forall d, is_Some (hours' !! d) ->
          is_Some (hours !! d)
          \/ exists i, (i < length cells)%nat /\ d = format_iso (day + offset + Z.of_nat i)).
Proof.
  induction cells as [|cell cells IH]; intros offset hours Hlo Hhi; cbn [dayLoop].
  - exists hours. split; [done|]. split; [intros i c; by rewrite lookup_nil|].
    split; [done|]. intros d Hd. by left.
  - cbn [length] in Hhi.
    destruct (IH (offset + 1)%Z
                (<[format_iso (day + offset) := parseCell dash (group 1 cell)]> hours))
      as (hours' & Hrun & Hcell & Hother & Hkeys); [lia|lia|].
    exists hours'. split; [exact Hrun|]. split; [|split].
    + intros [|i] c Hc; cbn in Hc.
      * injection Hc as <-. replace (day + offset + Z.of_nat 0)%Z with (day + offset)%Z by lia.
        rewrite Hother; [apply lookup_insert_eq|].
        intros i Hi Heq. apply format_iso_inj in Heq; lia.
      * replace (day + offset + Z.of_nat (S i))%Z with (day + (offset + 1) + Z.of_nat i)%Z
          by lia.
        by apply Hcell.
    + intros d Hd. rewrite Hother.
      * apply lookup_insert_ne. intros Heq. apply (Hd 0%nat); [cbn; lia|].
        rewrite <- Heq. f_equal. lia.
      * intros i Hi Heq. apply (Hd (S i)); [cbn; lia|]. rewrite Heq. f_equal. lia.
    + intros d Hd. destruct (Hkeys d Hd) as [Hin|(i & Hi & ->)].
      * rewrite lookup_insert in Hin. case_decide as Heq; [|by left].
        right. exists 0%nat. split; [cbn; lia|]. rewrite <- Heq. f_equal. lia.
      * right. exists (S i). split; [cbn; lia|]. f_equal. lia.
Qed.

(** The row that was found is read cell by cell: day [i] of the week, from
    Monday on, gets the entry of the [i]-th cell after the label, for the
    seven cells that follow the label or as many as there are. *)
Lemma parseRowHours_cells (dash : re) (html rowName mondayDate : string) (monday : Z)
    (targetRow : string) :
  parse_date mondayDate = Some monday ->
  (days_from_civil 1000 1 1 <= monday)%Z ->
  (monday + 6 <= days_from_civil 9999 12 31)%Z ->
  findTargetRow rowName (matchAll re_tr html) = Some targetRow ->
  let cells := List.firstn 7 (List.skipn 1 (matchAll re_td targetRow)) in
  exists hours,
    parseRowHours dash html rowName mondayDate = Returned (Some hours)
    /\ (forall i cell, cells !! i = Some cell ->
          hours !! format_iso (monday + Z.of_nat i) = Some (parseCell dash (group 1 cell)))
    /\ (forall d, is_Some (hours !! d) ->
          exists i, (i < length cells)%nat /\ d = format_iso (monday + Z.of_nat i)).
Proof.
  intros Hday Hlo Hhi Hrow cells. unfold parseRowHours. rewrite Hrow, Hday. fold cells.
  assert (length cells <= 7)%nat as Hlen by apply firstn_le_length.
  destruct (dayLoop_cells dash monday cells 0 ∅) as (hours & -> & Hcell & _ & Hkeys);
    [lia|lia|].
  exists hours. split; [done|]. split.
  - intros i cell Hc. rewrite <- (Hcell i cell Hc). f_equal. f_equal. lia.
  - intros d Hd. destruct (Hkeys d Hd) as [Hin|(i & Hi & ->)].
    + rewrite lookup_empty in Hin. by destruct Hin.
    + exists i. split; [done|]. f_equal. lia.
Qed.

Lemma fold12_nonneg (h : Z) (pm : bool) : (0 <= h)%Z -> (0 <= fold12 h pm)%Z.
Proof. intros H. unfold fold12. destruct pm, (h =? 12)%Z; lia. Qed.

(** C7, amended.  Every cell is classified by itself, in this order: a
    closed-state marker gives the closed day; else a [24 hour] label in the
    text span gives open 0, close 24 with the note in parentheses, if any;
    else a range recognized in the time span gives its two times of day read
    as decimal hours, a close of exactly 0 turned into 24; else a time span
    with no range in it gives open 0, close 24 labeled [24 Hours]; else the
    cell gives open 0, close 24 labeled [Unknown].  The two times that the
    range pattern captures are each an hour in one or two digits, maybe a
    colon and a minute in two digits, maybe white space, and [am] or [pm] in
    either case; such a time is read as [hour + minute / 60], where [pm] and
    hour not 12 adds 12 and [am] and hour 12 is hour 0.  On a valid Monday
    the parse of a row never throws, and every entry of its result is the
    entry of one cell; for a Monday of the years 1000 to 9999, day [i] of the
    week gets the entry of the [i]-th cell after the label, for each of the
    seven cells that follow the label, or as many as the row has, and no
    other date gets an entry. *)
Theorem cell_classification (dash : re) (cellContent : string) :
  (includes "s-lc-closed" cellContent = true -> parseCell dash cellContent = closed_day)
  /\ (includes "s-lc-closed" cellContent = false ->
       forall txt, timetxt24 cellContent = Some txt ->
       parseCell dash cellContent = all_day "24 Hours" (parenthetical (trim txt)))
  /\ (includes "s-lc-closed" cellContent = false -> timetxt24 cellContent = None ->
       forall timeContent t1 t2,
       timeSpanMatch cellContent = Some timeContent ->
       timeMatch dash timeContent = Some (t1, t2) ->
       parseCell dash cellContent
       = {| open := parseTimeToDecimal (upper_ampm (trim t1));
            close := match parseTimeToDecimal (upper_ampm (trim t2)) with
                     | Some q => Some (if Qeq_bool q 0 then 24%Q else q)
                     | None => None
                     end;
            closed := false;
            openStr := upper_ampm (trim t1); closeStr := upper_ampm (trim t2);
            note := None |}
       /\ close (parseCell dash cellContent) <> Some 0%Q
       /\ (groupless dash = true ->
           exists h1 m1 pm1 h2 m2 pm2,
             clock_text t1 h1 m1 pm1 /\ clock_text t2 h2 m2 pm2
             /\ open (parseCell dash cellContent) = Some (decimal (fold12 h1 pm1) m1)
             /\ close (parseCell dash cellContent)
                = Some (if (fold12 h2 pm2 =? 0)%Z && (m2 =? 0)%Z then 24%Q
                        else decimal (fold12 h2 pm2) m2)))
  /\ (includes "s-lc-closed" cellContent = false -> timetxt24 cellContent = None ->
       forall timeContent,
       timeSpanMatch cellContent = Some timeContent ->
       timeMatch dash timeContent = None ->
       parseCell dash cellContent = all_day "24 Hours" None)
  /\ (includes "s-lc-closed" cellContent = false -> timetxt24 cellContent = None ->
       timeSpanMatch cellContent = None ->
       parseCell dash cellContent = all_day "Unknown" None)
  /\ (forall (h m : Z) (pm upper : bool),
       (0 <= h < 100)%Z -> (0 <= m < 100)%Z ->
       parseTimeToDecimal (clock h m pm upper) = Some (decimal (fold12 h pm) m))
  /\ (forall (html rowName mondayDate : string) (day : Z),
       parse_date mondayDate = Some day ->
       exists r, parseRowHours dash html rowName mondayDate = Returned r
         /\ forall hours d e, r = Some hours -> hours !! d = Some e ->
              exists cell, e = parseCell dash cell)
  /\ (forall (html rowName mondayDate : string) (monday : Z) (targetRow : string),
       parse_date mondayDate = Some monday ->
       (days_from_civil 1000 1 1 <= monday)%Z ->
       (monday + 6 <= days_from_civil 9999 12 31)%Z ->
       findTargetRow rowName (matchAll re_tr html) = Some targetRow ->
       let cells := List.firstn 7 (List.skipn 1 (matchAll re_td targetRow)) in
       exists hours,
         parseRowHours dash html rowName mondayDate = Returned (Some hours)
         /\ (forall i cell, cells !! i = Some cell ->
               hours !! format_iso (monday + Z.of_nat i)
               = Some (parseCell dash (group 1 cell)))
         /\ (forall d, is_Some (hours !! d) ->
               exists i, (i < length cells)%nat /\ d = format_iso (monday + Z.of_nat i))).
Proof.
  split; [by unfold parseCell; intros ->|].
  split; [by unfold parseCell; intros -> txt ->|].
  split; [|split; [|split; [|split; [|split]]]].
  - intros Hc Ht timeContent t1 t2 Hspan Hm.
    assert (parseCell dash cellContent
            = {| open := parseTimeToDecimal (upper_ampm (trim t1));
                 close := match parseTimeToDecimal (upper_ampm (trim t2)) with
                          | Some q => Some (if Qeq_bool q 0 then 24%Q else q)
                          | None => None
                          end;
                 closed := false;
                 openStr := upper_ampm (trim t1); closeStr := upper_ampm (trim t2);
                 note := None |}) as Hcell.
    { unfold parseCell. rewrite Hc, Ht, Hspan, Hm. cbv zeta. unfold midnight_is_24.
      destruct (parseTimeToDecimal (upper_ampm (trim t2))) as [q|]; [|done].
      by destruct (Qeq_bool q 0). }
    split; [exact Hcell|]. rewrite Hcell. cbn [open close]. split.
    + destruct (parseTimeToDecimal (upper_ampm (trim t2))) as [q|]; [|done].
      destruct (Qeq_bool q 0) eqn:Hq; [done|]. intros [= ->]. done.
    + intros Hdash.
      destruct (ClockTheory.timeMatch_shape dash timeContent t1 t2 Hdash Hm)
        as [(h1 & m1 & pm1 & H1) (h2 & m2 & pm2 & H2)].
      exists h1, m1, pm1, h2, m2, pm2. split; [done|]. split; [done|].
      destruct (ClockTheory.clock_text_parses _ _ _ _ H1) as (-> & _ & _).
      destruct (ClockTheory.clock_text_parses _ _ _ _ H2) as (-> & Hh2 & Hm2).
      split; [done|].
      by rewrite ClockTheory.decimal_zero by (by try apply fold12_nonneg).
  - unfold parseCell. by intros -> -> timeContent -> ->.
  - unfold parseCell. by intros -> -> ->.
  - apply parseTimeToDecimal_clock.
  - intros html rowName mondayDate day Hday. unfold parseRowHours. rewrite Hday.
    destruct (findTargetRow rowName (matchAll re_tr html)) as [targetRow|].
    + destruct (dayLoop_total dash day
                  (List.firstn 7 (List.skipn 1 (matchAll re_td targetRow))) 0 ∅)
        as (hours & -> & Hfrom & _).
      eexists. split; [reflexivity|]. intros hours' d e [= <-] Hd.
      destruct (Hfrom d e Hd) as [Hin|(cell & _ & ->)]; [by rewrite lookup_empty in Hin|].
      eauto.
    + eexists. split; [reflexivity|]. by intros hours d e.
  - intros html rowName mondayDate monday targetRow. apply parseRowHours_cells.
Qed.

(** C7, the claim as stated fails: a cell whose time span holds no range is
    not closed, has no [24 hour] label and no recognizable range, and yet is
    not labeled [Unknown] but [24 Hours]. *)
Lemma time_span_without_range_is_labelled_24_hours :
  let cell := td (span "s-lc-time" "By appointment") in
  includes "s-lc-closed" cell = false
  /\ timetxt24 cell = None
  /\ timeSpanMatch cell = Some "By appointment"
  /\ timeMatch dash_index_js "By appointment" = None
  /\ timeMatch dash_part_000 "By appointment" = None
  /\ parseCell dash_index_js cell = all_day "24 Hours" None
  /\ parseCell dash_part_000 cell = all_day "24 Hours" None
  /\ all_day "24 Hours" None <> all_day "Unknown" None.
Proof. repeat split; try (vm_compute; reflexivity). discriminate. Qed.

(** The five kinds of cell, one of each; a range that ends at midnight; and
    a row with a label and eight cells, read for the week of Monday
    2026-01-19: the seven cells after the label give the seven days, the
    eighth gives none. *)
Lemma cell_classification_witness :
  let row :=
    String.append "<table><tr><td>FAES Library</td>"
      (String.append (td (span "s-lc-time" "8am - 12am"))
        (String.append (td (span "s-lc-closed" "Closed"))
          (String.append (td (span "s-lc-timetxt" "24 Hours"))
            (String.append (td (span "s-lc-time" "By appointment"))
              (String.append (td "see desk")
                (String.append (td (span "s-lc-time" "9:15 PM &ndash; 11pm"))
                  (String.append (td (span "s-lc-closed" "Closed"))
                    (String.append (td (span "s-lc-time" "1pm - 2pm"))
                      "</tr></table>")))))))) in
  let parsed := parseRowHours dash_part_000 row "FAES Library" "2026-01-19" in
  parseCell dash_part_000 (span "s-lc-closed" "Closed") = closed_day
  /\ parseCell dash_part_000 (span "s-lc-timetxt" "24 Hours (ID req'd after 12AM)")
     = all_day "24 Hours" (Some "ID req'd after 12AM")
  /\ parseCell dash_part_000 (span "s-lc-time" "8am - 12am")
     = {| open := Some 8%Q; close := Some 24%Q; closed := false;
          openStr := "8AM"; closeStr := "12AM"; note := None |}
  /\ (exists h1 m1 pm1 h2 m2 pm2,
        clock_text "8am" h1 m1 pm1 /\ clock_text "12am" h2 m2 pm2
        /\ open (parseCell dash_part_000 (span "s-lc-time" "8am - 12am"))
           = Some (decimal (fold12 h1 pm1) m1)
        /\ close (parseCell dash_part_000 (span "s-lc-time" "8am - 12am"))
           = Some (if (fold12 h2 pm2 =? 0)%Z && (m2 =? 0)%Z then 24%Q
                   else decimal (fold12 h2 pm2) m2))
  /\ parseCell dash_part_000 (span "s-lc-time" "By appointment") = all_day "24 Hours" None
  /\ parseCell dash_part_000 "see desk" = all_day "Unknown" None
  /\ parseTimeToDecimal (clock 7 30 false true) = Some (15 # 2)%Q
  /\ on_date parsed "2026-01-19"
     = Some {| open := Some 8%Q; close := Some 24%Q; closed := false;
               openStr := "8AM"; closeStr := "12AM"; note := None |}
  /\ on_date parsed "2026-01-24"
     = Some {| open := Some (85 # 4)%Q; close := Some 23%Q; closed := false;
               openStr := "9:15 PM"; closeStr := "11PM"; note := None |}
  /\ on_date parsed "2026-01-25" = Some closed_day
  /\ on_date parsed "2026-01-26" = None.
Proof.
  intros row parsed.
  pose proof (cell_classification dash_part_000 (span "s-lc-closed" "Closed")) as (H1 & _).
  pose proof (cell_classification dash_part_000
                (span "s-lc-timetxt" "24 Hours (ID req'd after 12AM)")) as (_ & H2 & _).
  pose proof (cell_classification dash_part_000 (span "s-lc-time" "8am - 12am"))
    as (_ & _ & H3 & _).
  pose proof (cell_classification dash_part_000 (span "s-lc-time" "By appointment"))
    as (_ & _ & _ & H4 & _).
  pose proof (cell_classification dash_part_000 "see desk")
    as (_ & _ & _ & _ & H5 & H6 & _ & H8).
  split; [apply H1; vm_compute; reflexivity|].
  split.
  { rewrite (H2 ltac:(vm_compute; reflexivity) "24 Hours (ID req'd after 12AM)"
               ltac:(vm_compute; reflexivity)).
    vm_compute. reflexivity. }
  destruct (H3 ltac:(vm_compute; reflexivity) ltac:(vm_compute; reflexivity)
               "8am - 12am" "8am" "12am"
               ltac:(vm_compute; reflexivity) ltac:(vm_compute; reflexivity))
    as (Hrange & _ & Hclock).
  split; [rewrite Hrange; vm_compute; reflexivity|].
  split; [exact (Hclock ltac:(reflexivity))|].
  split.
  { apply (H4 ltac:(vm_compute; reflexivity) ltac:(vm_compute; reflexivity)
              "By appointment"); vm_compute; reflexivity. }
  split; [apply H5; vm_compute; reflexivity|].
  split; [rewrite (H6 7%Z 30%Z false true) by lia; vm_compute; reflexivity|].
  assert (exists targetRow,
             findTargetRow "FAES Library" (matchAll re_tr row) = Some targetRow
             /\ exists c0 c5 c6,
                  List.firstn 7 (List.skipn 1 (matchAll re_td targetRow)) !! 0%nat = Some c0
                  /\ List.firstn 7 (List.skipn 1 (matchAll re_td targetRow)) !! 5%nat = Some c5
                  /\ List.firstn 7 (List.skipn 1 (matchAll re_td targetRow)) !! 6%nat = Some c6
                  /\ group 1 c0 = span "s-lc-time" "8am - 12am"
                  /\ group 1 c5 = span "s-lc-time" "9:15 PM &ndash; 11pm"
                  /\ group 1 c6 = span "s-lc-closed" "Closed"
                  /\ length (List.firstn 7 (List.skipn 1 (matchAll re_td targetRow))) = 7%nat)
    as (targetRow & Hrow & c0 & c5 & c6 & Hc0 & Hc5 & Hc6 & G0 & G5 & G6 & Hlen).
  { eexists. split; [vm_compute; reflexivity|]. eexists _, _, _.
    repeat split; vm_compute; reflexivity. }
  destruct (H8 row "FAES Library" "2026-01-19" 20472%Z targetRow
              ltac:(vm_compute; reflexivity) ltac:(vm_compute; discriminate)
              ltac:(vm_compute; discriminate) Hrow)
    as (hours & Hparsed & Hcells & Hkeys).
  subst parsed. rewrite Hparsed. cbn [on_date].
  change "2026-01-19" with (format_iso (20472 + Z.of_nat 0)).
  change "2026-01-24" with (format_iso (20472 + Z.of_nat 5)).
  change "2026-01-25" with (format_iso (20472 + Z.of_nat 6)).
  rewrite (Hcells _ _ Hc0), (Hcells _ _ Hc5), (Hcells _ _ Hc6), G0, G5, G6.
  split; [vm_compute; reflexivity|]. split; [vm_compute; reflexivity|].
  split; [vm_compute; reflexivity|].
  destruct (hours !! "2026-01-26") as [e|] eqn:He; [|done].
  destruct (Hkeys "2026-01-26" ltac:(eauto)) as (i & Hi & Heq). rewrite Hlen in Hi.
  exfalso. do 7 (destruct i as [|i]; [vm_compute in Heq; discriminate Heq|]). lia.
Defined.

(** C8, amended.  In a week grid with the row [FAES Library], read for the
    week of Monday 2026-01-19: the Monday cell whose time span holds the
    range 7:30am to 6:00pm gives open 7.5 and close 18 for that date (the
    dash written as the entity [&ndash;], in both copies of the server, or as
    the dash character itself, in the copy [unnamed/part_000]), the cell
    with the closed marker gives the closed day, and the cell whose text
    span holds [24 Hours (ID req'd after 12AM)] gives open 0, close 24 with
    that note.  The same holds in any table, for any row that is found and
    any of its seven cells after the label: the cell that holds such a span
    gives that entry for its day. *)
Theorem faes_row_examples :
  let range := {| open := Some (15 # 2)%Q; close := Some 18%Q; closed := false;
                  openStr := "7:30AM"; closeStr := "6:00PM"; note := None |} in
  let with_entity dash :=
    parseRowHours dash (faes_week "7:30am &ndash; 6:00pm") "FAES Library" "2026-01-19" in
  let with_dash :=
    parseRowHours dash_part_000 (faes_week "7:30am – 6:00pm") "FAES Library" "2026-01-19" in
  Forall (fun parsed =>
            on_date parsed "2026-01-19" = Some range
            /\ on_date parsed "2026-01-20" = Some closed_day
            /\ on_date parsed "2026-01-21"
               = Some (all_day "24 Hours" (Some "ID req'd after 12AM"))
            /\ on_date parsed "2026-01-22" = None)
         [with_entity dash_index_js; with_entity dash_part_000; with_dash]
  /\ open range = Some (decimal 7 30) /\ close range = Some (decimal 18 0)
  /\ (forall (dash : re) (html rowName mondayDate : string) (monday : Z)
             (targetRow : string) (i : nat) (cell : found),
        dash = dash_index_js \/ dash = dash_part_000 ->
        parse_date mondayDate = Some monday ->
        (days_from_civil 1000 1 1 <= monday)%Z ->
        (monday + 6 <= days_from_civil 9999 12 31)%Z ->
        findTargetRow rowName (matchAll re_tr html) = Some targetRow ->
        List.firstn 7 (List.skipn 1 (matchAll re_td targetRow)) !! i = Some cell ->
        let entry := on_date (parseRowHours dash html rowName mondayDate)
                       (format_iso (monday + Z.of_nat i)) in
        (group 1 cell = span "s-lc-time" "7:30am &ndash; 6:00pm" -> entry = Some range)
        /\ (group 1 cell = span "s-lc-closed" "Closed" -> entry = Some closed_day)
        /\ (group 1 cell = span "s-lc-timetxt" "24 Hours (ID req'd after 12AM)" ->
            entry = Some (all_day "24 Hours" (Some "ID req'd after 12AM")))
        /\ (dash = dash_part_000 -> group 1 cell = span "s-lc-time" "7:30am – 6:00pm" ->
            entry = Some range)).
Proof.
  split; [repeat constructor; vm_compute; reflexivity|].
  split; [reflexivity|]. split; [reflexivity|].
  intros dash html rowName mondayDate monday targetRow i cell Hdash Hday Hlo Hhi Hrow Hcell.
  destruct (parseRowHours_cells dash html rowName mondayDate monday targetRow
              Hday Hlo Hhi Hrow) as (hours & -> & Hcells & _).
  cbv zeta. cbn [on_date]. rewrite (Hcells i cell Hcell).
  split; [|split; [|split]].
  - intros ->. destruct Hdash as [-> | ->]; vm_compute; reflexivity.
  - intros ->. destruct Hdash as [-> | ->]; vm_compute; reflexivity.
  - intros ->. destruct Hdash as [-> | ->]; vm_compute; reflexivity.
  - intros -> ->. vm_compute. reflexivity.
Qed.

(** The week grid of the FAES Library, through the general statement. *)
Lemma faes_row_examples_witness :
  let range := {| open := Some (15 # 2)%Q; close := Some 18%Q; closed := false;
                  openStr := "7:30AM"; closeStr := "6:00PM"; note := None |} in
  let parsed := parseRowHours dash_index_js (faes_week "7:30am &ndash; 6:00pm")
                  "FAES Library" "2026-01-19" in
  on_date parsed "2026-01-19" = Some range
  /\ on_date parsed "2026-01-20" = Some closed_day
  /\ on_date parsed "2026-01-21" = Some (all_day "24 Hours" (Some "ID req'd after 12AM")).
Proof.
  intros range parsed.
  destruct faes_row_examples as (_ & _ & _ & H).
  assert (exists targetRow,
             findTargetRow "FAES Library"
               (matchAll re_tr (faes_week "7:30am &ndash; 6:00pm")) = Some targetRow
             /\ exists c0 c1 c2,
                  List.firstn 7 (List.skipn 1 (matchAll re_td targetRow)) !! 0%nat = Some c0
                  /\ List.firstn 7 (List.skipn 1 (matchAll re_td targetRow)) !! 1%nat = Some c1
                  /\ List.firstn 7 (List.skipn 1 (matchAll re_td targetRow)) !! 2%nat = Some c2
                  /\ group 1 c0 = span "s-lc-time" "7:30am &ndash; 6:00pm"
                  /\ group 1 c1 = span "s-lc-closed" "Closed"
                  /\ group 1 c2 = span "s-lc-timetxt" "24 Hours (ID req'd after 12AM)")
    as (targetRow & Hrow & c0 & c1 & c2 & Hc0 & Hc1 & Hc2 & G0 & G1 & G2).
  { eexists. split; [vm_compute; reflexivity|]. eexists _, _, _.
    repeat split; vm_compute; reflexivity. }
  assert (parse_date "2026-01-19" = Some 20472%Z) as Hday by (vm_compute; reflexivity).
  assert (days_from_civil 1000 1 1 <= 20472)%Z as Hlo by (vm_compute; discriminate).
  assert (20472 + 6 <= days_from_civil 9999 12 31)%Z as Hhi by (vm_compute; discriminate).
  destruct (H dash_index_js _ _ _ _ _ 0%nat c0 (or_introl eq_refl) Hday Hlo Hhi Hrow Hc0)
    as (H0 & _).
  destruct (H dash_index_js _ _ _ _ _ 1%nat c1 (or_introl eq_refl) Hday Hlo Hhi Hrow Hc1)
    as (_ & H1 & _).
  destruct (H dash_index_js _ _ _ _ _ 2%nat c2 (or_introl eq_refl) Hday Hlo Hhi Hrow Hc2)
    as (_ & _ & H2 & _).
  split; [exact (H0 G0)|]. split; [exact (H1 G1)|exact (H2 G2)].
Defined.

(** C8, the claim as stated fails: the row [FAES Library] with the three
    cell texts of the claim and no span of the hours widget around them.
    No cell is recognized: every day is open 0, close 24, labeled
    [Unknown], in both copies of the server. *)
Lemma cell_texts_without_spans_are_unknown :
  let week :=
    String.append "<table><tr><td>FAES Library</td>"
      (String.append (td "7:30am – 6:00pm")
        (String.append (td "Closed")
          (String.append (td "24 Hours (ID req'd after 12AM)") "</tr></table>"))) in
  let unknown := all_day "Unknown" None in
  Forall (fun parsed =>
            on_date parsed "2026-01-19" = Some unknown
            /\ on_date parsed "2026-01-20" = Some unknown
            /\ on_date parsed "2026-01-21" = Some unknown)
    [parseRowHours dash_index_js week "FAES Library" "2026-01-19";
     parseRowHours dash_part_000 week "FAES Library" "2026-01-19"]
  /\ unknown <> {| open := Some (15 # 2)%Q; close := Some 18%Q; closed := false;
                   openStr := "7:30AM"; closeStr := "6:00PM"; note := None |}
  /\ unknown <> closed_day
  /\ unknown <> all_day "24 Hours" (Some "ID req'd after 12AM").
Proof.
  split; [repeat constructor; vm_compute; reflexivity|].
  repeat split; discriminate.
Qed.

(** In [server/index.js] as it stands the dash of the range pattern is spelled
    with other characters, and a range written with the dash character
    itself is not recognized there. *)
Lemma dash_character_in_index_js :
  on_date (parseRowHours dash_index_js (faes_week "7:30am – 6:00pm") "FAES Library" "2026-01-19")
          "2026-01-19"
  = Some (all_day "24 Hours" None).
Proof. vm_compute. reflexivity. Qed.

(** *** The hours cache *)

Lemma hours_run_app dash st evs evs' :
  hours_run dash st (evs ++ evs') = hours_run dash (hours_run dash st evs) evs'.
Proof. unfold hours_run. by rewrite fold_left_app. Qed.

Lemma hours_clock_bound t0 evs :
  hours_clock_runs_forward t0 evs -> Forall (fun ev => (t0 <= hours_clock_of ev)%Z) evs.
Proof.
  revert t0. induction evs as [|ev evs IH]; intros t0; [constructor|].
  intros [H0 H]. constructor; [done|].
  eapply Forall_impl; [apply (IH _ H)|]. simpl. intros ev' Hev'. lia.
Qed.

(** A call leaves [hoursCache] alone, and the end of a request writes at
    most the entry of its own key, with the clock reading as time stamp. *)
Lemma hours_step_cache dash st ev k :
  hoursCache (hours_step dash st ev) !! k = hoursCache st !! k
  \/ exists i html t f result,
       ev = HSettle i html t /\ hf_cacheKey f = k
       /\ parseHours dash f html = Returned result
       /\ hoursCache (hours_step dash st ev) !! k
          = Some {| lastUpdated := t; data := result |}.
Proof.
  destruct ev as [c libraryId dateStr now|i html t]; simpl.
  - left. unfold fetchLibCalHours.
    destruct (LIBCAL_HOURS_CONFIG !! libraryId); [|done].
    by destruct (hoursFresh _ _).
  - unfold fetchLibCalHours_resume.
    destruct (suspended st !! i) as [f|]; [|by left].
    destruct (parseHours dash f html) as [result|m] eqn:Hres; [|by left]. simpl.
    destruct (decide (hf_cacheKey f = k)) as [<-|Hne].
    + right. exists i, html, t, f, result. by rewrite lookup_insert_eq.
    + left. by apply lookup_insert_ne.
Qed.

(** An entry stays in the cache: after any events, the key has the entry it
    had or the one that a later request for the key brought. *)
Lemma hours_entry_persists dash k e0 t0 evs : forall st,
  hoursCache st !! k = Some e0 ->
  (t0 <= lastUpdated e0)%Z ->
  Forall (fun ev => (t0 <= hours_clock_of ev)%Z) evs ->
  exists e, hoursCache (hours_run dash st evs) !! k = Some e
    /\ (t0 <= lastUpdated e)%Z
    /\ (e = e0
        \/ exists i html t f,
             In (HSettle i html t) evs /\ hf_cacheKey f = k
             /\ parseHours dash f html = Returned (data e) /\ lastUpdated e = t).
Proof.
  induction evs as [|ev evs IH] using rev_ind; intros st He0 Ht0 Hall.
  - exists e0. eauto.
  - apply Forall_app in Hall as [Hevs Hev]. apply Forall_inv in Hev.
    destruct (IH st He0 Ht0 Hevs) as (e & He & Hle & Hsrc).
    rewrite hours_run_app. simpl.
    destruct (hours_step_cache dash (hours_run dash st evs) ev k)
      as [->|(i & html & t & f & result & -> & Hk & Hres & ->)].
    + exists e. split; [done|]. split; [done|].
      destruct Hsrc as [->|(i & html & t & f & Hin & ?)]; [by left|].
      right. exists i, html, t, f. split; [|done]. apply in_or_app. by left.
    + eexists. split; [done|]. simpl in *. split; [done|].
      right. exists i, html, t, f. split; [|done]. apply in_or_app. right. by left.
Qed.

Lemma only_calls_no_settle evs i html t :
  Forall (fun ev => is_call ev = true) evs -> ~ In (HSettle i html t) evs.
Proof.
  intros Hall Hin. rewrite Forall_forall in Hall.
  by specialize (Hall _ ltac:(by apply list_elem_of_In)).
Qed.

(** C6, amended.  [fetchLibCalHours] has a cache of its own, [hoursCache],
    keyed by the library id and the Monday of the week, with a TTL of one
    hour.  When a request for a key has succeeded, the entry is written at
    that time, and a call for the key made less than one hour later asks
    nothing of the widget and returns the stored hours.  This holds whatever
    happens in between, as long as the clock does not go back: after any
    calls and ends of requests the key still has an entry, the one stored
    or the one that a later request for the key brought, and a call for the
    key less than one hour after the store sends no request, suspends
    nothing and returns the hours of that entry, the stored ones when only
    calls came in between.  There is no sharing of requests in flight: a
    call that finds no fresh entry sends its own request, in whatever
    state. *)
Theorem hours_cache_ttl (dash : re) (pre : list HoursEvent) (i : nat) (f : HoursFetch)
    (html : Outcome string) (result : gmap string DateHours) (now : Z) :
  let st := hours_run dash hours_init pre in
  suspended st !! i = Some f ->
  parseHours dash f html = Returned result ->
  now <> 0%Z ->
  let st1 := hours_step dash st (HSettle i html now) in
  HOURS_CACHE_TTL = 3600000%Z
  /\ hoursCache st1 !! hf_cacheKey f = Some {| lastUpdated := now; data := result |}
  /\ requested st1 = requested st
  /\ (forall c libraryId dateStr now',
        is_Some (LIBCAL_HOURS_CONFIG !! libraryId) ->
        hoursKey libraryId (getMondayOfWeek dateStr) = hf_cacheKey f ->
        (now' - now < HOURS_CACHE_TTL)%Z ->
        let st2 := hours_step dash st1 (HCall c libraryId dateStr now') in
        requested st2 = requested st1
        /\ suspended st2 = suspended st1
        /\ returned st2 = returned st1 ++ [(c, Some result)])
  /\ (forall (s : HoursState) c libraryId dateStr now' config,
        LIBCAL_HOURS_CONFIG !! libraryId = Some config ->
        hoursFresh (hoursCache s !! hoursKey libraryId (getMondayOfWeek dateStr)) now' = false ->
        requested (hours_step dash s (HCall c libraryId dateStr now'))
        = requested s ++ [hoursUrl config (getMondayOfWeek dateStr)])
  /\ ((0 < now)%Z ->
      forall evs : list HoursEvent,
        hours_clock_runs_forward now evs ->
        let st2 := hours_run dash st1 evs in
        exists e,
          hoursCache st2 !! hf_cacheKey f = Some e
          /\ (now <= lastUpdated e)%Z
          /\ (e = {| lastUpdated := now; data := result |}
              \/ exists i' html' t f',
                   In (HSettle i' html' t) evs /\ hf_cacheKey f' = hf_cacheKey f
                   /\ parseHours dash f' html' = Returned (data e) /\ lastUpdated e = t)
          /\ (Forall (fun ev => is_call ev = true) evs ->
              e = {| lastUpdated := now; data := result |})
          /\ forall c libraryId dateStr now',
               is_Some (LIBCAL_HOURS_CONFIG !! libraryId) ->
               hoursKey libraryId (getMondayOfWeek dateStr) = hf_cacheKey f ->
               (now' - now < HOURS_CACHE_TTL)%Z ->
               let st3 := hours_step dash st2 (HCall c libraryId dateStr now') in
               requested st3 = requested st2
               /\ suspended st3 = suspended st2
               /\ hoursCache st3 = hoursCache st2
               /\ next_fetch st3 = next_fetch st2
               /\ returned st3 = returned st2 ++ [(c, Some (data e))]).
Proof.
  intros st Hi Hres Hnow st1.
  assert (st1 = {| hoursCache := <[hf_cacheKey f := {| lastUpdated := now; data := result |}]>
                                   (hoursCache st);
                   suspended := delete i (suspended st); next_fetch := next_fetch st;
                   requested := requested st;
                   returned := returned st ++ [(hf_caller f, Some result)] |}) as Hst1.
  { subst st1. simpl. unfold fetchLibCalHours_resume. by rewrite Hi, Hres. }
  assert (hoursCache st1 !! hf_cacheKey f = Some {| lastUpdated := now; data := result |})
    as He by (rewrite Hst1; simpl; apply lookup_insert_eq).
  split; [reflexivity|]. split; [exact He|].
  split; [by rewrite Hst1|]. split; [|split].
  - intros c libraryId dateStr now' [config Hc] Hk Hlt st2. subst st2. simpl.
    unfold fetchLibCalHours. rewrite Hc, Hk.
    rewrite He. simpl.
    destruct (Z.eqb_spec now 0) as [|_]; [done|].
    destruct (Z.ltb_spec (now' - now) HOURS_CACHE_TTL) as [_|]; [|lia]. done.
  - intros s c libraryId dateStr now' config Hc Hf. simpl. unfold fetchLibCalHours.
    by rewrite Hc, Hf.
  - intros Hpos evs Hclock st2.
    destruct (hours_entry_persists dash (hf_cacheKey f) _ now evs st1 He
                ltac:(simpl; lia) (hours_clock_bound _ _ Hclock))
      as (e & He2 & Hle & Hsrc).
    fold st2 in He2. exists e. split; [done|]. split; [done|]. split; [done|]. split.
    + intros Hcalls. destruct Hsrc as [->|(i' & html' & t & f' & Hin & _)]; [done|].
      by apply only_calls_no_settle in Hin.
    + intros c libraryId dateStr now' [config Hc] Hk Hlt st3. subst st3. simpl.
      unfold fetchLibCalHours. rewrite Hc, Hk, He2. simpl.
      destruct (Z.eqb_spec (lastUpdated e) 0) as [|_]; [lia|].
      destruct (Z.ltb_spec (now' - lastUpdated e) HOURS_CACHE_TTL) as [_|]; [|lia]. done.
Qed.

(** C6, the claim as stated fails: two calls for the hours of the FAES
    Library in the same week, the second while the first request is still
    pending, send two requests for the same page. *)
Lemma concurrent_hours_requests_are_not_shared :
  let st := hours_run dash_part_000 hours_init
              [HCall 1 "faes" "2026-01-21" 1000; HCall 2 "faes" "2026-01-22" 1001] in
  requested st
    = ["https://osul.libcal.com/widget/hours/grid?iid=5296&lid=16298&date=2026-01-19";
       "https://osul.libcal.com/widget/hours/grid?iid=5296&lid=16298&date=2026-01-19"]
  /\ hf_cacheKey <$> suspended st !! 0 = Some "faes-2026-01-19"
  /\ hf_cacheKey <$> suspended st !! 1 = Some "faes-2026-01-19".
Proof. repeat split; vm_compute; reflexivity. Qed.

(** The hours of the FAES Library are fetched once and asked for again 59
    minutes and 59 seconds later, directly and after a call for another
    library came in between. *)
Lemma hours_cache_ttl_witness :
  let st1 := hours_run dash_part_000 hours_init
               [HCall 1 "faes" "2026-01-21" 1000;
                HSettle 0 (Returned (faes_week "7:30am &ndash; 6:00pm")) 5000] in
  let st2 := hours_step dash_part_000 st1 (HCall 2 "faes" "2026-01-23" 3604999) in
  let st2' := hours_run dash_part_000 st1 [HCall 3 "thompson" "2026-01-21" 6000] in
  let st3 := hours_step dash_part_000 st2' (HCall 4 "faes" "2026-01-23" 3604999) in
  requested st2 = requested st1 /\ suspended st2 = suspended st1
  /\ 0 < length (requested st2') - length (requested st1)
  /\ requested st3 = requested st2' /\ suspended st3 = suspended st2'
  /\ snd <$> last (returned st3) = snd <$> last (returned st2).
Proof.
  intros st1 st2 st2' st3.
  set (f := {| hf_caller := 1;
               hf_config := {| lid := 16298; buildingRowName := "FAES Library";
                               reservationRowName := "FAES Library" |};
               hf_mondayDate := "2026-01-19"; hf_cacheKey := "faes-2026-01-19" |}).
  assert (exists result,
            parseHours dash_part_000 f (Returned (faes_week "7:30am &ndash; 6:00pm"))
            = Returned result) as [result Hres].
  { eexists. vm_compute. reflexivity. }
  destruct (hours_cache_ttl dash_part_000 [HCall 1 "faes" "2026-01-21" 1000] 0 f
              (Returned (faes_week "7:30am &ndash; 6:00pm")) result 5000)
    as (_ & _ & _ & H & _ & Hlater); [vm_compute; reflexivity|exact Hres|discriminate|].
  destruct (H 2 "faes" "2026-01-23" 3604999%Z) as (H1 & H2 & H3).
  { eexists. vm_compute. reflexivity. }
  { vm_compute. reflexivity. }
  { vm_compute. reflexivity. }
  destruct (Hlater ltac:(lia) [HCall 3 "thompson" "2026-01-21" 6000])
    as (e & _ & _ & _ & Hcalls & Hhit).
  { simpl. lia. }
  destruct (Hhit 4 "faes" "2026-01-23" 3604999%Z) as (H4 & H5 & _ & _ & H6).
  { eexists. vm_compute. reflexivity. }
  { vm_compute. reflexivity. }
  { vm_compute. reflexivity. }
  rewrite (Hcalls ltac:(repeat constructor)) in H6. cbn [data] in H6.
  split; [exact H1|]. split; [exact H2|]. split; [vm_compute; lia|].
  split; [exact H4|]. split; [exact H5|].
  change (returned st2 = returned st1 ++ [(2, Some result)]) in H3.
  change (returned st3 = returned st2' ++ [(4, Some result)]) in H6.
  rewrite H3, H6, !last_snoc. reflexivity.
Defined.

End HoursTheory.

Module AdapterTheory.
Import JsString Regex Calendar Adapters.
Local Open Scope list_scope.

(** *** Failures of the adapters *)

(** [fetchOsuApi] returns in every world: a live facility, or the degraded
    one with no rooms and the message of the error. *)
Lemma fetchOsuApi_never_raises (library : Library) (dateStr : option string) (w : OsuNet) :
  exists f, fetchOsuApi library dateStr w = Returned f
    /\ ((isLive f = true /\ error f = None)
        \/ exists message, f = degraded library (osu_clock w) message).
Proof.
  unfold fetchOsuApi, try_catch, mbind, outcome_bind, bind.
  destruct (fetch w) as [response|m]; [|eauto].
  destruct (dynamicHours w) as [dyn|m]; [|eauto].
  destruct (ok response); simpl; [|eauto].
  destruct (json response) as [j|m]; [|eauto].
  destruct (String.eqb (api_status j) "success"); [|eauto].
  destruct (locationAvailableRooms j) as [[rooms|m]|]; eauto.
Qed.

(** So does [scrapeLibCal] as long as the browser starts and closes. *)
Lemma scrapeLibCal_contained (library : Library) (dateStr : option string) (w : Chrome) :
  launch w = Returned tt -> close w = Returned tt ->
  exists f, scrapeLibCal library dateStr w = Returned f
    /\ ((isLive f = true /\ error f = None)
        \/ exists message, f = degraded library (chrome_clock w) message).
Proof.
  intros Hl Hc. unfold scrapeLibCal. rewrite Hl, Hc.
  unfold try_finally, try_catch, mbind, outcome_bind, bind.
  destruct (import_puppeteer w); [|eauto].
  destruct (newPage w); [|eauto]. destruct (goto w); [|eauto].
  destruct (waitForSelector w); [|eauto]. destruct (document w) as [slots|]; [|eauto].
  destruct (evaluate dateStr (today w) slots); [|eauto].
  destruct (addMetadata library _); eauto.
Qed.

(** The call of [launch] stands before the [try]: its failure leaves
    [scrapeLibCal] as an exception. *)
Lemma scrapeLibCal_launch_raises (library : Library) (dateStr : option string) (w : Chrome)
    (message : string) :
  import_puppeteer w = Returned tt -> launch w = Raised message ->
  scrapeLibCal library dateStr w = Raised message.
Proof. intros Hi Hl. unfold scrapeLibCal. by rewrite Hi, Hl. Qed.

(** C2, where the code departs from it.  Puppeteer is installed and the
    browser does not start: [scrapeLibCal] for the Health Sciences Library
    throws the error of [launch] instead of returning a facility with no
    rooms and an [error]; the three OSU libraries are fetched without error in
    the same world, and still the round of fetches as a whole fails with that
    error. *)
Theorem browser_launch_failure_escapes :
  let dateStr := Some "2026-01-21" in
  scrapeLibCal library_hsl dateStr chrome_launch_fails
    = Raised "Failed to launch the browser process!"
  /\ Forall (fun library =>
       exists f, fetchLibrary dateStr world_launch_fails library = Returned f
                 /\ error f = None)
       [library_18th_ave; library_thompson; library_faes]
  /\ fetchAll dateStr world_launch_fails = Raised "Failed to launch the browser process!".
Proof.
  split; [reflexivity|]. split; [|reflexivity].
  repeat constructor; eexists; (split; [reflexivity|reflexivity]).
Qed.

End AdapterTheory.

Module SlotTheory.
Import JsString Regex Calendar Adapters.
Local Open Scope list_scope.

(** *** The object that holds the rooms *)

Section Objects.
Context {V : Type}.
Implicit Types (o : list (string * V)) (k : string) (v : V).

Lemma get_set_eq k v o : Obj.get k (Obj.set k v o) = Some v.
Proof.
  induction o as [|[k' v'] o IH]; simpl.
  - by rewrite String.eqb_refl.
  - destruct (String.eqb_spec k k'); simpl.
    + by rewrite String.eqb_refl.
    + destruct (String.eqb_spec k k'); [done|exact IH].
Qed.

Lemma get_set_ne k k' v o : k <> k' -> Obj.get k' (Obj.set k v o) = Obj.get k' o.
Proof.
  intros Hne. induction o as [|[k1 v1] o IH]; simpl.
  - destruct (String.eqb_spec k' k); [congruence|done].
  - destruct (String.eqb_spec k k1) as [->|]; simpl.
    + destruct (String.eqb_spec k' k1); [congruence|done].
    + destruct (String.eqb_spec k' k1); [done|exact IH].
Qed.

Lemma get_None k o : Obj.get k o = None <-> ~ In k (List.map fst o).
Proof.
  induction o as [|[k1 v1] o IH]; simpl; [tauto|].
  destruct (String.eqb_spec k k1) as [->|Hne].
  - split; [done|]. intros H. exfalso. apply H. by left.
  - rewrite IH. split; [intros H [?|?]; [congruence|tauto]|tauto].
Qed.

Lemma get_Some k v o : Obj.get k o = Some v -> In (k, v) o.
Proof.
  induction o as [|[k1 v1] o IH]; simpl; [done|].
  destruct (String.eqb_spec k k1) as [->|Hne].
  - intros [= ->]. by left.
  - intros H. right. by apply IH.
Qed.

Lemma keys_set k v o :
  List.map fst (Obj.set k v o)
  = match Obj.get k o with
    | Some _ => List.map fst o
    | None => List.map fst o ++ [k]
    end.
Proof.
  induction o as [|[k1 v1] o IH]; simpl; [done|].
  destruct (String.eqb_spec k k1) as [->|Hne]; simpl; [done|].
  rewrite IH. by destruct (Obj.get k o).
Qed.

Lemma NoDup_keys_set k v o :
  NoDup (List.map fst o) -> NoDup (List.map fst (Obj.set k v o)).
Proof.
  intros Hnd. rewrite keys_set. destruct (Obj.get k o) eqn:Hg; [done|].
  apply NoDup_app. split; [done|]. split; [|apply NoDup_singleton].
  intros x Hx ->%list_elem_of_singleton. apply get_None in Hg. apply Hg.
  by apply list_elem_of_In.
Qed.

Lemma filter_complement {A : Type} (f : A -> bool) (l : list A) :
  List.filter f l ++ List.filter (fun x => negb (f x)) l ≡ₚ l.
Proof.
  induction l as [|x l IH]; simpl; [done|].
  destruct (f x); simpl.
  - by constructor.
  - rewrite <- Permutation_middle. by constructor.
Qed.

Lemma filter_perm {A : Type} (f : A -> bool) (l l' : list A) :
  l ≡ₚ l' -> List.filter f l ≡ₚ List.filter f l'.
Proof.
  induction 1 as [|x l l' _ IH|x y l|l1 l2 l3 _ IH1 _ IH2]; simpl.
  - done.
  - destruct (f x); [by constructor|done].
  - destruct (f x), (f y); try done. apply perm_swap.
  - by etrans.
Qed.

Lemma insert_sorted_perm {A : Type} (key : A -> Z) (x : A) (l : list A) :
  insert_sorted key x l ≡ₚ x :: l.
Proof.
  induction l as [|y l IH]; simpl; [done|].
  destruct (key x <=? key y)%Z; [done|].
  rewrite IH. apply perm_swap.
Qed.

Lemma sort_by_perm {A : Type} (key : A -> Z) (l : list A) : sort_by key l ≡ₚ l.
Proof.
  induction l as [|x l IH]; simpl; [done|].
  rewrite insert_sorted_perm. by constructor.
Qed.

Lemma values_perm o : Obj.values o ≡ₚ List.map snd o.
Proof.
  unfold Obj.values. apply Permutation_map.
  rewrite sort_by_perm. apply filter_complement.
Qed.

End Objects.

(** Turning a slot available leaves the slots of other times alone, and
    gives a single slot of its time the flag. *)
Lemma mark_available_other (t t0 : string) (l : list Slot) :
  t <> t0 -> List.filter (at_time t) (mark_available t0 l) = List.filter (at_time t) l.
Proof.
  intros Hne. induction l as [|s l IH]; simpl; [done|].
  destruct (String.eqb_spec (time s) t0) as [He|_]; simpl.
  - unfold at_time; simpl. destruct (String.eqb_spec (time s) t); [congruence|done].
  - by rewrite IH.
Qed.

Lemma mark_available_same (t : string) (l : list Slot) (a : bool) :
  List.filter (at_time t) l = [{| time := t; available := a; starttime := None |}] ->
  List.filter (at_time t) (mark_available t l)
  = [{| time := t; available := true; starttime := None |}].
Proof.
  induction l as [|s l IH]; simpl; [done|].
  unfold at_time at 1. destruct (String.eqb_spec (time s) t) as [He|Hne]; simpl.
  - intros [= -> Hl]. simpl. unfold at_time at 1. simpl. rewrite String.eqb_refl.
    by rewrite Hl.
  - intros Hl. unfold at_time at 1. destruct (String.eqb_spec (time s) t); [done|].
    by apply IH.
Qed.

Lemma about_inv k t o : about k t o = true <-> o.1.1 = k /\ o.1.2 = t.
Proof. unfold about. by rewrite andb_true_iff, !String.eqb_eq. Qed.

Lemma observed_app k t os o :
  observed k t (os ++ [o]) = observed k t os || about k t o.
Proof. unfold observed. rewrite existsb_app. simpl. by rewrite orb_false_r. Qed.

Lemma observed_available_app k t os o :
  observed_available k t (os ++ [o]) = observed_available k t os || (about k t o && o.2).
Proof. unfold observed_available. rewrite existsb_app. simpl. by rewrite orb_false_r. Qed.

Lemma not_observed_available k t os :
  observed k t os = false -> observed_available k t os = false.
Proof.
  unfold observed, observed_available. induction os as [|o os IH]; simpl; [done|].
  intros [-> H]%orb_false_iff. simpl. by apply IH.
Qed.

Lemma about_other_room k k0 t t0 a : k <> k0 -> about k t (k0, t0, a) = false.
Proof.
  intros Hne. unfold about; simpl. destruct (String.eqb_spec k0 k); [congruence|done].
Qed.

Lemma about_other_time k t t0 a : t <> t0 -> about k t (k, t0, a) = false.
Proof.
  intros Hne. unfold about; simpl. destruct (String.eqb_spec t0 t); [congruence|].
  apply andb_false_r.
Qed.

Lemma about_same k t a : about k t (k, t, a) = true.
Proof. unfold about; simpl. by rewrite !String.eqb_refl. Qed.

Lemma tracks_nil : tracks [] [].
Proof. split; [constructor|]. intros k. simpl. done. Qed.

Ltac tidy_bool := simpl; rewrite ?andb_false_l, ?andb_false_r, ?orb_false_r, ?orb_true_r.

Lemma tracks_create rd os k0 :
  tracks rd os ->
  let rd1 := match Obj.get k0 rd with
             | Some _ => rd
             | None => Obj.set k0 {| rd_name := k0; rd_slots := []; seenTimes := ∅ |} rd
             end in
  tracks rd1 os /\ exists r, Obj.get k0 rd1 = Some r.
Proof.
  intros [Hnd H] rd1. subst rd1. destruct (Obj.get k0 rd) as [r|] eqn:Hg.
  { split; [by split|]. eauto. }
  split; [|by rewrite get_set_eq; eauto].
  split; [by apply NoDup_keys_set|]. intros k.
  destruct (decide (k0 = k)) as [<-|Hne].
  - rewrite get_set_eq. simpl. split; [done|]. intros t.
    specialize (H k0). rewrite Hg in H. rewrite (H t). split; [|done].
    apply bool_decide_eq_false. set_solver.
  - rewrite get_set_ne; [|done]. apply H.
Qed.

Lemma tracks_other rd os k0 t0 a0 r' rd' :
  tracks rd os ->
  NoDup (List.map fst rd') ->
  (forall k, k0 <> k -> Obj.get k rd' = Obj.get k rd) ->
  Obj.get k0 rd' = Some r' ->
  rd_name r' = k0 ->
  (forall t,
     bool_decide (t ∈ seenTimes r') = observed k0 t (os ++ [(k0, t0, a0)])
     /\ List.filter (at_time t) (rd_slots r')
        = if observed k0 t (os ++ [(k0, t0, a0)])
          then [{| time := t; available := observed_available k0 t (os ++ [(k0, t0, a0)]);
                   starttime := None |}]
          else []) ->
  tracks rd' (os ++ [(k0, t0, a0)]).
Proof.
  intros [_ H] Hnd Hother Hg Hname Hr'. split; [done|]. intros k.
  destruct (decide (k0 = k)) as [<-|Hne].
  - rewrite Hg. by split.
  - rewrite (Hother k Hne). specialize (H k).
    destruct (Obj.get k rd) as [r|].
    + destruct H as [Hn Ht]. split; [done|]. intros t.
      rewrite observed_app, observed_available_app, about_other_room by done.
      tidy_bool. apply Ht.
    + intros t. rewrite observed_app, about_other_room by done. tidy_bool. apply H.
Qed.

(** Entering one more observation keeps track. *)
Lemma tracks_enter rd os o : tracks rd os -> tracks (enter rd o) (os ++ [o]).
Proof.
  intros Htr. destruct o as [[k0 t0] a0]. unfold enter.
  destruct (tracks_create rd os k0 Htr) as [Htr1 [r Hg]].
  set (rd1 := match Obj.get k0 rd with
              | Some _ => rd
              | None => Obj.set k0 {| rd_name := k0; rd_slots := []; seenTimes := ∅ |} rd
              end) in *.
  rewrite Hg. simpl default. unfold deduplicate.
  pose proof Htr1 as [Hnd H]. specialize (H k0). rewrite Hg in H. destruct H as [Hname Ht].
  rewrite Hname.
  destruct (bool_decide (t0 ∈ seenTimes r)) eqn:Hseen; simpl.
  - (* the time was seen before *)
    assert (observed k0 t0 os = true) as Hobs by (by rewrite <- (proj1 (Ht t0))).
    destruct a0.
    + eapply tracks_other; [exact Htr1|by apply NoDup_keys_set| |apply get_set_eq|done|].
      { intros k Hne. by apply get_set_ne. }
      simpl. intros t. rewrite observed_app, observed_available_app.
      destruct (decide (t = t0)) as [->|Hne].
      * rewrite about_same, Hobs. tidy_bool. split; [done|].
        eapply mark_available_same. rewrite (proj2 (Ht t0)), Hobs. done.
      * rewrite about_other_time by done. tidy_bool.
        rewrite mark_available_other by done. apply Ht.
    + eapply tracks_other; [exact Htr1|done|done|exact Hg|done|].
      intros t. rewrite observed_app, observed_available_app. tidy_bool.
      destruct (decide (t = t0)) as [->|Hne].
      * rewrite about_same. tidy_bool. rewrite (proj1 (Ht t0)), (proj2 (Ht t0)), Hobs. done.
      * rewrite about_other_time by done. tidy_bool. apply Ht.
  - (* a new time *)
    assert (observed k0 t0 os = false) as Hobs by (by rewrite <- (proj1 (Ht t0))).
    eapply tracks_other; [exact Htr1|by apply NoDup_keys_set| |apply get_set_eq|done|].
    { intros k Hne. by apply get_set_ne. }
    simpl. intros t. rewrite observed_app, observed_available_app, List.filter_app.
    destruct (decide (t = t0)) as [->|Hne].
    + rewrite about_same, Hobs, (not_observed_available _ _ _ Hobs). simpl.
      rewrite (proj2 (Ht t0)), Hobs. unfold at_time; simpl. rewrite String.eqb_refl.
      split; [|done]. apply bool_decide_eq_true, elem_of_union_l, elem_of_singleton. done.
    + rewrite about_other_time by done. tidy_bool.
      unfold at_time at 2; simpl. destruct (String.eqb_spec t0 t); [congruence|].
      rewrite app_nil_r. split; [|apply Ht].
      rewrite <- (proj1 (Ht t)). apply bool_decide_ext.
      rewrite elem_of_union, elem_of_singleton. tauto.
Qed.

Lemma tracks_fold os' : forall rd os,
  tracks rd os -> tracks (fold_left enter os' rd) (os ++ os').
Proof.
  induction os' as [|o os' IH]; intros rd os H; simpl.
  - by rewrite app_nil_r.
  - replace (os ++ o :: os') with ((os ++ [o]) ++ os') by (by rewrite <- app_assoc).
    apply IH. by apply tracks_enter.
Qed.

(** *** Rooms named like a member of [Object.prototype] *)

(** For any other name [record] enters the observation. *)
Lemma record_enter rd o :
  Obj.inherited o.1.1 = false -> record rd o = Returned (enter rd o).
Proof.
  destruct o as [[k t] a]. cbn [fst]. intros Hk. unfold record, enter, Obj.lookup.
  rewrite Hk. destruct (Obj.get k rd) as [r|] eqn:Hg.
  - by rewrite Hg.
  - by rewrite get_set_eq.
Qed.

(** For such a name, of which the object has no entry, it throws. *)
Lemma record_inherited rd o :
  Obj.inherited o.1.1 = true -> Obj.get o.1.1 rd = None ->
  record rd o = Raised "Cannot read properties of undefined".
Proof.
  destruct o as [[k t] a]. cbn [fst]. intros Hk Hg. unfold record, Obj.lookup.
  by rewrite Hg, Hk, Hg.
Qed.

(** No entry is ever made under such a name. *)
Lemma plain_keys_enter rd o :
  Obj.inherited o.1.1 = false -> plain_keys rd -> plain_keys (enter rd o).
Proof.
  destruct o as [[k0 t] a]. cbn [fst]. intros Hk0 Hrd k Hk.
  assert (k0 <> k) as Hne by congruence.
  assert (forall (v : RoomData) rd', Obj.get k rd' = None -> Obj.get k (Obj.set k0 v rd') = None)
    as Hset.
  { intros v rd' H. by rewrite get_set_ne. }
  unfold enter, deduplicate.
  set (rd1 := match Obj.get k0 rd with Some _ => rd | None => _ end).
  assert (Obj.get k rd1 = None) as H1.
  { subst rd1. destruct (Obj.get k0 rd); [by apply Hrd|]. apply Hset. by apply Hrd. }
  clearbody rd1.
  destruct (negb _); [by apply Hset|]. destruct a; [by apply Hset|done].
Qed.

Lemma fold_record os : forall rd,
  plain_keys rd ->
  fold_outcome record os rd
  = if plain_names os then Returned (fold_left enter os rd)
    else Raised "Cannot read properties of undefined".
Proof.
  induction os as [|o os IH]; intros rd Hrd; [done|].
  cbn [fold_outcome plain_names forallb fold_left].
  destruct (Obj.inherited o.1.1) eqn:Hk; cbn [negb andb].
  - by rewrite record_inherited; [|done|apply Hrd].
  - rewrite record_enter by done. apply IH. by apply plain_keys_enter.
Qed.

Lemma fold_visit tds els : forall rd,
  fold_outcome (visit tds) els rd = fold_outcome record (observations tds els) rd.
Proof.
  induction els as [|e els IH]; intros rd; [done|].
  cbn [fold_outcome]. unfold visit at 1. unfold observations. simpl.
  fold (observations tds els).
  destruct (observe tds e); cbn [fold_outcome]; [|apply IH].
  destruct (record rd _); [apply IH|done].
Qed.

(** What the function of [page.evaluate] comes to. *)
Lemma evaluate_unfold targetDateStr today els :
  let os := observations (targetDateString targetDateStr today) els in
  evaluate targetDateStr today els
  = if plain_names os
    then Returned (List.map (fun room => (rd_name room,
                                           sort_by (fun s => parseTime (time s)) (rd_slots room)))
                     (Obj.values (fold_left enter os [])))
    else Raised "Cannot read properties of undefined".
Proof.
  intros os. unfold evaluate. rewrite fold_visit, fold_record by done.
  fold os. by destruct (plain_names os).
Qed.

Lemma get_of_In {V : Type} (k : string) (v : V) (o : list (string * V)) :
  NoDup (List.map fst o) -> In (k, v) o -> Obj.get k o = Some v.
Proof.
  induction o as [|[k1 v1] o IH]; simpl; [done|].
  intros [Hk1 Hnd]%NoDup_cons [[= -> ->]|Hin].
  - by rewrite String.eqb_refl.
  - destruct (String.eqb_spec k k1) as [->|_]; [|by apply IH].
    exfalso. apply Hk1. apply list_elem_of_In, in_map_iff. by exists (k1, v).
Qed.

Lemma tracks_names rd os k r : tracks rd os -> In (k, r) rd -> rd_name r = k.
Proof.
  intros [Hnd H] Hin. specialize (H k). rewrite (get_of_In _ _ _ Hnd Hin) in H. apply H.
Qed.

Lemma names_are_keys (l : list (string * RoomData)) :
  (forall k r, In (k, r) l -> rd_name r = k) ->
  List.map rd_name (List.map snd l) = List.map fst l.
Proof.
  induction l as [|[k r] l IH]; intros Hall; [done|]. simpl. f_equal.
  - apply Hall. by left.
  - apply IH. intros k' r' Hin. apply Hall. by right.
Qed.

Lemma enter_new (k t : string) (a : bool) :
  enter [] (k, t, a)
  = [(k, {| rd_name := k;
            rd_slots := [{| time := t; available := a; starttime := None |}];
            seenTimes := {[t]} ∪ ∅ |})].
Proof.
  unfold enter, deduplicate. cbn [Obj.get Obj.set]. rewrite String.eqb_refl.
  cbn [default from_option id seenTimes rd_name rd_slots].
  rewrite (bool_decide_eq_false_2 (t ∈ (∅ : gset string))) by apply not_elem_of_empty.
  cbn [negb Obj.set app]. by rewrite ?String.eqb_refl.
Qed.

Lemma enter_seen (k t : string) (a a' : bool) :
  enter [(k, {| rd_name := k;
                rd_slots := [{| time := t; available := a; starttime := None |}];
                seenTimes := {[t]} ∪ ∅ |})] (k, t, a')
  = [(k, {| rd_name := k;
            rd_slots := [{| time := t; available := a || a'; starttime := None |}];
            seenTimes := {[t]} ∪ ∅ |})].
Proof.
  unfold enter, deduplicate. cbn [Obj.get]. rewrite String.eqb_refl.
  cbn [Obj.get]. rewrite ?String.eqb_refl.
  cbn [default from_option id seenTimes rd_name rd_slots].
  rewrite (bool_decide_eq_true_2 (t ∈ ({[t]} ∪ ∅ : gset string)))
    by (apply elem_of_union_l, elem_of_singleton; done).
  cbn [negb]. destruct a'.
  - cbn [Obj.set mark_available time starttime].
    rewrite ?String.eqb_refl. by rewrite orb_true_r.
  - by rewrite orb_false_r.
Qed.

Lemma values_singleton {V : Type} (k : string) (v : V) : Obj.values [(k, v)] = [v].
Proof.
  unfold Obj.values. cbn [List.filter fst]. by destruct (Obj.is_index k).
Qed.

(** C9.  De-duplication of the rendered widget's slots.  The function of
    [page.evaluate] returns exactly when no room observed is named like a
    member of [Object.prototype]; for such a room it throws.  When it
    returns, the result has one entry per room, and for every room and time
    that was observed, the room's slots hold exactly one slot of that time,
    which is available iff one of the observations of it was.  Two
    observations of the same room and time, in either order, give that room
    with a single slot, available iff one of the two was: a later available
    one upgrades the slot, a later unavailable one leaves it; but for a room
    named like a member of [Object.prototype] they give no slot, the
    function throws. *)
Theorem slot_dedup_upgrade (targetDateStr : option string) (today : Z) :
  let tds := targetDateString targetDateStr today in
  (forall els : list Element,
     let os := observations tds els in
     ((exists result, evaluate targetDateStr today els = Returned result)
      <-> forall k t a, In (k, t, a) os -> Obj.inherited k = false)
     /\ forall result, evaluate targetDateStr today els = Returned result ->
        NoDup (List.map fst result)
        /\ forall k t, observed k t os = true ->
             exists slots, In (k, slots) result
               /\ List.filter (at_time t) slots
                  = [{| time := t; available := observed_available k t os;
                        starttime := None |}])
  /\ (forall (e1 e2 : Element) (k t : string) (a1 a2 : bool),
       observe tds e1 = Some (k, t, a1) ->
       observe tds e2 = Some (k, t, a2) ->
       evaluate targetDateStr today [e1; e2]
       = if Obj.inherited k then Raised "Cannot read properties of undefined"
         else Returned [(k, [{| time := t; available := a1 || a2; starttime := None |}])]).
Proof.
  intros tds. split.
  - intros els os. pose proof (evaluate_unfold targetDateStr today els) as Hev.
    cbv zeta in Hev. fold tds in Hev. fold os in Hev. split.
    { rewrite Hev. unfold plain_names. split.
      - intros [result Hres] k t a Hin.
        destruct (forallb _ os) eqn:Hall; [|done].
        rewrite forallb_forall in Hall. specialize (Hall _ Hin). simpl in Hall.
        by destruct (Obj.inherited k).
      - intros Hall. rewrite (proj2 (forallb_forall _ os)); [eauto|].
        intros [[k t] a] Hin. simpl. by rewrite (Hall k t a Hin). }
    intros result Hres. rewrite Hev in Hres.
    destruct (plain_names os); [|done]. injection Hres as <-.
    pose proof (tracks_fold os [] [] tracks_nil) as Htr. simpl in Htr.
    set (rd := fold_left enter os []) in *.
    split.
    + rewrite List.map_map. simpl.
      rewrite (Permutation_map rd_name (values_perm rd)).
      rewrite names_are_keys; [apply Htr|].
      intros k r. by apply tracks_names with os.
    + intros k t Hobs. destruct Htr as [Hnd H]. specialize (H k).
      destruct (Obj.get k rd) as [r|] eqn:Hg; [|by rewrite H in Hobs].
      destruct H as [Hname Ht]. destruct (Ht t) as [_ Hf]. rewrite Hobs in Hf.
      exists (sort_by (fun s => parseTime (time s)) (rd_slots r)). split.
      * apply in_map_iff. exists r. split; [by rewrite Hname|].
        apply (Permutation_in _ (Permutation_sym (values_perm rd))).
        apply in_map_iff. exists (k, r). split; [done|]. by apply get_Some.
      * apply Permutation_singleton_r. rewrite <- Hf.
        apply filter_perm, sort_by_perm.
  - intros e1 e2 k t a1 a2 H1 H2. rewrite evaluate_unfold. cbv zeta. fold tds.
    clearbody tds.
    assert (observations tds [e1; e2] = [(k, t, a1); (k, t, a2)]) as ->.
    { unfold observations. simpl. by rewrite H1, H2. }
    unfold plain_names. cbn [forallb fst]. destruct (Obj.inherited k); [done|].
    cbn [negb andb fold_left]. by rewrite enter_new, enter_seen, values_singleton.
Qed.

(** The page of [chrome_up] shows room 360H at 1:30pm taken and then free;
    a page that shows a room named [constructor] in the same way has the
    function throw. *)
Lemma slot_dedup_upgrade_witness :
  let d := Some "2026-01-21" in
  let taken room :=
    {| title := Some (String.append "1:30pm Wednesday, January 21, 2026 - "
                        (String.append room " - Unavailable/Padding"));
       ariaLabel := None; className := "fc-timeline-event s-lc-eq-unavail" |} in
  let free room :=
    {| title := Some (String.append "1:30pm Wednesday, January 21, 2026 - "
                        (String.append room " - Available"));
       ariaLabel := None; className := "fc-timeline-event s-lc-eq-avail" |} in
  evaluate d 0 [taken "360H"; free "360H"]
    = Returned [("360H", [{| time := "1:30pm"; available := true; starttime := None |}])]
  /\ evaluate d 0 [free "360H"; taken "360H"]
    = Returned [("360H", [{| time := "1:30pm"; available := true; starttime := None |}])]
  /\ evaluate d 0 [taken "constructor"; free "constructor"]
    = Raised "Cannot read properties of undefined".
Proof.
  intros d taken free.
  destruct (slot_dedup_upgrade d 0) as [_ H]. split; [|split].
  - apply (H (taken "360H") (free "360H") "360H" "1:30pm" false true); vm_compute; reflexivity.
  - apply (H (free "360H") (taken "360H") "360H" "1:30pm" true false); vm_compute; reflexivity.
  - apply (H (taken "constructor") (free "constructor") "constructor" "1:30pm" false true);
      vm_compute; reflexivity.
Defined.

(** One room named like a member of [Object.prototype] costs the library
    all its rooms: the scrape ends in its [catch] block. *)
Lemma room_named_constructor_degrades_the_scrape :
  scrapeLibCal library_hsl (Some "2026-01-21") chrome_shows_constructor
  = Returned (degraded library_hsl 1768950000000 "Cannot read properties of undefined").
Proof. vm_compute. reflexivity. Qed.

End SlotTheory.

Module CacheTheory.
Import JsString Adapters Cache.
Local Open Scope list_scope.

Section Steps.
Variable ttl : Z.

Lemma state_eta (st : State) :
  st = {| dataCache := dataCache st; inFlight := inFlight st; populations := populations st;
          awaiting := awaiting st; next_promise := next_promise st; console := console st;
          replies := replies st |}.
Proof. by destruct st. Qed.

(** The calls resumed by a settlement leave everything but [inFlight] and
    the replies alone. *)
Lemma resume_all key result ws st :
  fold_left (resume key result) ws st =
  {| dataCache := dataCache st;
     inFlight := if existsb is_initiator ws then delete key (inFlight st) else inFlight st;
     populations := populations st; awaiting := awaiting st;
     next_promise := next_promise st; console := console st;
     replies := replies st ++ List.map (reply_of result) ws |}.
Proof.
  revert st. induction ws as [|w ws IH]; intros st; simpl.
  - rewrite app_nil_r. apply state_eta.
  - rewrite IH. unfold resume, reply_of, is_initiator, answer.
    destruct (role w); simpl; rewrite <- app_assoc; simpl.
    + f_equal. destruct (existsb _ ws); [apply delete_delete_eq|done].
    + done.
Qed.

Lemma settle_unfold p w finishedAt st pop :
  populations st !! p = Some pop ->
  settle p w finishedAt st =
  let result :=
    results ← fetchAll (pop_dateStr pop) w;
    Returned {| reply_data := results; fetchedAt := finishedAt;
                fetchDurationMs := Some (finishedAt - startedAt pop)%Z;
                cacheHit := None; deduped := None |} in
  {| dataCache :=
       match fetchAll (pop_dateStr pop) w with
       | Returned results =>
           <[pop_key pop := {| lastUpdated := finishedAt; data := results;
                               lastFetchDurationMs := (finishedAt - startedAt pop)%Z |}]>
             (dataCache st)
       | Raised _ => dataCache st
       end;
     inFlight := if existsb is_initiator (List.filter (awaits p) (awaiting st))
                 then delete (pop_key pop) (inFlight st) else inFlight st;
     populations := delete p (populations st);
     awaiting := List.filter (fun w => negb (awaits p w)) (awaiting st);
     next_promise := next_promise st; console := console st;
     replies := replies st ++ List.map (reply_of result) (List.filter (awaits p) (awaiting st)) |}.
Proof. intros H. unfold settle. rewrite H. by rewrite resume_all. Qed.

Lemma initiator_awaits p c (l : list Waiter) :
  {| caller := c; promise := p; role := Initiator |} ∈ l ->
  existsb is_initiator (List.filter (awaits p) l) = true.
Proof.
  intros H. apply existsb_exists. exists {| caller := c; promise := p; role := Initiator |}.
  split; [|done]. apply filter_In. split; [by apply list_elem_of_In|].
  unfold awaits; simpl. apply Nat.eqb_refl.
Qed.

Lemma consistent_init : consistent init.
Proof.
  repeat split; simpl; intros *; try (rewrite lookup_empty; done).
  intros H. by apply not_elem_of_nil in H.
Qed.

Lemma consistent_call c dateStr force now st :
  consistent st -> consistent (getAllLibraryData ttl c dateStr force now st).
Proof.
  intros (H1 & H2 & H3 & H4 & H5). unfold getAllLibraryData.
  destruct (if negb force && isFresh ttl _ now then _ else None) as [e|].
  { repeat split; simpl; eauto. }
  destruct (inFlight st !! cacheKeyOf dateStr) as [p|] eqn:Hfl.
  - repeat split; simpl; eauto.
    + intros q pop Hq. destruct (H4 q pop Hq) as [c' Hc']. exists c'.
      apply elem_of_app. by left.
    + intros w [Hw|Hw]%elem_of_app; [eauto|].
      apply list_elem_of_singleton in Hw as ->. simpl.
      destruct (H1 _ _ Hfl) as (pop & Hpop & _). eauto.
  - repeat split; simpl.
    + intros k p. rewrite lookup_insert. case_decide as Hk.
      * intros [= <-]. subst k. eexists. rewrite lookup_insert_eq. done.
      * intros Hp. destruct (H1 _ _ Hp) as (pop & Hpop & Hkey).
        exists pop. split; [|done]. rewrite lookup_insert_ne; [done|].
        apply H3 in Hpop. lia.
    + intros p pop. rewrite lookup_insert. case_decide as Hp.
      * intros [= <-]. subst p. simpl. by rewrite lookup_insert_eq.
      * intros Hpop. rewrite lookup_insert_ne; [eauto|].
        intros Hk. apply H2 in Hpop. rewrite <- Hk in Hpop. congruence.
    + intros p pop. rewrite lookup_insert. case_decide as Hp.
      * intros _. lia.
      * intros Hpop. apply H3 in Hpop. lia.
    + intros p pop. rewrite lookup_insert. case_decide as Hp.
      * intros _. exists c. subst p. apply elem_of_app. right. by apply list_elem_of_singleton.
      * intros Hpop. destruct (H4 _ _ Hpop) as [c' Hc']. exists c'.
        apply elem_of_app. by left.
    + intros w [Hw|Hw]%elem_of_app.
      * destruct (H5 _ Hw) as [pop Hpop]. exists pop.
        rewrite lookup_insert_ne; [done|]. apply H3 in Hpop. lia.
      * apply list_elem_of_singleton in Hw as ->. simpl. rewrite lookup_insert_eq. eauto.
Qed.

Lemma consistent_settle p w finishedAt st :
  consistent st -> consistent (settle p w finishedAt st).
Proof.
  intros (H1 & H2 & H3 & H4 & H5).
  destruct (populations st !! p) as [pop|] eqn:Hp; [|by unfold settle; rewrite Hp].
  rewrite (settle_unfold _ _ _ _ _ Hp). cbv zeta.
  destruct (H4 _ _ Hp) as [c0 Hc0]. rewrite (initiator_awaits _ _ _ Hc0).
  repeat split; simpl.
  - intros k q. rewrite lookup_delete. case_decide as Hk; [done|].
    intros Hq. destruct (H1 _ _ Hq) as (pop' & Hpop' & Hkey). exists pop'. split; [|done].
    rewrite lookup_delete_ne; [done|]. intros <-. congruence.
  - intros q pop'. rewrite lookup_delete. case_decide as Hq; [done|].
    intros Hpop'. rewrite lookup_delete_ne; [eauto|].
    intros Hk. apply H2 in Hpop'. apply H2 in Hp. rewrite Hk in Hp. congruence.
  - intros q pop'. rewrite lookup_delete. case_decide; [done|]. eauto.
  - intros q pop'. rewrite lookup_delete. case_decide as Hq; [done|].
    intros Hpop'. destruct (H4 _ _ Hpop') as [c' Hc']. exists c'.
    apply list_elem_of_In, filter_In. split; [by apply list_elem_of_In|].
    unfold awaits; simpl. apply negb_true_iff, Nat.eqb_neq. congruence.
  - intros x Hx. apply list_elem_of_In, filter_In in Hx as [Hx Hne].
    apply list_elem_of_In in Hx. rewrite lookup_delete_ne; [eauto|].
    unfold awaits in Hne. apply negb_true_iff, Nat.eqb_neq in Hne. congruence.
Qed.

Lemma consistent_step st ev : consistent st -> consistent (step ttl st ev).
Proof. destruct ev; [apply consistent_call|apply consistent_settle]. Qed.

Lemma consistent_run evs st : consistent st -> consistent (run ttl st evs).
Proof.
  revert st. induction evs as [|ev evs IH]; intros st H; [done|].
  simpl. apply IH. by apply consistent_step.
Qed.

Lemma consistent_reachable evs : consistent (run ttl init evs).
Proof. apply consistent_run, consistent_init. Qed.

(** At most one population per key is pending in a consistent state. *)
Lemma one_population_per_key st p1 p2 pop1 pop2 :
  consistent st ->
  populations st !! p1 = Some pop1 -> populations st !! p2 = Some pop2 ->
  pop_key pop1 = pop_key pop2 -> p1 = p2.
Proof.
  intros (_ & H2 & _) Hp1 Hp2 Hk. apply H2 in Hp1, Hp2. rewrite Hk in Hp1. congruence.
Qed.

Lemma call_hit c dateStr now st e :
  dataCache st !! cacheKeyOf dateStr = Some e ->
  isFresh ttl (Some e) now = true ->
  getAllLibraryData ttl c dateStr false now st =
  answer c (Returned {| reply_data := data e; fetchedAt := lastUpdated e;
                        fetchDurationMs := None; cacheHit := Some true;
                        deduped := None |}) st.
Proof. intros He Hf. unfold getAllLibraryData. rewrite He. simpl negb. by rewrite Hf. Qed.

Lemma call_miss c dateStr force now st :
  misses ttl force (dataCache st !! cacheKeyOf dateStr) now ->
  getAllLibraryData ttl c dateStr force now st =
  match inFlight st !! cacheKeyOf dateStr with
  | Some p => suspend c p Joiner st
  | None => suspend c (next_promise st) Initiator (populate (cacheKeyOf dateStr) dateStr now st)
  end.
Proof.
  intros [-> | Hf]; unfold getAllLibraryData; [done|].
  rewrite Hf. by rewrite andb_false_r.
Qed.

Lemma arrivals_join dateStr p cs st :
  inFlight st !! cacheKeyOf dateStr = Some p ->
  Forall (fun c => misses ttl c.1.2 (dataCache st !! cacheKeyOf dateStr) c.2) cs ->
  run ttl st (arrivals dateStr cs) =
  {| dataCache := dataCache st; inFlight := inFlight st; populations := populations st;
     awaiting := awaiting st ++ List.map (joiner_of p) cs;
     next_promise := next_promise st; console := console st; replies := replies st |}.
Proof.
  intros Hfl Hcs. revert st Hfl Hcs. induction cs as [|c cs IH]; intros st Hfl Hcs.
  - simpl. rewrite app_nil_r. apply state_eta.
  - apply Forall_cons in Hcs as [Hc Hcs]. simpl.
    rewrite (call_miss _ _ _ _ _ Hc), Hfl.
    rewrite IH; [|done|done]. simpl. by rewrite <- app_assoc.
Qed.

Lemma no_waiter_on_next st :
  consistent st -> List.filter (awaits (next_promise st)) (awaiting st) = [].
Proof.
  intros (_ & _ & H3 & _ & H5).
  assert (forall l, (forall x, x ∈ l -> promise x <> next_promise st) ->
                    List.filter (awaits (next_promise st)) l = []) as Hl.
  { induction l as [|x l IH]; intros Hall; [done|]. simpl.
    unfold awaits at 1. destruct (Nat.eqb_spec (promise x) (next_promise st)) as [Heq|_].
    - exfalso. apply (Hall x); [left|done].
    - apply IH. intros y Hy. apply Hall. by right. }
  apply Hl. intros x Hx Heq. destruct (H5 x Hx) as [pop Hpop].
  apply H3 in Hpop. lia.
Qed.

Lemma filter_joiners p cs : List.filter (awaits p) (List.map (joiner_of p) cs) = List.map (joiner_of p) cs.
Proof.
  induction cs as [|c cs IH]; [done|]. simpl. unfold awaits at 1. simpl.
  by rewrite Nat.eqb_refl, IH.
Qed.

(** C1.  Single-flight.  In every state the server can reach, at most one
    population per key is pending.  From any such state in which no
    population is in flight for the key, let N >= 1 callers call
    [getAllLibraryData] for that key one after the other, none of them served
    from the cache (forced, or no fresh entry).  Then exactly one population
    is started (one line is printed, and the only pending population under
    the key is the new one), and when it settles, with a snapshot or with an
    error, no other is started and the N callers resolve, in the order they
    came, to that one outcome. *)
Theorem single_flight (pre : list Event) (dateStr : option string)
    (cs : list (nat * bool * Z)) (w : World) (finishedAt : Z) :
  let st := run ttl init pre in
  let key := cacheKeyOf dateStr in
  inFlight st !! key = None ->
  cs <> [] ->
  Forall (fun c => misses ttl c.1.2 (dataCache st !! key) c.2) cs ->
  let st1 := run ttl st (arrivals dateStr cs) in
  let st2 := step ttl st1 (Settle (next_promise st) w finishedAt) in
  let outcome := results ← fetchAll dateStr w; Returned (results, finishedAt) in
  (forall evs p1 p2 pop1 pop2,
     populations (run ttl init evs) !! p1 = Some pop1 ->
     populations (run ttl init evs) !! p2 = Some pop2 ->
     pop_key pop1 = pop_key pop2 -> p1 = p2)
  /\ console st1 = console st ++ [key]
  /\ (forall p pop, populations st1 !! p = Some pop -> pop_key pop = key -> p = next_promise st)
  /\ console st2 = console st1
  /\ List.map (fun r => (r.1, outcome_of r.2)) (List.skipn (length (replies st)) (replies st2))
     = List.map (fun c => (c.1.1, outcome)) cs.
Proof.
  intros st key Hfl Hne Hcs.
  assert (consistent st) as Hst by apply consistent_reachable.
  destruct cs as [|c0 cs]; [done|]. clear Hne.
  apply Forall_cons in Hcs as [Hc0 Hcs].
  set (st0 := suspend c0.1.1 (next_promise st) Initiator (populate key dateStr c0.2 st)).
  assert (step ttl st (Call c0.1.1 dateStr c0.1.2 c0.2) = st0) as Hstep.
  { simpl. rewrite (call_miss _ _ _ _ _ Hc0). fold key. by rewrite Hfl. }
  assert (run ttl st (arrivals dateStr (c0 :: cs)) =
          {| dataCache := dataCache st0; inFlight := inFlight st0;
             populations := populations st0;
             awaiting := awaiting st0 ++ List.map (joiner_of (next_promise st)) cs;
             next_promise := next_promise st0; console := console st0;
             replies := replies st0 |}) as Hrun.
  { change (run ttl st (arrivals dateStr (c0 :: cs)))
      with (run ttl (step ttl st (Call c0.1.1 dateStr c0.1.2 c0.2)) (arrivals dateStr cs)).
    rewrite Hstep. apply arrivals_join.
    - simpl. apply lookup_insert_eq.
    - exact Hcs. }
  intros st1 st2 outcome. subst st1 st2. rewrite Hrun. clear Hrun Hstep.
  split.
  { intros evs p1 p2 pop1 pop2. apply one_population_per_key, consistent_reachable. }
  split; [done|]. split.
  { simpl. intros p pop. rewrite lookup_insert. case_decide as Hp; [done|].
    intros Hpop Hk. destruct Hst as (_ & H2 & _). apply H2 in Hpop. congruence. }
  simpl step. erewrite settle_unfold; [|simpl; apply lookup_insert_eq].
  cbv zeta. simpl. split; [done|].
  rewrite skipn_app, skipn_all, Nat.sub_diag. simpl.
  rewrite !List.filter_app, (no_waiter_on_next _ Hst). simpl.
  unfold awaits at 1. simpl. rewrite Nat.eqb_refl. rewrite filter_joiners. simpl.
  f_equal.
  - unfold outcome, reply_of, outcome_of. simpl. by destruct (fetchAll dateStr w).
  - rewrite List.map_map. rewrite List.map_map. apply List.map_ext. intros c.
    unfold outcome, reply_of, outcome_of. simpl. by destruct (fetchAll dateStr w).
Qed.

Lemma isFresh_spec e now :
  lastUpdated e <> 0%Z ->
  isFresh ttl (Some e) now = true <-> (now - lastUpdated e < ttl)%Z.
Proof.
  intros H. unfold isFresh. rewrite andb_true_iff, negb_true_iff, Z.eqb_neq, Z.ltb_lt. tauto.
Qed.

(** C3.  Freshness.  A non-forced call at [t0] that finds no fresh entry and
    no population in flight starts one; when it completes after [d] with a
    snapshot, the entry written has [lastUpdated = t0 + d], the completion
    time, and the measured duration [d], and the call is answered with that
    snapshot.  From then on the entry is fresh at [now] iff
    [now - lastUpdated < CACHE_TTL]; a non-forced call while it is fresh is
    answered with the cached snapshot, its time and [cacheHit: true], and
    changes nothing else: the cache, the promises in flight, the pending
    populations (no adapter is invoked), the lines printed and the suspended
    calls are what they were; a non-forced call once it has expired starts a
    new population.  The same answer is given from any state whose entry for
    the key is fresh.  The clock is not at the epoch when the population
    completes. *)
Theorem freshness_window (pre : list Event) (dateStr : option string) (c0 : nat)
    (t0 d : Z) (w : World) (results : list Facility) :
  let st := run ttl init pre in
  let key := cacheKeyOf dateStr in
  inFlight st !! key = None ->
  isFresh ttl (dataCache st !! key) t0 = false ->
  fetchAll dateStr w = Returned results ->
  (t0 + d <> 0)%Z ->
  let st1 := run ttl st [Call c0 dateStr false t0; Settle (next_promise st) w (t0 + d)%Z] in
  dataCache st1 !! key
    = Some {| lastUpdated := (t0 + d)%Z; data := results; lastFetchDurationMs := d |}
  /\ (forall now, isFresh ttl (dataCache st1 !! key) now = true <-> (now - (t0 + d) < ttl)%Z)
  /\ (forall c now, (now - (t0 + d) < ttl)%Z ->
        let st2 := step ttl st1 (Call c dateStr false now) in
        replies st2
        = replies st1
          ++ [(c, Returned {| reply_data := results; fetchedAt := (t0 + d)%Z;
                              fetchDurationMs := None; cacheHit := Some true;
                              deduped := None |})]
        /\ dataCache st2 = dataCache st1
        /\ inFlight st2 = inFlight st1
        /\ populations st2 = populations st1
        /\ awaiting st2 = awaiting st1
        /\ next_promise st2 = next_promise st1
        /\ console st2 = console st1)
  /\ (forall c now, (ttl <= now - (t0 + d))%Z ->
        let st2 := step ttl st1 (Call c dateStr false now) in
        console st2 = console st1 ++ [key]
        /\ populations st2 !! next_promise st1
           = Some {| pop_key := key; pop_dateStr := dateStr; startedAt := now |}
        /\ replies st2 = replies st1)
  /\ replies st1
     = replies st
       ++ [(c0, Returned {| reply_data := results; fetchedAt := (t0 + d)%Z;
                            fetchDurationMs := Some d; cacheHit := None;
                            deduped := None |})]
  /\ (forall (s : State) (e : Entry) c now,
        dataCache s !! key = Some e ->
        lastUpdated e <> 0%Z ->
        (now - lastUpdated e < ttl)%Z ->
        let s2 := step ttl s (Call c dateStr false now) in
        replies s2
        = replies s
          ++ [(c, Returned {| reply_data := data e; fetchedAt := lastUpdated e;
                              fetchDurationMs := None; cacheHit := Some true;
                              deduped := None |})]
        /\ dataCache s2 = dataCache s
        /\ inFlight s2 = inFlight s
        /\ populations s2 = populations s
        /\ awaiting s2 = awaiting s
        /\ next_promise s2 = next_promise s
        /\ console s2 = console s).
Proof.
  intros st key Hfl Hmiss Hw Hnz.
  assert (consistent st) as Hst by apply consistent_reachable.
  intros st1.
  assert (st1 = settle (next_promise st) w (t0 + d)
                  (suspend c0 (next_promise st) Initiator (populate key dateStr t0 st))) as Hst1.
  { subst st1. simpl. rewrite call_miss; [|by right]. fold key. by rewrite Hfl. }
  erewrite settle_unfold in Hst1; [|simpl; apply lookup_insert_eq].
  cbv zeta in Hst1. simpl in Hst1. rewrite Hw in Hst1.
  rewrite List.filter_app, (no_waiter_on_next _ Hst) in Hst1. simpl in Hst1.
  unfold awaits in Hst1 at 1. simpl in Hst1. rewrite Nat.eqb_refl in Hst1. simpl in Hst1.
  replace (t0 + d - t0)%Z with d in Hst1 by lia.
  assert (dataCache st1 !! key
          = Some {| lastUpdated := (t0 + d)%Z; data := results; lastFetchDurationMs := d |}) as He.
  { rewrite Hst1. simpl. apply lookup_insert_eq. }
  assert (inFlight st1 !! key = None) as Hfl1.
  { rewrite Hst1. simpl. apply lookup_delete_eq. }
  split; [exact He|]. split; [|split; [|split; [|split]]].
  - intros now. rewrite He. by apply isFresh_spec.
  - intros c now Hlt st2. subst st2. simpl. rewrite (call_hit _ _ _ _ _ He); [done|].
    by apply isFresh_spec.
  - intros c now Hge st2. subst st2. simpl. rewrite call_miss.
    + fold key. rewrite Hfl1. simpl. split; [done|]. split; [|done]. apply lookup_insert_eq.
    + right. fold key. rewrite He. apply not_true_iff_false.
      rewrite isFresh_spec; [simpl; lia|done].
  - rewrite Hst1. simpl. unfold awaits. simpl. by rewrite Nat.eqb_refl.
  - intros s e c now Hs Hnz' Hlt s2. subst s2. simpl.
    rewrite (call_hit _ _ _ _ _ Hs); [done|]. by apply isFresh_spec.
Qed.

(** C4, amended.  A call with [force = true] is never answered from the
    cache, whatever entry is there, fresh or not: when no population is in
    flight for the key it starts a new one, and when one is in flight it
    starts none and awaits that one. *)
Theorem force_is_never_a_cache_hit (pre : list Event) (c : nat) (dateStr : option string)
    (now : Z) :
  let st := run ttl init pre in
  let key := cacheKeyOf dateStr in
  let st' := step ttl st (Call c dateStr true now) in
  replies st' = replies st
  /\ dataCache st' = dataCache st
  /\ (inFlight st !! key = None ->
       console st' = console st ++ [key]
       /\ inFlight st' !! key = Some (next_promise st)
       /\ populations st' !! next_promise st
          = Some {| pop_key := key; pop_dateStr := dateStr; startedAt := now |}
       /\ awaiting st' = awaiting st ++ [{| caller := c; promise := next_promise st;
                                            role := Initiator |}])
  /\ (forall p, inFlight st !! key = Some p ->
       console st' = console st /\ populations st' = populations st
       /\ inFlight st' = inFlight st
       /\ awaiting st' = awaiting st ++ [{| caller := c; promise := p; role := Joiner |}]).
Proof.
  intros st key st'. subst st'. simpl. rewrite call_miss; [|by left]. fold key.
  destruct (inFlight st !! key) as [p|] eqn:Hfl; simpl.
  - split; [done|]. split; [done|]. split; [done|]. by intros q [= <-].
  - split; [done|]. split; [done|]. split; [|done].
    intros _. repeat split; try done; apply lookup_insert_eq.
Qed.

(** C5.  Failure of a population.  When the population behind a pending
    promise rejects, [dataCache] is left as it was (no entry is written, an
    earlier entry stays), the key is removed from [inFlight], the promise is
    no longer pending, every call that awaited it (the initiating one is
    among them) is rejected with the same error, and the next call for the
    key that is not served from the cache starts a new population. *)
Theorem population_failure (pre : list Event) (p : nat) (pop : Population) (w : World)
    (finishedAt : Z) (message : string) :
  let st := run ttl init pre in
  populations st !! p = Some pop ->
  fetchAll (pop_dateStr pop) w = Raised message ->
  let st' := step ttl st (Settle p w finishedAt) in
  dataCache st' = dataCache st
  /\ inFlight st' !! pop_key pop = None
  /\ populations st' !! p = None
  /\ (exists c, {| caller := c; promise := p; role := Initiator |} ∈ awaiting st)
  /\ (forall x, x ∈ awaiting st -> promise x = p -> (caller x, Raised message) ∈ replies st')
  /\ (forall c dateStr force now,
        cacheKeyOf dateStr = pop_key pop ->
        misses ttl force (dataCache st' !! pop_key pop) now ->
        let st'' := step ttl st' (Call c dateStr force now) in
        console st'' = console st' ++ [pop_key pop]
        /\ inFlight st'' !! pop_key pop = Some (next_promise st')).
Proof.
  intros st Hp Hw st'.
  assert (consistent st) as Hst by apply consistent_reachable.
  destruct Hst as (_ & _ & _ & H4 & _). destruct (H4 _ _ Hp) as [c0 Hc0].
  assert (st' = settle p w finishedAt st) as Hst' by done.
  rewrite (settle_unfold _ _ _ _ _ Hp) in Hst'. cbv zeta in Hst'.
  rewrite Hw, (initiator_awaits _ _ _ Hc0) in Hst'. simpl in Hst'.
  assert (inFlight st' !! pop_key pop = None) as Hfl.
  { rewrite Hst'. simpl. apply lookup_delete_eq. }
  split; [by rewrite Hst'|]. split; [exact Hfl|].
  split; [rewrite Hst'; simpl; apply lookup_delete_eq|].
  split; [eauto|]. split.
  - intros x Hx Hxp. rewrite Hst'. simpl. apply elem_of_app. right.
    apply list_elem_of_In, in_map_iff. exists x. split.
    + unfold reply_of. by destruct (role x).
    + apply filter_In. split; [by apply list_elem_of_In|].
      unfold awaits. by apply Nat.eqb_eq.
  - intros c dateStr force now Hk Hmiss st''. subst st''. simpl.
    rewrite call_miss; [|by rewrite Hk]. rewrite Hk, Hfl. simpl. split; [done|].
    apply lookup_insert_eq.
Qed.

(** C10.  A forced call that arrives while a population for its key is in
    flight starts no population and changes neither cache nor [inFlight]: it
    awaits the promise in flight, and when that promise is fulfilled it
    returns its result with [cacheHit: false] and [deduped: true]. *)
Theorem force_defers_to_in_flight (pre : list Event) (c : nat) (dateStr : option string)
    (now : Z) (p : nat) :
  let st := run ttl init pre in
  inFlight st !! cacheKeyOf dateStr = Some p ->
  let st' := step ttl st (Call c dateStr true now) in
  console st' = console st
  /\ populations st' = populations st
  /\ inFlight st' = inFlight st
  /\ replies st' = replies st
  /\ awaiting st' = awaiting st ++ [{| caller := c; promise := p; role := Joiner |}]
  /\ exists pop, populations st !! p = Some pop /\ pop_key pop = cacheKeyOf dateStr
      /\ forall w finishedAt results,
           fetchAll (pop_dateStr pop) w = Returned results ->
           (c, Returned {| reply_data := results; fetchedAt := finishedAt;
                           fetchDurationMs := Some (finishedAt - startedAt pop)%Z;
                           cacheHit := Some false; deduped := Some true |})
           ∈ replies (step ttl st' (Settle p w finishedAt)).
Proof.
  intros st Hfl st'.
  assert (consistent st) as Hst by apply consistent_reachable.
  assert (st' = suspend c p Joiner st) as Hst'.
  { subst st'. simpl. rewrite call_miss; [|by left]. by rewrite Hfl. }
  rewrite Hst'. simpl. repeat (split; [done|]).
  destruct Hst as (H1 & _). destruct (H1 _ _ Hfl) as (pop & Hpop & Hk).
  exists pop. repeat (split; [done|]). intros w finishedAt results Hw.
  erewrite settle_unfold; [|exact Hpop]. cbv zeta. simpl. rewrite Hw. simpl.
  apply elem_of_app. right. rewrite List.filter_app, List.map_app. apply elem_of_app. right.
  simpl. unfold awaits at 1. simpl. rewrite Nat.eqb_refl. simpl. left.
Qed.

End Steps.

(** Three callers for today's snapshot, the second one forcing. *)
Lemma single_flight_witness :
  let st := run CACHE_TTL_index_js init [] in
  let cs := [(1, false, 1000%Z); (2, true, 1001%Z); (3, false, 1002%Z)] in
  let st1 := run CACHE_TTL_index_js st (arrivals None cs) in
  let st2 := step CACHE_TTL_index_js st1 (Settle (next_promise st) world_up 5000) in
  inFlight st !! cacheKeyOf None = None
  /\ console st1 = console st ++ [cacheKeyOf None]
  /\ console st2 = console st1
  /\ List.map (fun r => (r.1, outcome_of r.2)) (List.skipn (length (replies st)) (replies st2))
     = List.map (fun c => (c.1.1, results ← fetchAll None world_up; Returned (results, 5000%Z))) cs.
Proof.
  intros st cs st1 st2.
  assert (inFlight st !! cacheKeyOf None = None) as Hfl by reflexivity.
  destruct (single_flight CACHE_TTL_index_js [] None cs world_up 5000 Hfl)
    as (_ & H1 & _ & H3 & H4).
  - discriminate.
  - repeat constructor; right; reflexivity.
  - exact (conj Hfl (conj H1 (conj H3 H4))).
Defined.

(** A population for today that takes 4 seconds. *)
Lemma freshness_window_witness :
  let st := run CACHE_TTL_index_js init [] in
  let st1 := run CACHE_TTL_index_js st
               [Call 1 None false 1000; Settle (next_promise st) world_up (1000 + 4000)%Z] in
  let results := default [] (data <$> dataCache st1 !! "today") in
  fetchAll None world_up = Returned results
  /\ (lastUpdated <$> dataCache st1 !! "today") = Some 5000%Z
  /\ isFresh CACHE_TTL_index_js (dataCache st1 !! "today") 54999 = true
  /\ isFresh CACHE_TTL_index_js (dataCache st1 !! "today") 55000 = false
  /\ replies (step CACHE_TTL_index_js st1 (Call 2 None false 54999))
     = [(1, Returned {| reply_data := results; fetchedAt := 5000;
                        fetchDurationMs := Some 4000%Z; cacheHit := None; deduped := None |});
        (2, Returned {| reply_data := results; fetchedAt := 5000;
                        fetchDurationMs := None; cacheHit := Some true; deduped := None |})]
  /\ populations (step CACHE_TTL_index_js st1 (Call 2 None false 54999)) = populations st1
  /\ replies (step CACHE_TTL_index_js st1 (Call 2 None false 55000)) = replies st1
  /\ console (step CACHE_TTL_index_js st1 (Call 2 None false 55000)) = ["today"; "today"].
Proof.
  intros st st1 results.
  assert (fetchAll None world_up = Returned results) as Hw by (vm_compute; reflexivity).
  destruct (freshness_window CACHE_TTL_index_js [] None 1 1000 4000 world_up results)
    as (H1 & H2 & H3 & H4 & H5 & _); [reflexivity|reflexivity|exact Hw|discriminate|].
  change (cacheKeyOf None) with "today" in H1, H2, H4. fold st st1 in H1, H2, H3, H4, H5.
  split; [exact Hw|]. split; [rewrite H1; reflexivity|]. split; [|split].
  - apply H2. reflexivity.
  - apply not_true_iff_false. intros H. apply H2 in H. vm_compute in H. discriminate H.
  - destruct (H3 2 54999%Z ltac:(reflexivity)) as (Hr & _ & _ & Hp & _).
    destruct (H4 2 55000%Z ltac:(discriminate)) as (Hc & _ & Hr').
    split; [rewrite Hr, H5; reflexivity|]. split; [exact Hp|]. split; [exact Hr'|].
    rewrite Hc. reflexivity.
Defined.

(** C4, the claim as stated fails: with a population in flight for today, a
    forced call for today starts no population (nothing is printed, the
    pending populations are the same) and awaits the one in flight. *)
Lemma force_joins_the_population_in_flight :
  let st := run CACHE_TTL_index_js init [Call 1 None false 1000] in
  let st' := step CACHE_TTL_index_js st (Call 2 None true 1001) in
  inFlight st !! "today" = Some 0
  /\ console st' = console st
  /\ populations st' = populations st
  /\ awaiting st' = awaiting st ++ [{| caller := 2; promise := 0; role := Joiner |}].
Proof. repeat split. Qed.

(** A forced call for today one second after the snapshot for today was
    stored: the entry is fresh, and a new population is started. *)
Lemma force_is_never_a_cache_hit_witness :
  let pre := [Call 1 None false 1000; Settle 0 world_up 5000] in
  let st := run CACHE_TTL_index_js init pre in
  let st' := step CACHE_TTL_index_js st (Call 2 None true 6000) in
  isFresh CACHE_TTL_index_js (dataCache st !! "today") 6000 = true
  /\ inFlight st !! "today" = None
  /\ replies st' = replies st
  /\ console st' = console st ++ ["today"].
Proof.
  intros pre st st'.
  destruct (force_is_never_a_cache_hit CACHE_TTL_index_js pre 2 None 6000)
    as (H1 & _ & H3 & _).
  assert (inFlight st !! "today" = None) as Hfl by (vm_compute; reflexivity).
  destruct (H3 Hfl) as (Hc & _).
  split; [vm_compute; reflexivity|]. split; [exact Hfl|]. split; [exact H1|exact Hc].
Defined.

(** The browser does not start while the population for today runs. *)
Lemma population_failure_witness :
  let st := run CACHE_TTL_index_js init [Call 1 None false 1000; Call 2 None false 1001] in
  let st' := step CACHE_TTL_index_js st (Settle 0 world_launch_fails 5000) in
  dataCache st' = dataCache st
  /\ inFlight st' !! "today" = None
  /\ (1, Raised "Failed to launch the browser process!") ∈ replies st'
  /\ (2, Raised "Failed to launch the browser process!") ∈ replies st'.
Proof.
  intros st st'.
  destruct (population_failure CACHE_TTL_index_js
              [Call 1 None false 1000; Call 2 None false 1001] 0
              {| pop_key := "today"; pop_dateStr := None; startedAt := 1000 |}
              world_launch_fails 5000 "Failed to launch the browser process!")
    as (H1 & H2 & _ & _ & H5 & _); [reflexivity|reflexivity|].
  fold st st' in H1, H2, H5. split; [exact H1|]. split; [exact H2|]. split.
  - apply (H5 {| caller := 1; promise := 0; role := Initiator |}); [|reflexivity].
    vm_compute. left.
  - apply (H5 {| caller := 2; promise := 0; role := Joiner |}); [|reflexivity].
    vm_compute. right. left.
Defined.

(** A forced call for today while the population for today is in flight. *)
Lemma force_defers_to_in_flight_witness :
  let st := run CACHE_TTL_index_js init [Call 1 None false 1000] in
  let st' := step CACHE_TTL_index_js st (Call 2 None true 1001) in
  inFlight st !! cacheKeyOf None = Some 0
  /\ console st' = console st
  /\ awaiting st' = awaiting st ++ [{| caller := 2; promise := 0; role := Joiner |}].
Proof.
  intros st st'.
  assert (inFlight st !! cacheKeyOf None = Some 0) as Hfl by reflexivity.
  destruct (force_defers_to_in_flight CACHE_TTL_index_js [Call 1 None false 1000] 2 None 1001 0 Hfl)
    as (H1 & _ & _ & _ & H5 & _).
  exact (conj Hfl (conj H1 H5)).
Defined.

End CacheTheory.

Module CacheInvariants.
Import JsString Adapters Cache Routes.
Local Open Scope list_scope.

Section Steps.
Variable ttl : Z.

(** The three ways a call can go. *)
Lemma call_cases c dateStr force now st :
  (exists e, dataCache st !! cacheKeyOf dateStr = Some e /\ force = false
             /\ isFresh ttl (Some e) now = true
             /\ getAllLibraryData ttl c dateStr force now st =
                answer c (Returned {| reply_data := data e; fetchedAt := lastUpdated e;
                                      fetchDurationMs := None; cacheHit := Some true;
                                      deduped := None |}) st)
  \/ (exists p, inFlight st !! cacheKeyOf dateStr = Some p
                /\ getAllLibraryData ttl c dateStr force now st = suspend c p Joiner st)
  \/ (inFlight st !! cacheKeyOf dateStr = None
      /\ getAllLibraryData ttl c dateStr force now st =
         suspend c (next_promise st) Initiator (populate (cacheKeyOf dateStr) dateStr now st)).
Proof.
  unfold getAllLibraryData.
  destruct force; simpl.
  - destruct (inFlight st !! cacheKeyOf dateStr) as [p|] eqn:Hfl; eauto.
  - destruct (dataCache st !! cacheKeyOf dateStr) as [e|] eqn:He; simpl.
    + destruct (negb (lastUpdated e =? 0)%Z && (now - lastUpdated e <? ttl)%Z) eqn:Hf.
      * left. exists e. by rewrite Hf.
      * destruct (inFlight st !! cacheKeyOf dateStr) as [p|] eqn:Hfl; eauto.
    + destruct (inFlight st !! cacheKeyOf dateStr) as [p|] eqn:Hfl; eauto.
Qed.

Lemma run_app st evs evs' : run ttl st (evs ++ evs') = run ttl (run ttl st evs) evs'.
Proof. unfold run. apply fold_left_app. Qed.

Lemma run_snoc st evs ev : run ttl st (evs ++ [ev]) = step ttl (run ttl st evs) ev.
Proof. by rewrite run_app. Qed.

Lemma fst_reply_of result ws :
  List.map fst (List.map (reply_of result) ws) = List.map caller ws.
Proof. induction ws as [|w ws IH]; [done|]. simpl. by rewrite IH. Qed.

Lemma filter_split {A : Type} (f : A -> bool) (l : list A) :
  List.filter f l ++ List.filter (fun x => negb (f x)) l ≡ₚ l.
Proof.
  induction l as [|x l IH]; simpl; [done|].
  destruct (f x); simpl.
  - by constructor.
  - rewrite <- Permutation_middle. by constructor.
Qed.

(** What a step does to the entries of the cache. *)
Lemma step_dataCache st ev :
  dataCache (step ttl st ev) = dataCache st
  \/ exists p w finishedAt pop results,
       ev = Settle p w finishedAt /\ populations st !! p = Some pop
       /\ fetchAll (pop_dateStr pop) w = Returned results
       /\ dataCache (step ttl st ev) =
          <[pop_key pop := {| lastUpdated := finishedAt; data := results;
                              lastFetchDurationMs := (finishedAt - startedAt pop)%Z |}]>
            (dataCache st).
Proof.
  destruct ev as [c d force now|p w t]; simpl.
  - left. destruct (call_cases c d force now st) as [(e & _ & _ & _ & ->)|[(p & _ & ->)|[_ ->]]]; done.
  - destruct (populations st !! p) as [pop|] eqn:Hp.
    + rewrite (CacheTheory.settle_unfold _ _ _ _ _ Hp). cbv zeta. simpl.
      destruct (fetchAll (pop_dateStr pop) w) as [results|m] eqn:Hf; [|by left].
      right. by exists p, w, t, pop, results.
    + left. unfold settle. by rewrite Hp.
Qed.

(** What a step adds to the replies. *)
Lemma step_replies st ev :
  match ev with
  | Call c dateStr force now =>
      replies (step ttl st ev) = replies st
      \/ exists e, dataCache st !! cacheKeyOf dateStr = Some e
                   /\ isFresh ttl (Some e) now = true
                   /\ replies (step ttl st ev) =
                      replies st ++ [(c, Returned {| reply_data := data e;
                                                     fetchedAt := lastUpdated e;
                                                     fetchDurationMs := None;
                                                     cacheHit := Some true;
                                                     deduped := None |})]
  | Settle p w finishedAt =>
      match populations st !! p with
      | None => replies (step ttl st ev) = replies st
      | Some pop =>
          replies (step ttl st ev) =
          replies st ++ List.map (reply_of
            (results ← fetchAll (pop_dateStr pop) w;
             Returned {| reply_data := results; fetchedAt := finishedAt;
                         fetchDurationMs := Some (finishedAt - startedAt pop)%Z;
                         cacheHit := None; deduped := None |}))
            (List.filter (awaits p) (awaiting st))
      end
  end.
Proof.
  destruct ev as [c d force now|p w t]; simpl.
  - destruct (call_cases c d force now st) as [(e & He & _ & Hf & ->)|[(p & _ & ->)|[_ ->]]];
      simpl; eauto.
  - destruct (populations st !! p) as [pop|] eqn:Hp.
    + by rewrite (CacheTheory.settle_unfold _ _ _ _ _ Hp).
    + unfold settle. by rewrite Hp.
Qed.

(** X1.  A step works on one key only: a call on the key of its date, the
    end of a population on the key the population was started for.  The
    entry of any other key in [dataCache] and its promise in [inFlight] are
    what they were before the step.  So is what the expression
    [dataCache[k]] reads for any other key [k], unless the step works on
    the key [__proto__]: the end of a population for that key gives
    [dataCache] a new prototype, and changes what is read under the names of
    the fields of an entry. *)
Theorem other_keys_untouched (st : State) (ev : Event) (k : string) :
  key_of st ev <> Some k ->
  dataCache (step ttl st ev) !! k = dataCache st !! k
  /\ inFlight (step ttl st ev) !! k = inFlight st !! k
  /\ (key_of st ev <> Some "__proto__" -> read k (step ttl st ev) = read k st).
Proof.
  assert (forall k', key_of st ev <> Some k' ->
            dataCache (step ttl st ev) !! k' = dataCache st !! k'
            /\ inFlight (step ttl st ev) !! k' = inFlight st !! k') as Hown.
  { intros k' Hk. destruct ev as [c d force now|p w t]; simpl in *.
    - destruct (call_cases c d force now st) as [(e & _ & _ & _ & ->)|[(p & _ & ->)|[_ ->]]];
        simpl; try done.
      split; [done|]. apply lookup_insert_ne. congruence.
    - destruct (populations st !! p) as [pop|] eqn:Hp; simpl in Hk.
      + rewrite (CacheTheory.settle_unfold _ _ _ _ _ Hp). cbv zeta. simpl.
        assert (pop_key pop <> k') as Hne by congruence.
        split.
        * destruct (fetchAll _ _); [by apply lookup_insert_ne|done].
        * destruct (existsb _ _); [by apply lookup_delete_ne|done].
      + unfold settle. by rewrite Hp. }
  intros Hk. destruct (Hown k Hk) as [H1 H2]. split; [done|]. split; [done|].
  intros Hproto. unfold read. by rewrite H1, (proj1 (Hown "__proto__" Hproto)).
Qed.

(** The end of a population for the date [__proto__] changes what is read
    under the key [lastUpdated], of which the cache has no entry. *)
Lemma prototype_entry_is_read_under_other_keys :
  let st := run CACHE_TTL_index_js init [Call 1 (Some "__proto__") false 10] in
  key_of st (Settle 0 world_up 20) = Some "__proto__"
  /\ read "lastUpdated" st = Undefined
  /\ read "lastUpdated" (step CACHE_TTL_index_js st (Settle 0 world_up 20)) = ANumber 20
  /\ read "constructor" st = AMember.
Proof. repeat split; vm_compute; reflexivity. Qed.

Lemma step_conserves st ev :
  List.map fst (replies (step ttl st ev)) ++ List.map caller (awaiting (step ttl st ev))
  ≡ₚ (List.map fst (replies st) ++ List.map caller (awaiting st)) ++ callers [ev].
Proof.
  destruct ev as [c d force now|p w t]; simpl.
  - destruct (call_cases c d force now st) as [(e & _ & _ & _ & ->)|[(p & _ & ->)|[_ ->]]];
      simpl; rewrite ?List.map_app; simpl.
    + rewrite <- !app_assoc. apply Permutation_app_head. simpl.
      by rewrite Permutation_app_comm.
    + by rewrite <- !app_assoc.
    + by rewrite <- !app_assoc.
  - rewrite app_nil_r.
    destruct (populations st !! p) as [pop|] eqn:Hp.
    + rewrite (CacheTheory.settle_unfold _ _ _ _ _ Hp). cbv zeta. simpl.
      rewrite List.map_app, fst_reply_of, <- app_assoc. apply Permutation_app_head.
      rewrite <- List.map_app. apply Permutation_map, filter_split.
    + unfold settle. by rewrite Hp.
Qed.

Lemma callers_app evs evs' : callers (evs ++ evs') = callers evs ++ callers evs'.
Proof. unfold callers. apply omap_app. Qed.

Lemma run_conserves evs st :
  List.map fst (replies (run ttl st evs)) ++ List.map caller (awaiting (run ttl st evs))
  ≡ₚ (List.map fst (replies st) ++ List.map caller (awaiting st)) ++ callers evs.
Proof.
  revert st. induction evs as [|ev evs IH]; intros st.
  - simpl. by rewrite app_nil_r.
  - change (run ttl st (ev :: evs)) with (run ttl (step ttl st ev) evs).
    rewrite IH, step_conserves. change (ev :: evs) with ([ev] ++ evs).
    by rewrite callers_app, <- !app_assoc.
Qed.

(** X2.  No call is lost and none is answered twice: after any sequence of
    calls and ends of populations from the initial state, the callers that
    were answered together with the callers still suspended are the callers
    of the calls made, each as often as it called. *)
Theorem every_call_is_answered_or_waiting (evs : list Event) :
  List.map fst (replies (run ttl init evs)) ++ List.map caller (awaiting (run ttl init evs))
  ≡ₚ callers evs.
Proof. by rewrite run_conserves. Qed.

Lemma settle_populations p w t st :
  populations (settle p w t st) = delete p (populations st).
Proof.
  destruct (populations st !! p) as [pop|] eqn:Hp.
  - by rewrite (CacheTheory.settle_unfold _ _ _ _ _ Hp).
  - unfold settle. rewrite Hp. symmetry. by apply delete_id.
Qed.

Lemma settlements_populations ps st q :
  In q (List.map (fun s : nat * World * Z => s.1.1) ps) ->
  populations (run ttl st (settlements ps)) !! q = None.
Proof.
  revert st. induction ps as [|s ps IH]; intros st; [done|].
  simpl. intros [<-|Hq].
  - clear IH. generalize (settle_populations s.1.1 s.1.2 s.2 st).
    generalize (settle s.1.1 s.1.2 s.2 st). intros st' Hst'.
    assert (populations st' !! s.1.1 = None) as H0 by (rewrite Hst'; apply lookup_delete_eq).
    clear Hst'. revert st' H0. induction ps as [|s' ps IH]; intros st' H0; [done|].
    simpl. apply IH. rewrite settle_populations.
    rewrite lookup_delete. by case_decide.
  - by apply IH.
Qed.

Lemma callers_settlements ps : callers (settlements ps) = [].
Proof. induction ps as [|s ps IH]; [done|]. by simpl. Qed.

Lemma settlements_unknown ps st q :
  populations st !! q = None -> populations (run ttl st (settlements ps)) !! q = None.
Proof.
  revert st. induction ps as [|s ps IH]; intros st H0; [done|].
  simpl. apply IH. rewrite settle_populations, lookup_delete. by case_decide.
Qed.

(** X3.  Every call gets its answer.  Take any state the server can reach
    and let every population that is in flight there come to its end, in
    any order and with any outcome.  Then no call is left suspended,
    [inFlight] is empty, and the callers answered are the callers of the
    calls made. *)
Theorem settling_every_population_answers_every_call
    (evs : list Event) (ps : list (nat * World * Z)) :
  (forall p, is_Some (populations (run ttl init evs) !! p) ->
             In p (List.map (fun s : nat * World * Z => s.1.1) ps)) ->
  let st := run ttl init (evs ++ settlements ps) in
  awaiting st = [] /\ inFlight st = ∅ /\ List.map fst (replies st) ≡ₚ callers evs.
Proof.
  intros Hall st.
  assert (consistent st) as (H1 & _ & _ & _ & H5) by apply CacheTheory.consistent_reachable.
  assert (forall q, populations st !! q = None) as Hnone.
  { intros q. unfold st. rewrite run_app.
    destruct (populations (run ttl init evs) !! q) as [pop|] eqn:Hq.
    - apply settlements_populations, Hall. by rewrite Hq.
    - by apply settlements_unknown. }
  assert (awaiting st = []) as Haw.
  { destruct (awaiting st) as [|x l] eqn:Hl; [done|].
    destruct (H5 x) as [pop Hpop]; [left|]. by rewrite Hnone in Hpop. }
  split; [done|]. split.
  - apply map_eq. intros k. rewrite lookup_empty.
    destruct (inFlight st !! k) as [p|] eqn:Hk; [|done].
    destruct (H1 _ _ Hk) as (pop & Hpop & _). by rewrite Hnone in Hpop.
  - pose proof (run_conserves (evs ++ settlements ps) init) as Hc.
    fold st in Hc. rewrite Haw, callers_app, callers_settlements in Hc.
    simpl in Hc. by rewrite !app_nil_r in Hc.
Qed.

Lemma clock_runs_forward_app t0 evs evs' :
  clock_runs_forward t0 (evs ++ evs') -> clock_runs_forward t0 evs.
Proof.
  revert t0. induction evs as [|ev evs IH]; intros t0; simpl; [done|].
  intros [H0 H]. split; [done|]. by apply IH.
Qed.

Lemma step_keeps_entry st ev k e :
  dataCache st !! k = Some e ->
  exists e', dataCache (step ttl st ev) !! k = Some e'
             /\ (e' = e \/ lastUpdated e' = clock_of ev).
Proof.
  intros He. destruct (step_dataCache st ev) as [->|(p & w & t & pop & results & -> & _ & _ & ->)].
  - eauto.
  - destruct (decide (pop_key pop = k)) as [<-|Hne].
    + rewrite lookup_insert_eq. eexists. split; [done|]. by right.
    + rewrite lookup_insert_ne; eauto.
Qed.

Lemma step_stamps_below t st ev :
  stamps_below t st -> (t <= clock_of ev)%Z -> stamps_below (clock_of ev) (step ttl st ev).
Proof.
  intros Hst Ht k e.
  destruct (step_dataCache st ev) as [->|(p & w & t' & pop & results & -> & _ & _ & ->)].
  - intros He. apply Hst in He. lia.
  - destruct (decide (pop_key pop = k)) as [<-|Hne].
    + rewrite lookup_insert_eq. intros [= <-]. simpl. lia.
    + rewrite lookup_insert_ne; [|done]. intros He. apply Hst in He. simpl in *. lia.
Qed.

Lemma run_stamps t evs st k e :
  clock_runs_forward t evs -> stamps_below t st ->
  dataCache st !! k = Some e ->
  exists e', dataCache (run ttl st evs) !! k = Some e' /\ (lastUpdated e <= lastUpdated e')%Z.
Proof.
  revert t st e. induction evs as [|ev evs IH]; intros t st e Hc Hst He.
  - exists e. split; [done|lia].
  - destruct Hc as [Ht Hc].
    destruct (step_keeps_entry st ev k e He) as (e1 & He1 & Hor).
    destruct (IH (clock_of ev) (step ttl st ev) e1 Hc) as (e' & He' & Hle); [|done|].
    { by apply step_stamps_below with t. }
    exists e'. split; [done|].
    destruct Hor as [->|Heq]; [done|]. apply Hst in He. lia.
Qed.

Lemma run_stamps_below t evs st :
  clock_runs_forward t evs -> stamps_below t st ->
  exists t', stamps_below t' (run ttl st evs)
             /\ forall evs', clock_runs_forward t (evs ++ evs') -> clock_runs_forward t' evs'.
Proof.
  revert t st. induction evs as [|ev evs IH]; intros t st Hc Hst.
  - exists t. split; [done|]. by intros.
  - destruct Hc as [Ht Hc].
    destruct (IH (clock_of ev) (step ttl st ev) Hc) as (t' & H1 & H2).
    { by apply step_stamps_below with t. }
    exists t'. split; [done|]. intros evs' [_ H]. by apply H2.
Qed.

(** X4.  While the clock does not go back, a snapshot is never evicted and
    never replaced by an older one: an entry that [dataCache] holds after a
    run from the initial state is still there after any continuation of
    the run, with a time stamp that is not smaller. *)
Theorem snapshots_only_get_newer (t0 : Z) (evs evs' : list Event) (k : string) (e : Entry) :
  clock_runs_forward t0 (evs ++ evs') ->
  dataCache (run ttl init evs) !! k = Some e ->
  exists e', dataCache (run ttl init (evs ++ evs')) !! k = Some e'
             /\ (lastUpdated e <= lastUpdated e')%Z.
Proof.
  intros Hc He. rewrite run_app.
  pose proof (clock_runs_forward_app _ _ _ Hc) as Hc1.
  destruct (run_stamps_below t0 evs init Hc1) as (t' & Hst & Hnext).
  { intros k' e'. simpl. by rewrite lookup_empty. }
  apply run_stamps with t'; [by apply Hnext|done|done].
Qed.

Lemma completed_snoc evs ev results t : completed evs results t -> completed (evs ++ [ev]) results t.
Proof.
  intros (p & w & d & Hin & Hf). exists p, w, d. split; [|done].
  apply in_or_app. by left.
Qed.

Lemma provenance evs :
  (forall k e, dataCache (run ttl init evs) !! k = Some e ->
               completed evs (data e) (lastUpdated e))
  /\ (forall c r, In (c, Returned r) (replies (run ttl init evs)) ->
                  completed evs (reply_data r) (fetchedAt r)).
Proof.
  induction evs as [|ev evs [IHc IHr]] using rev_ind.
  - split; intros *; simpl; [by rewrite lookup_empty|done].
  - rewrite run_snoc. set (st := run ttl init evs) in *. split.
    + intros k e.
      destruct (step_dataCache st ev) as [->|(p & w & t & pop & results & -> & Hp & Hf & ->)].
      * intros He. by apply completed_snoc, IHc with k.
      * destruct (decide (pop_key pop = k)) as [<-|Hne].
        -- rewrite lookup_insert_eq. intros [= <-]. simpl.
           exists p, w, (pop_dateStr pop). split; [|done].
           apply in_or_app. right. by left.
        -- rewrite lookup_insert_ne; [|done]. intros He. by apply completed_snoc, IHc with k.
    + intros c r Hin. pose proof (step_replies st ev) as Hrep.
      destruct ev as [c' d force now|p w t].
      * destruct Hrep as [Hrep|(e & He & _ & Hrep)]; rewrite Hrep in Hin.
        -- by apply completed_snoc, IHr with c.
        -- apply in_app_or in Hin as [Hin|[[= <- <-]|[]]].
           ++ by apply completed_snoc, IHr with c.
           ++ simpl. by apply completed_snoc, IHc with (cacheKeyOf d).
      * destruct (populations st !! p) as [pop|] eqn:Hp; rewrite Hrep in Hin.
        -- apply in_app_or in Hin as [Hin|Hin]; [by apply completed_snoc, IHr with c|].
           apply in_map_iff in Hin as (x & Hx & _).
           destruct (fetchAll (pop_dateStr pop) w) as [results|m] eqn:Hf.
           ++ assert (reply_data r = results /\ fetchedAt r = t) as [-> ->].
              { unfold reply_of in Hx. destruct (role x); simpl in Hx;
                  injection Hx as _ <-; done. }
              exists p, w, (pop_dateStr pop). split; [|done].
              apply in_or_app. right. by left.
           ++ unfold reply_of in Hx. destruct (role x); simpl in Hx; discriminate.
        -- by apply completed_snoc, IHr with c.
Qed.

(** X5.  Every snapshot handed out was really fetched: whatever a call
    resolves to after a run from the initial state is, with its
    [fetchedAt], the list that the adapters returned in a population of the
    run and the clock reading at which that population came to its end. *)
Theorem every_reply_is_a_completed_population (evs : list Event) (c : nat) (r : Reply) :
  In (c, Returned r) (replies (run ttl init evs)) ->
  exists p w d, In (Settle p w (fetchedAt r)) evs /\ fetchAll d w = Returned (reply_data r).
Proof. intros Hin. by apply (proj2 (provenance evs)) in Hin. Qed.

(** X6.  The age that [GET /api/libraries] reports is the age of the
    snapshot it delivers.  When a step answers a call with a snapshot, the
    entry of the key holds at that moment the same data and the same time
    stamp; so the handler computes [cacheAgeMs] as its clock reading minus
    [fetchedAtMs] (as [null] for the time stamp 0), and it always finds a
    fetch duration. *)
Theorem libraries_age_is_the_age_of_the_reply
    (st : State) (ev : Event) (k : string) (c : nat) (r : Reply) (now : Z) :
  key_of st ev = Some k ->
  In (c, Returned r) (List.skipn (length (replies st)) (replies (step ttl st ev))) ->
  let body := libraries_json r (dataCache (step ttl st ev) !! k) now in
  data <$> dataCache (step ttl st ev) !! k = Some (json_data body)
  /\ cacheAgeMs body = (if (fetchedAtMs body =? 0)%Z then None
                        else Some (serverNowMs body - fetchedAtMs body)%Z)
  /\ is_Some (json_fetchDurationMs body).
Proof.
  intros Hk Hin.
  assert (exists e, dataCache (step ttl st ev) !! k = Some e
                    /\ data e = reply_data r /\ lastUpdated e = fetchedAt r)
    as (e & He & Hd & Ht).
  { pose proof (step_replies st ev) as Hrep.
    destruct ev as [c' d force now'|p w t]; simpl in Hk.
    - injection Hk as <-.
      destruct Hrep as [Hrep|(e & He & _ & Hrep)]; rewrite Hrep in Hin.
      + by rewrite skipn_all in Hin.
      + rewrite skipn_app, skipn_all, Nat.sub_diag in Hin. simpl in Hin.
        destruct Hin as [[= <- <-]|[]]. exists e. split; [|done].
        by destruct (step_dataCache st (Call c' d force now')) as [->|(? & ? & ? & ? & ? & [=] & _)].
    - destruct (populations st !! p) as [pop|] eqn:Hp; [|done].
      injection Hk as <-. rewrite Hrep in Hin.
      rewrite skipn_app, skipn_all, Nat.sub_diag in Hin. simpl in Hin.
      apply in_map_iff in Hin as (x & Hx & _).
      simpl. rewrite (CacheTheory.settle_unfold _ _ _ _ _ Hp). cbv zeta. simpl.
      destruct (fetchAll (pop_dateStr pop) w) as [results|m] eqn:Hf.
      + rewrite lookup_insert_eq. eexists. split; [done|]. simpl.
        unfold reply_of in Hx. destruct (role x); simpl in Hx; injection Hx as _ <-; done.
      + unfold reply_of in Hx. destruct (role x); simpl in Hx; discriminate. }
  simpl. rewrite He. simpl. rewrite Hd, Ht. eauto.
Qed.

End Steps.

Lemma other_keys_untouched_witness :
  let st := run CACHE_TTL_index_js init [Call 1 None false 10; Call 2 (Some "2026-01-21") false 12] in
  key_of st (Settle 0 world_up 20) <> Some "2026-01-21"
  /\ key_of st (Settle 0 world_up 20) <> Some "__proto__"
  /\ dataCache (step CACHE_TTL_index_js st (Settle 0 world_up 20)) !! "2026-01-21"
     = dataCache st !! "2026-01-21"
  /\ inFlight (step CACHE_TTL_index_js st (Settle 0 world_up 20)) !! "2026-01-21"
     = inFlight st !! "2026-01-21"
  /\ read "2026-01-21" (step CACHE_TTL_index_js st (Settle 0 world_up 20))
     = read "2026-01-21" st.
Proof.
  cbv zeta.
  assert (key_of (run CACHE_TTL_index_js init
                    [Call 1 None false 10; Call 2 (Some "2026-01-21") false 12])
                 (Settle 0 world_up 20) <> Some "2026-01-21") as H
    by (vm_compute; discriminate).
  assert (key_of (run CACHE_TTL_index_js init
                    [Call 1 None false 10; Call 2 (Some "2026-01-21") false 12])
                 (Settle 0 world_up 20) <> Some "__proto__") as H'
    by (vm_compute; discriminate).
  destruct (other_keys_untouched CACHE_TTL_index_js _ _ _ H) as (H1 & H2 & H3).
  split; [exact H|]. split; [exact H'|]. split; [exact H1|]. split; [exact H2|exact (H3 H')].
Defined.

Lemma settling_every_population_answers_every_call_witness :
  let evs := [Call 1 None false 10; Call 2 None true 12; Call 3 (Some "2026-01-21") false 14] in
  let ps := [(1, world_up, 20%Z); (0, world_launch_fails, 30%Z)] in
  (forall p, is_Some (populations (run CACHE_TTL_part_000 init evs) !! p) ->
             In p (List.map (fun s : nat * World * Z => s.1.1) ps))
  /\ (let st := run CACHE_TTL_part_000 init (evs ++ settlements ps) in
      awaiting st = [] /\ inFlight st = ∅ /\ List.map fst (replies st) ≡ₚ callers evs).
Proof.
  cbv zeta.
  assert (forall p, is_Some (populations (run CACHE_TTL_part_000 init
            [Call 1 None false 10; Call 2 None true 12; Call 3 (Some "2026-01-21") false 14]) !! p) ->
          In p (List.map (fun s : nat * World * Z => s.1.1)
                  [(1, world_up, 20%Z); (0, world_launch_fails, 30%Z)])) as H.
  { intros p [pop Hp].
    destruct (CacheTheory.consistent_reachable CACHE_TTL_part_000
                [Call 1 None false 10; Call 2 None true 12; Call 3 (Some "2026-01-21") false 14])
      as (_ & _ & H3 & _).
    apply H3 in Hp.
    assert (next_promise (run CACHE_TTL_part_000 init
              [Call 1 None false 10; Call 2 None true 12; Call 3 (Some "2026-01-21") false 14]) = 2)
      as Hn by (vm_compute; reflexivity).
    rewrite Hn in Hp. simpl. lia. }
  split; [exact H|exact (settling_every_population_answers_every_call CACHE_TTL_part_000 _ _ H)].
Defined.

Lemma snapshots_only_get_newer_witness :
  let evs := [Call 1 None false 10; Settle 0 world_up 20] in
  let evs' := [Call 2 None true 30; Settle 1 world_up 40] in
  let e := {| lastUpdated := 20; data := snapshot_up; lastFetchDurationMs := 10 |} in
  clock_runs_forward 0 (evs ++ evs')
  /\ dataCache (run CACHE_TTL_index_js init evs) !! "today" = Some e
  /\ exists e', dataCache (run CACHE_TTL_index_js init (evs ++ evs')) !! "today" = Some e'
                /\ (lastUpdated e <= lastUpdated e')%Z.
Proof.
  cbv zeta.
  assert (clock_runs_forward 0 ([Call 1 None false 10; Settle 0 world_up 20]
                                ++ [Call 2 None true 30; Settle 1 world_up 40])) as Hc
    by (simpl; lia).
  assert (dataCache (run CACHE_TTL_index_js init [Call 1 None false 10; Settle 0 world_up 20])
            !! "today"
          = Some {| lastUpdated := 20; data := snapshot_up; lastFetchDurationMs := 10 |}) as He
    by (vm_compute; reflexivity).
  split; [exact Hc|]. split; [exact He|].
  exact (snapshots_only_get_newer CACHE_TTL_index_js 0 _ _ _ _ Hc He).
Defined.

Lemma every_reply_is_a_completed_population_witness :
  let evs := [Call 1 None false 10; Settle 0 world_up 20] in
  In (1, Returned reply_up) (replies (run CACHE_TTL_index_js init evs))
  /\ exists p w d, In (Settle p w (fetchedAt reply_up)) evs
                   /\ fetchAll d w = Returned (reply_data reply_up).
Proof.
  cbv zeta.
  assert (In (1, Returned reply_up)
             (replies (run CACHE_TTL_index_js init [Call 1 None false 10; Settle 0 world_up 20])))
    as H by (vm_compute; left; reflexivity).
  split; [exact H|exact (every_reply_is_a_completed_population CACHE_TTL_index_js _ _ _ H)].
Defined.

Lemma libraries_age_is_the_age_of_the_reply_witness :
  let st := run CACHE_TTL_index_js init [Call 1 None false 10] in
  let ev := Settle 0 world_up 20 in
  key_of st ev = Some "today"
  /\ In (1, Returned reply_up)
        (List.skipn (length (replies st)) (replies (step CACHE_TTL_index_js st ev)))
  /\ (let body := libraries_json reply_up (dataCache (step CACHE_TTL_index_js st ev) !! "today") 25 in
      data <$> dataCache (step CACHE_TTL_index_js st ev) !! "today" = Some (json_data body)
      /\ cacheAgeMs body = (if (fetchedAtMs body =? 0)%Z then None
                            else Some (serverNowMs body - fetchedAtMs body)%Z)
      /\ is_Some (json_fetchDurationMs body)).
Proof.
  cbv zeta.
  assert (key_of (run CACHE_TTL_index_js init [Call 1 None false 10]) (Settle 0 world_up 20)
          = Some "today") as Hk by (vm_compute; reflexivity).
  assert (In (1, Returned reply_up)
            (List.skipn (length (replies (run CACHE_TTL_index_js init [Call 1 None false 10])))
               (replies (step CACHE_TTL_index_js (run CACHE_TTL_index_js init [Call 1 None false 10])
                           (Settle 0 world_up 20))))) as Hin
    by (vm_compute; left; reflexivity).
  split; [exact Hk|]. split; [exact Hin|].
  exact (libraries_age_is_the_age_of_the_reply CACHE_TTL_index_js _ _ _ _ _ 25 Hk Hin).
Defined.

End CacheInvariants.

Module RouteTheory.
Import JsString Adapters Cache Routes.
Local Open Scope list_scope.

Lemma delete_entry_plain (cacheKey : string) (st : State) :
  cacheKey <> "__proto__" ->
  delete_entry cacheKey st
  = {| dataCache := delete cacheKey (dataCache st); inFlight := inFlight st;
       populations := populations st; awaiting := awaiting st;
       next_promise := next_promise st; console := console st; replies := replies st |}.
Proof.
  intros H. unfold delete_entry. by destruct (String.eqb_spec cacheKey "__proto__").
Qed.

(** X7.  For any key but [__proto__], the two copies of [POST /api/refresh]
    start or join the same population and suspend the caller in the same
    way; the only difference is that [server/index.js] has dropped the old
    entry of the key from [dataCache] by then, while the other copy leaves
    it in place until the population has come to its end.  Under the key
    [__proto__] the [delete] of [server/index.js] removes nothing, and its
    refresh is an ordinary call that is not forced. *)
Theorem refresh_routes_differ_by_the_dropped_entry
    (c : nat) (dateStr : option string) (now : Z) (st : State) :
  (cacheKeyOf dateStr <> "__proto__" ->
   refresh_index_js c dateStr now st
   = {| dataCache := delete (cacheKeyOf dateStr)
                       (dataCache (refresh_part_000 c dateStr now st));
        inFlight := inFlight (refresh_part_000 c dateStr now st);
        populations := populations (refresh_part_000 c dateStr now st);
        awaiting := awaiting (refresh_part_000 c dateStr now st);
        next_promise := next_promise (refresh_part_000 c dateStr now st);
        console := console (refresh_part_000 c dateStr now st);
        replies := replies (refresh_part_000 c dateStr now st) |})
  /\ (cacheKeyOf dateStr = "__proto__" ->
      refresh_index_js c dateStr now st
      = getAllLibraryData CACHE_TTL_index_js c dateStr false now st).
Proof.
  split.
  - intros Hk. unfold refresh_index_js, refresh_part_000, getAllLibraryData.
    rewrite (delete_entry_plain _ _ Hk).
    cbn [dataCache inFlight negb andb].
    rewrite lookup_delete_eq. cbn [isFresh andb].
    destruct (inFlight st !! cacheKeyOf dateStr) as [p|]; reflexivity.
  - intros Hk. unfold refresh_index_js, delete_entry. by rewrite Hk.
Qed.

Lemma refresh_routes_differ_by_the_dropped_entry_witness :
  let st := run CACHE_TTL_index_js init [Call 1 None false 10; Settle 0 world_up 20] in
  let proto := run CACHE_TTL_index_js init
                 [Call 1 (Some "__proto__") false 10; Settle 0 world_up 20] in
  dataCache (refresh_index_js 2 None 30 st) !! "today" = None
  /\ is_Some (dataCache (refresh_part_000 2 None 30 st) !! "today")
  /\ awaiting (refresh_index_js 2 None 30 st) = awaiting (refresh_part_000 2 None 30 st)
  /\ List.map (fun r => (r.1, match r.2 with Returned x => cacheHit x | Raised _ => None end))
       (replies (refresh_index_js 2 (Some "__proto__") 30 proto))
     = [(1, None); (2, Some true)].
Proof.
  cbv zeta.
  destruct (refresh_routes_differ_by_the_dropped_entry 2 None 30
              (run CACHE_TTL_index_js init [Call 1 None false 10; Settle 0 world_up 20]))
    as [H _].
  destruct (refresh_routes_differ_by_the_dropped_entry 2 (Some "__proto__") 30
              (run CACHE_TTL_index_js init
                 [Call 1 (Some "__proto__") false 10; Settle 0 world_up 20]))
    as [_ H'].
  assert (cacheKeyOf None <> "__proto__") as Hk by (cbv; discriminate).
  assert (cacheKeyOf (Some "__proto__") = "__proto__") as Hk' by reflexivity.
  specialize (H Hk). specialize (H' Hk').
  split; [rewrite H; apply lookup_delete_eq|]. split; [vm_compute; eauto|].
  split; [by rewrite H|]. rewrite H'. vm_compute. reflexivity.
Defined.

Lemma refresh_index_js_in_flight c dateStr now st :
  cacheKeyOf dateStr <> "__proto__" ->
  is_Some (inFlight (refresh_index_js c dateStr now st) !! cacheKeyOf dateStr)
  /\ dataCache (refresh_index_js c dateStr now st) !! cacheKeyOf dateStr = None.
Proof.
  intros Hk. unfold refresh_index_js, getAllLibraryData.
  rewrite (delete_entry_plain _ _ Hk).
  cbn [dataCache inFlight negb andb].
  rewrite lookup_delete_eq. cbn [isFresh andb].
  destruct (inFlight st !! cacheKeyOf dateStr) as [p|] eqn:Hfl; simpl.
  - rewrite Hfl, lookup_delete_eq. eauto.
  - rewrite lookup_insert_eq, lookup_delete_eq. eauto.
Qed.

(** X8.  After a refresh by [server/index.js] for any key but [__proto__]
    nobody is served the old snapshot: the entry of the key is gone, and
    every call for the key that follows the refresh, forced or not and at any
    clock reading, gets no reply and starts no population, but is suspended
    on the population in flight.  After a refresh by the other copy, a call
    that is not forced is still answered from the entry that was there, as
    long as that entry is fresh.  A refresh by [server/index.js] for the key
    [__proto__] is itself answered from the entry that was there, when that
    is fresh. *)
Theorem refresh_index_js_hides_the_old_snapshot
    (ttl : Z) (c c' : nat) (dateStr : option string) (now now' : Z) (st : State) (e : Entry) :
  dataCache st !! cacheKeyOf dateStr = Some e ->
  isFresh ttl (Some e) now' = true ->
  let hit caller :=
    (caller, Returned {| reply_data := data e; fetchedAt := lastUpdated e;
                         fetchDurationMs := None; cacheHit := Some true;
                         deduped := None |}) in
  (cacheKeyOf dateStr <> "__proto__" ->
   forall force,
     let st1 := refresh_index_js c dateStr now st in
     let st2 := getAllLibraryData ttl c' dateStr force now' st1 in
     dataCache st1 !! cacheKeyOf dateStr = None
     /\ replies st2 = replies st1
     /\ populations st2 = populations st1
     /\ console st2 = console st1
     /\ exists p, inFlight st1 !! cacheKeyOf dateStr = Some p
                  /\ awaiting st2
                     = awaiting st1 ++ [{| caller := c'; promise := p; role := Joiner |}])
  /\ (let st1 := refresh_part_000 c dateStr now st in
      let st2 := getAllLibraryData ttl c' dateStr false now' st1 in
      replies st2 = replies st1 ++ [hit c']
      /\ awaiting st2 = awaiting st1
      /\ populations st2 = populations st1)
  /\ (cacheKeyOf dateStr = "__proto__" ->
      isFresh CACHE_TTL_index_js (Some e) now = true ->
      let st1 := refresh_index_js c dateStr now st in
      replies st1 = replies st ++ [hit c]
      /\ populations st1 = populations st
      /\ dataCache st1 = dataCache st).
Proof.
  intros He Hf hit. split; [|split].
  - intros Hk force st1 st2.
    destruct (refresh_index_js_in_flight c dateStr now st Hk) as [[p Hp] Hnone].
    fold st1 in Hp, Hnone. split; [done|].
    assert (st2 = suspend c' p Joiner st1) as ->.
    { subst st2. rewrite CacheTheory.call_miss; [by rewrite Hp|]. right. by rewrite Hnone. }
    cbn [suspend replies populations console awaiting]. eauto 8.
  - intros st1 st2.
    assert (st2 = answer c' (Returned {| reply_data := data e; fetchedAt := lastUpdated e;
                                         fetchDurationMs := None; cacheHit := Some true;
                                         deduped := None |}) st1) as ->; [|done].
    subst st2. apply CacheTheory.call_hit; [|done].
    subst st1. unfold refresh_part_000.
    destruct (CacheInvariants.call_cases CACHE_TTL_part_000 c dateStr true now st)
      as [(e' & _ & [=] & _)|[(p & _ & ->)|[_ ->]]]; done.
  - intros Hk Hf' st1. subst st1. unfold refresh_index_js, delete_entry.
    rewrite Hk. cbn [String.eqb Ascii.eqb Bool.eqb].
    by rewrite (CacheTheory.call_hit _ _ _ _ _ _ He Hf').
Qed.

Lemma refresh_index_js_hides_the_old_snapshot_witness :
  let st := run CACHE_TTL_index_js init [Call 1 None false 10; Settle 0 world_up 20] in
  let st1 := refresh_index_js 2 None 30 st in
  let st1' := refresh_part_000 2 None 30 st in
  (forall force,
     replies (getAllLibraryData CACHE_TTL_index_js 3 None force 40 st1) = replies st1)
  /\ replies (getAllLibraryData CACHE_TTL_index_js 3 None false 40 st1')
     = replies st1'
       ++ [(3, Returned {| reply_data := snapshot_up; fetchedAt := 20;
                           fetchDurationMs := None; cacheHit := Some true;
                           deduped := None |})].
Proof.
  cbv zeta.
  assert (dataCache (run CACHE_TTL_index_js init [Call 1 None false 10; Settle 0 world_up 20])
            !! cacheKeyOf None
          = Some {| lastUpdated := 20; data := snapshot_up; lastFetchDurationMs := 10 |}) as He
    by (vm_compute; reflexivity).
  assert (isFresh CACHE_TTL_index_js
            (Some {| lastUpdated := 20; data := snapshot_up; lastFetchDurationMs := 10 |}) 40
          = true) as Hf by (vm_compute; reflexivity).
  destruct (refresh_index_js_hides_the_old_snapshot CACHE_TTL_index_js 2 3 None 30 40 _ _ He Hf)
    as (H1 & H2 & _).
  assert (cacheKeyOf None <> "__proto__") as Hk by (cbv; discriminate).
  split.
  - intros force. by destruct (H1 Hk force) as (_ & H & _).
  - by destruct H2 as (H & _).
Defined.

Lemma cacheKeyOf_plain dateStr k :
  k <> "today" -> dateStr <> Some k -> cacheKeyOf dateStr <> k.
Proof.
  intros Hk H. unfold cacheKeyOf. destruct dateStr as [[|a s]|]; simpl; [congruence| |congruence].
  intros Heq. apply H. by rewrite Heq.
Qed.

Lemma no_entry_named k ttl evs :
  k <> "today" ->
  Forall (fun ev => match ev with
                    | Call _ dateStr _ _ => dateStr <> Some k
                    | Settle _ _ _ => True
                    end) evs ->
  dataCache (run ttl init evs) !! k = None
  /\ forall p pop, populations (run ttl init evs) !! p = Some pop -> pop_key pop <> k.
Proof.
  intros Hk. induction evs as [|ev evs IH] using rev_ind; intros Hall.
  - split; intros *; simpl; by rewrite lookup_empty.
  - apply Forall_app in Hall as [Hevs Hev]. apply Forall_inv in Hev.
    destruct (IH Hevs) as [IHc IHp]. rewrite CacheInvariants.run_snoc.
    set (st := run ttl init evs) in *. split.
    + destruct (CacheInvariants.step_dataCache ttl st ev)
        as [->|(p & w & t & pop & results & -> & Hp & _ & ->)]; [done|].
      rewrite lookup_insert_ne; [done|]. by apply IHp with p.
    + intros p pop. destruct ev as [c d force now|q w t]; simpl in *.
      * destruct (CacheInvariants.call_cases ttl c d force now st)
          as [(e & _ & _ & _ & ->)|[(q & _ & ->)|[_ ->]]]; simpl; eauto.
        rewrite lookup_insert. case_decide; [|eauto].
        intros [= <-]. simpl. by apply cacheKeyOf_plain.
      * rewrite CacheInvariants.settle_populations, lookup_delete.
        case_decide; [done|eauto].
Qed.

(** X9.  [GET /api/health] of [server/index.js] reports no age of the
    cache.  It reads [dataCache.lastUpdated], which is the entry of a key of
    that name or, failing that, the time stamp of the prototype; the keys of
    the cache are the dates asked for and the word [today], and the
    prototype is replaced by a population for the date [__proto__] only:
    whatever has been fetched, as long as no call names the date
    [lastUpdated] or the date [__proto__], [cacheAge] is [null]. *)
Theorem cacheAge_is_null (evs : list Event) (now : Z) :
  Forall plain_date evs ->
  cacheAge (run CACHE_TTL_index_js init evs) now = None.
Proof.
  intros Hall. unfold cacheAge.
  rewrite (proj1 (no_entry_named "lastUpdated" CACHE_TTL_index_js evs ltac:(discriminate)
                    ltac:(eapply Forall_impl; [exact Hall|];
                          intros [? ? ? ?|? ? ?]; simpl; tauto))).
  by rewrite (proj1 (no_entry_named "__proto__" CACHE_TTL_index_js evs ltac:(discriminate)
                       ltac:(eapply Forall_impl; [exact Hall|];
                             intros [? ? ? ?|? ? ?]; simpl; tauto))).
Qed.

Lemma cacheAge_is_null_witness :
  let evs := [Call 1 None false 10; Settle 0 world_up 20; Call 2 (Some "2026-01-21") false 30] in
  Forall plain_date evs
  /\ is_Some (dataCache (run CACHE_TTL_index_js init evs) !! "today")
  /\ cacheAge (run CACHE_TTL_index_js init evs) 40 = None.
Proof.
  cbv zeta.
  assert (Forall plain_date
            [Call 1 None false 10; Settle 0 world_up 20; Call 2 (Some "2026-01-21") false 30])
    as H by (repeat constructor; discriminate).
  split; [exact H|]. split; [vm_compute; eauto|exact (cacheAge_is_null _ 40 H)].
Defined.

(** After a population for the date [__proto__] the route does report an
    age, that of this population; after one for the date [lastUpdated] it
    reports [NaN]. *)
Lemma cacheAge_after_odd_dates :
  cacheAge (run CACHE_TTL_index_js init
              [Call 1 (Some "__proto__") false 10; Settle 0 world_up 20]) 40
  = Some (Finite 20)
  /\ cacheAge (run CACHE_TTL_index_js init
                 [Call 1 (Some "lastUpdated") false 10; Settle 0 world_up 20]) 40
     = Some NaN.
Proof. split; vm_compute; reflexivity. Qed.

Lemma newer_fold (l : list Entry) (best : option Z) :
  best <> Some 0%Z ->
  match fold_left newer l best with
  | None => best = None /\ forall e, In e l -> lastUpdated e = 0%Z
  | Some m =>
      m <> 0%Z
      /\ (best = Some m \/ exists e, In e l /\ lastUpdated e = m)
      /\ (forall b, best = Some b -> (b <= m)%Z)
      /\ forall e, In e l -> lastUpdated e <> 0%Z -> (lastUpdated e <= m)%Z
  end.
Proof.
  revert best. induction l as [|x l IH]; intros best Hb; simpl.
  - destruct best as [b|]; [|done].
    repeat split; [congruence|by left|intros ? [= <-]; lia|done].
  - assert (newer best x <> Some 0%Z) as Hn.
    { unfold newer. destruct (Z.eqb_spec (lastUpdated x) 0); [done|].
      destruct best as [b|]; [|congruence].
      destruct ((b =? 0)%Z || (b <? lastUpdated x)%Z); congruence. }
    specialize (IH _ Hn). destruct (fold_left newer l (newer best x)) as [m|].
    + destruct IH as (Hm & Hsrc & Hbest & Hall). split; [done|].
      unfold newer in Hsrc, Hbest.
      destruct (Z.eqb_spec (lastUpdated x) 0) as [Hx|Hx].
      * split; [|split].
        -- destruct Hsrc as [?|(e & ? & ?)]; [by left|right; eauto].
        -- done.
        -- intros e [<-|He] Hne; [done|eauto].
      * destruct best as [b|].
        -- destruct (Z.eqb_spec b 0) as [->|Hb0]; [done|]. simpl in *.
           destruct (Z.ltb_spec b (lastUpdated x)).
           ++ split; [|split].
              ** right. destruct Hsrc as [[= <-]|(e & ? & ?)]; eauto.
              ** intros b' [= <-]. specialize (Hbest _ eq_refl). lia.
              ** intros e [<-|He] Hne; eauto.
           ++ split; [|split].
              ** destruct Hsrc as [?|(e & ? & ?)]; [by left|right; eauto].
              ** done.
              ** intros e [<-|He] Hne; [|eauto]. specialize (Hbest _ eq_refl). lia.
        -- split; [|split].
           ++ right. destruct Hsrc as [[= <-]|(e & ? & ?)]; eauto.
           ++ done.
           ++ intros e [<-|He] Hne; eauto.
    + destruct IH as [Hb' Hall]. unfold newer in Hb'.
      destruct (Z.eqb_spec (lastUpdated x) 0) as [Hx|Hx].
      * split; [done|]. intros e [<-|He]; eauto.
      * destruct best as [b|]; [|done].
        destruct ((b =? 0)%Z || (b <? lastUpdated x)%Z); done.
Qed.

(** X10.  [newest] in [GET /api/health] of the second copy is the latest
    time stamp of the cache: it is [null] exactly when no entry has a time
    stamp other than 0, and otherwise it is the time stamp of an entry, not
    0, and no entry has a later one. *)
Theorem newest_is_the_latest_stamp (entries : list Entry) :
  match newest entries with
  | None => forall e, In e entries -> lastUpdated e = 0%Z
  | Some m =>
      m <> 0%Z
      /\ (exists e, In e entries /\ lastUpdated e = m)
      /\ forall e, In e entries -> lastUpdated e <> 0%Z -> (lastUpdated e <= m)%Z
  end.
Proof.
  pose proof (newer_fold entries None) as H. unfold newest.
  destruct (fold_left newer entries None) as [m|].
  - destruct H as (Hm & Hsrc & _ & Hall); [done|]. split; [done|]. split; [|done].
    by destruct Hsrc as [?|?].
  - destruct H as [_ H]; done.
Qed.

(** X11.  The order in which [Object.values] lists the entries does not
    matter to [GET /api/health]: two lists of the same entries give the
    same [newestCacheAgeMs]. *)
Theorem newest_age_ignores_the_order (l l' : list Entry) (now : Z) :
  l ≡ₚ l' -> newestCacheAgeMs l now = newestCacheAgeMs l' now.
Proof.
  intros Hp. unfold newestCacheAgeMs, newest.
  pose proof (newer_fold l None) as H. pose proof (newer_fold l' None) as H'.
  assert (forall e, In e l <-> In e l') as Hin.
  { intros e. split; apply Permutation_in; [done|by symmetry]. }
  destruct (fold_left newer l None) as [m|], (fold_left newer l' None) as [m'|].
  - destruct H as (Hm & [?|(e & He & Hem)] & _ & Hall); [done|done|].
    destruct H' as (Hm' & [?|(e' & He' & Hem')] & _ & Hall'); [done|done|].
    assert (m = m') as ->; [|done].
    apply Hin in He. apply Hin in He'.
    apply Hall' in He; [|congruence]. apply Hall in He'; [|congruence]. lia.
  - destruct H as (Hm & [?|(e & He & Hem)] & _); [done|done|].
    destruct H' as [_ H']; [done|]. apply Hin, H' in He. congruence.
  - destruct H' as (Hm' & [?|(e' & He' & Hem')] & _); [done|done|].
    destruct H as [_ H]; [done|]. apply Hin, H in He'. congruence.
  - done.
Qed.

Lemma newest_age_ignores_the_order_witness :
  let a := {| lastUpdated := 20; data := []; lastFetchDurationMs := 10 |} in
  let b := {| lastUpdated := 40; data := []; lastFetchDurationMs := 5 |} in
  [a; b] ≡ₚ [b; a]
  /\ newestCacheAgeMs [a; b] 50 = newestCacheAgeMs [b; a] 50.
Proof.
  cbv zeta.
  assert ([ {| lastUpdated := 20; data := []; lastFetchDurationMs := 10 |};
            {| lastUpdated := 40; data := []; lastFetchDurationMs := 5 |} ]
          ≡ₚ [ {| lastUpdated := 40; data := []; lastFetchDurationMs := 5 |};
               {| lastUpdated := 20; data := []; lastFetchDurationMs := 10 |} ]) as H
    by apply perm_swap.
  split; [exact H|exact (newest_age_ignores_the_order _ _ 50 H)].
Defined.

End RouteTheory.

Module WeekTheory.
Import JsString Calendar Hours Weeks.
Local Open Scope list_scope.
Local Open Scope Z_scope.

Lemma parse_digits_bound s acc :
  all_digits s = true -> 0 <= acc ->
  0 <= parse_digits acc s < (acc + 1) * 10 ^ Z.of_nat (String.length s).
Proof.
  revert acc. induction s as [|c s IH]; intros acc Hd Hacc;
    cbn [all_digits parse_digits String.length] in *.
  - simpl. lia.
  - apply andb_prop in Hd as [Hc Hs].
    assert (0 <= digit_value c <= 9) as Hv.
    { unfold digit_value, is_digit in *. apply andb_prop in Hc as [H1 H2].
      apply Nat.leb_le in H1, H2. lia. }
    specialize (IH (acc * 10 + digit_value c) Hs ltac:(lia)).
    rewrite Nat2Z.inj_succ, Z.pow_succ_r by lia.
    assert (0 < 10 ^ Z.of_nat (String.length s)) by (apply Z.pow_pos_nonneg; lia).
    nia.
Qed.

Lemma take_length n s : (String.length (take n s) <= n)%nat.
Proof.
  revert s. induction n as [|n IH]; intros [|c s]; simpl; try lia.
  specialize (IH s). lia.
Qed.

(** The day of a date string is a day of the years 0 to 9999. *)
Lemma parse_date_bound dateStr day :
  parse_date dateStr = Some day -> day <= days_from_civil 9999 12 31.
Proof.
  unfold parse_date.
  destruct (_ && _ && _ && _ && _ && _) eqn:Hshape; [|done].
  repeat (apply andb_prop in Hshape as [Hshape ?]).
  match goal with H : all_digits (take 4 dateStr) = true |- _ =>
    pose proof (parse_digits_bound _ 0 H ltac:(lia)) as Hy end.
  pose proof (take_length 4 dateStr) as Hlen.
  assert (10 ^ Z.of_nat (String.length (take 4 dateStr)) <= 10 ^ 4) as Hpow
    by (apply Z.pow_le_mono_r; lia).
  change (10 ^ 4) with 10000 in Hpow.
  assert (parse_digits 0 (take 4 dateStr) <= 9999) as Hy' by lia.
  clear Hy Hpow Hlen.
  generalize dependent (parse_digits 0 (take 4 dateStr)). intros y Hy.
  generalize (parse_digits 0 (take 2 (drop 5 dateStr))). intros m.
  generalize (parse_digits 0 (take 2 (drop 8 dateStr))). intros d.
  destruct (_ && _ && _ && _) eqn:Hvalid; [|done].
  repeat (apply andb_prop in Hvalid as [Hvalid ?]).
  intros [= <-].
  repeat match goal with H : (_ <=? _) = true |- _ => apply Z.leb_le in H end.
  pose proof (CalendarTheory.days_in_month_le y m) as Hdim.
  change (days_from_civil 9999 12 31) with 2932896.
  unfold days_from_civil.
  destruct (Z.leb_spec m 2); Z.div_mod_to_equations; lia.
Qed.

Lemma monday_of day :
  let diff := if getDay day =? 0 then -6 else 1 - getDay day in
  getDay (day + diff) = 1 /\ day - 6 <= day + diff <= day
  /\ week_of (day + diff) = week_of day /\ day + diff = 7 * week_of day - 3.
Proof.
  cbv zeta. unfold getDay, week_of.
  destruct (Z.eqb_spec ((day + 4) mod 7) 0); Z.div_mod_to_equations; lia.
Qed.

Lemma getMondayOfWeek_format dateStr day :
  parse_date dateStr = Some day ->
  getMondayOfWeek dateStr = format_local (7 * week_of day - 3).
Proof.
  intros Hp. unfold getMondayOfWeek. rewrite Hp.
  destruct (monday_of day) as (_ & _ & _ & Heq). cbv zeta in Heq. by rewrite Heq.
Qed.

Lemma monday_parses dateStr day :
  parse_date dateStr = Some day ->
  days_from_civil 1000 1 7 <= day ->
  parse_date (getMondayOfWeek dateStr) = Some (7 * week_of day - 3)
  /\ getDay (7 * week_of day - 3) = 1
  /\ day - 6 <= 7 * week_of day - 3 <= day.
Proof.
  intros Hp Hlo. pose proof (parse_date_bound _ _ Hp) as Hhi.
  rewrite (getMondayOfWeek_format _ _ Hp).
  destruct (monday_of day) as (Hday & Hrange & _ & Heq). cbv zeta in *.
  rewrite <- Heq. split; [|done].
  apply CalendarTheory.parse_format_local.
  change (days_from_civil 1000 1 7) with (days_from_civil 1000 1 1 + 6) in Hlo. lia.
Qed.

(** X12.  [getMondayOfWeek] returns the Monday of the week of its date: for
    a date of the calendar from 1000-01-07 on, the string returned is a
    date again, its day of the week is 1, and it lies at most six days
    before the date given and never after it. *)
Theorem getMondayOfWeek_is_the_monday (dateStr : string) (day : Z) :
  parse_date dateStr = Some day ->
  days_from_civil 1000 1 7 <= day ->
  exists monday,
    parse_date (getMondayOfWeek dateStr) = Some monday
    /\ getDay monday = 1
    /\ day - 6 <= monday <= day.
Proof.
  intros Hp Hlo. exists (7 * week_of day - 3). by apply monday_parses.
Qed.

Lemma getMondayOfWeek_is_the_monday_witness :
  parse_date "2026-01-21" = Some 20474
  /\ days_from_civil 1000 1 7 <= 20474
  /\ exists monday,
       parse_date (getMondayOfWeek "2026-01-21") = Some monday
       /\ getDay monday = 1
       /\ 20474 - 6 <= monday <= 20474.
Proof.
  assert (parse_date "2026-01-21" = Some 20474) as Hp by (vm_compute; reflexivity).
  assert (days_from_civil 1000 1 7 <= 20474) as Hlo by (vm_compute; discriminate).
  split; [exact Hp|]. split; [exact Hlo|].
  exact (getMondayOfWeek_is_the_monday _ _ Hp Hlo).
Defined.

(** X13.  The hours of a week are kept under one Monday: two dates of the
    calendar, from 1000-01-07 on, have the same [getMondayOfWeek] exactly
    when they lie in the same week from Monday to Sunday. *)
Theorem same_monday_same_week (dateStr dateStr' : string) (day day' : Z) :
  parse_date dateStr = Some day -> parse_date dateStr' = Some day' ->
  days_from_civil 1000 1 7 <= day -> days_from_civil 1000 1 7 <= day' ->
  getMondayOfWeek dateStr = getMondayOfWeek dateStr' <-> week_of day = week_of day'.
Proof.
  intros Hp Hp' Hlo Hlo'.
  pose proof (parse_date_bound _ _ Hp) as Hhi. pose proof (parse_date_bound _ _ Hp') as Hhi'.
  rewrite (getMondayOfWeek_format _ _ Hp), (getMondayOfWeek_format _ _ Hp').
  change (days_from_civil 1000 1 7) with (days_from_civil 1000 1 1 + 6) in *.
  destruct (monday_of day) as (_ & Hr & _ & Heq).
  destruct (monday_of day') as (_ & Hr' & _ & Heq'). cbv zeta in *.
  split.
  - intros Hfmt.
    assert (Some (7 * week_of day - 3) = Some (7 * week_of day' - 3)) as [= H7]; [|lia].
    rewrite <- (CalendarTheory.parse_format_local (7 * week_of day - 3)) by lia.
    rewrite <- (CalendarTheory.parse_format_local (7 * week_of day' - 3)) by lia.
    by rewrite Hfmt.
  - by intros ->.
Qed.

Lemma same_monday_same_week_witness :
  parse_date "2026-01-21" = Some 20474 /\ parse_date "2026-01-25" = Some 20478
  /\ days_from_civil 1000 1 7 <= 20474 /\ days_from_civil 1000 1 7 <= 20478
  /\ (getMondayOfWeek "2026-01-21" = getMondayOfWeek "2026-01-25"
      <-> week_of 20474 = week_of 20478).
Proof.
  assert (parse_date "2026-01-21" = Some 20474) as Hp by (vm_compute; reflexivity).
  assert (parse_date "2026-01-25" = Some 20478) as Hp' by (vm_compute; reflexivity).
  assert (days_from_civil 1000 1 7 <= 20474) as Hlo by (vm_compute; discriminate).
  assert (days_from_civil 1000 1 7 <= 20478) as Hlo' by (vm_compute; discriminate).
  split; [exact Hp|]. split; [exact Hp'|]. split; [exact Hlo|]. split; [exact Hlo'|].
  exact (same_monday_same_week _ _ _ _ Hp Hp' Hlo Hlo').
Defined.

(** X14.  [getLibraryHoursForDate] never fetches a second week.  For a date
    of the calendar from 1000-01-07 on, whatever the first call of
    [fetchLibCalHours] resolves to and in every time zone whose offset
    moves by less than a day, the days since Monday are at most 6: the
    function makes that one call and returns the entry of the date in its
    answer, or [null]. *)
Theorem getLibraryHoursForDate_fetches_one_week
    (offset : Z -> Z) (libraryId dateStr : string) (day : Z)
    (answer : option (gmap string DateHours)) (more : list (option (gmap string DateHours))) :
  parse_date dateStr = Some day ->
  days_from_civil 1000 1 7 <= day ->
  (forall a b, -86400000 < offset a - offset b < 86400000) ->
  play (getLibraryHoursForDate offset libraryId dateStr) (answer :: more)
  = ([(libraryId, dateStr)], Some (entry_of answer dateStr)).
Proof.
  intros Hp Hlo Hzone.
  destruct (monday_parses _ _ Hp Hlo) as (Hm & _ & Hrange).
  set (monday := 7 * week_of day - 3) in *.
  unfold getLibraryHoursForDate. cbn [play fst snd].
  destruct (entry_of answer dateStr) as [found|]; [done|].
  unfold daysSinceMonday. rewrite Hp, Hm.
  assert ((noon offset day - noon offset monday) / (24 * 60 * 60 * 1000) < 7) as Hlt.
  { unfold noon. specialize (Hzone monday day).
    apply Z.div_lt_upper_bound; lia. }
  destruct (Z.leb_spec 7 ((noon offset day - noon offset monday) / (24 * 60 * 60 * 1000)));
    [lia|done].
Qed.

Lemma getLibraryHoursForDate_fetches_one_week_witness :
  parse_date "2026-01-25" = Some 20478
  /\ days_from_civil 1000 1 7 <= 20478
  /\ (forall a b, -86400000 < est a - est b < 86400000)
  /\ play (getLibraryHoursForDate est "thompson" "2026-01-25") [None; None]
     = ([("thompson", "2026-01-25")], Some (entry_of None "2026-01-25")).
Proof.
  assert (parse_date "2026-01-25" = Some 20478) as Hp by (vm_compute; reflexivity).
  assert (days_from_civil 1000 1 7 <= 20478) as Hlo by (vm_compute; discriminate).
  assert (forall a b, -86400000 < est a - est b < 86400000) as Hz by (unfold est; lia).
  split; [exact Hp|]. split; [exact Hlo|]. split; [exact Hz|].
  exact (getLibraryHoursForDate_fetches_one_week est "thompson" _ _ None [None] Hp Hlo Hz).
Defined.

(** X15.  [getNext8DaysNY] lists today and the seven days after it: when
    today is a date of the years 1000 to 9999 and so is the seventh day
    from it, the eight strings are dates, the days from today on in order,
    and no two of them are the same. *)
Theorem getNext8DaysNY_are_consecutive (todayStr : string) (today : Z) :
  parse_date todayStr = Some today ->
  days_from_civil 1000 1 1 <= today ->
  today + 7 <= days_from_civil 9999 12 31 ->
  List.map parse_date (getNext8DaysNY todayStr)
  = List.map (fun i => Some (today + i)) [0; 1; 2; 3; 4; 5; 6; 7]
  /\ NoDup (getNext8DaysNY todayStr).
Proof.
  intros Hp Hlo Hhi.
  assert (List.map parse_date (getNext8DaysNY todayStr)
          = List.map (fun i => Some (today + i)) [0; 1; 2; 3; 4; 5; 6; 7]) as Hmap.
  { unfold getNext8DaysNY. rewrite Hp. cbn [List.map].
    rewrite !CalendarTheory.parse_format_local by lia. done. }
  split; [done|].
  apply (NoDup_fmap_1 parse_date). change (parse_date <$> getNext8DaysNY todayStr)
    with (List.map parse_date (getNext8DaysNY todayStr)). rewrite Hmap. cbn [List.map].
  repeat (apply NoDup_cons; split;
          [intros H; repeat (apply elem_of_cons in H as [[= H]|H]; [lia|]);
           by apply elem_of_nil in H|]).
  apply NoDup_nil_2.
Qed.

Lemma getNext8DaysNY_are_consecutive_witness :
  parse_date "2026-12-28" = Some 20815
  /\ days_from_civil 1000 1 1 <= 20815
  /\ 20815 + 7 <= days_from_civil 9999 12 31
  /\ (List.map parse_date (getNext8DaysNY "2026-12-28")
      = List.map (fun i => Some (20815 + i)) [0; 1; 2; 3; 4; 5; 6; 7]
      /\ NoDup (getNext8DaysNY "2026-12-28")).
Proof.
  assert (parse_date "2026-12-28" = Some 20815) as Hp by (vm_compute; reflexivity).
  assert (days_from_civil 1000 1 1 <= 20815) as Hlo by (vm_compute; discriminate).
  assert (20815 + 7 <= days_from_civil 9999 12 31) as Hhi by (vm_compute; discriminate).
  split; [exact Hp|]. split; [exact Hlo|]. split; [exact Hhi|].
  exact (getNext8DaysNY_are_consecutive _ _ Hp Hlo Hhi).
Defined.

End WeekTheory.

Module HoursInvariants.
Import JsString Regex Calendar Hours Weeks HoursTrace.
Local Open Scope list_scope.

Lemma configured libraryId :
  is_Some (LIBCAL_HOURS_CONFIG !! libraryId) ->
  libraryId = "18th-ave" \/ libraryId = "thompson" \/ libraryId = "faes".
Proof.
  unfold LIBCAL_HOURS_CONFIG. rewrite !lookup_insert.
  repeat (case_decide; [eauto|]). rewrite lookup_empty. by intros [? ?].
Qed.

Lemma append_inj_r (p s s' : string) : String.append p s = String.append p s' -> s = s'.
Proof. induction p as [|c p IH]; simpl; [done|]. intros [= H]. by apply IH. Qed.

(** X16.  The keys of [hoursCache] do not collide: for the libraries of
    [LIBCAL_HOURS_CONFIG], two keys [`${libraryId}-${mondayDate}`] are the
    same only when the library and the Monday are, whatever the second
    string is. *)
Theorem hoursKey_injective (libraryId libraryId' mondayDate mondayDate' : string) :
  is_Some (LIBCAL_HOURS_CONFIG !! libraryId) ->
  is_Some (LIBCAL_HOURS_CONFIG !! libraryId') ->
  hoursKey libraryId mondayDate = hoursKey libraryId' mondayDate' ->
  libraryId = libraryId' /\ mondayDate = mondayDate'.
Proof.
  intros H H' Hk. unfold hoursKey in Hk.
  destruct (configured _ H) as [-> | [-> | ->]];
    destruct (configured _ H') as [-> | [-> | ->]];
    try (simpl in Hk; discriminate);
    (split; [done|]); apply append_inj_r in Hk; by apply (append_inj_r "-").
Qed.

Lemma hoursKey_injective_witness :
  is_Some (LIBCAL_HOURS_CONFIG !! "faes")
  /\ is_Some (LIBCAL_HOURS_CONFIG !! "faes")
  /\ hoursKey "faes" "2026-01-19" = hoursKey "faes" (getMondayOfWeek "2026-01-21")
  /\ "faes" = "faes" /\ "2026-01-19" = getMondayOfWeek "2026-01-21".
Proof.
  assert (is_Some (LIBCAL_HOURS_CONFIG !! "faes")) as H by (vm_compute; eauto).
  assert (hoursKey "faes" "2026-01-19" = hoursKey "faes" (getMondayOfWeek "2026-01-21")) as Hk
    by (vm_compute; reflexivity).
  split; [exact H|]. split; [exact H|]. split; [exact Hk|].
  exact (hoursKey_injective _ _ _ _ H H Hk).
Defined.

Lemma hours_run_snoc dash st evs ev :
  hours_run dash st (evs ++ [ev]) = hours_step dash (hours_run dash st evs) ev.
Proof. unfold hours_run. by rewrite fold_left_app. Qed.

Lemma calls_snoc evs ev :
  length (calls (evs ++ [ev])) = (length (calls evs) + if is_call ev then 1 else 0)%nat.
Proof.
  unfold calls. rewrite List.filter_app, length_app. simpl. by destruct (is_call ev).
Qed.

Lemma hours_accounting dash evs :
  let st := hours_run dash hours_init evs in
  (length (returned st) + size (suspended st) = length (calls evs))%nat
  /\ length (requested st) = next_fetch st
  /\ forall i, is_Some (suspended st !! i) -> (i < next_fetch st)%nat.
Proof.
  induction evs as [|ev evs IH] using rev_ind.
  - simpl. rewrite map_size_empty. repeat split; try done.
    intros i. rewrite lookup_empty. by intros [? ?].
  - cbv zeta in *. rewrite hours_run_snoc, calls_snoc.
    destruct IH as (Hcount & Hreq & Hlt). set (st := hours_run dash hours_init evs) in *.
    destruct ev as [c libraryId dateStr now|i html now]; simpl.
    + unfold fetchLibCalHours. destruct (LIBCAL_HOURS_CONFIG !! libraryId) as [config|].
      * destruct (hoursFresh _ now); simpl.
        -- rewrite length_app. simpl. repeat split; [lia|done|done].
        -- rewrite length_app, map_size_insert_None.
           ++ simpl. repeat split; [lia|lia|].
              intros i. rewrite lookup_insert. case_decide; [lia|].
              intros Hi. apply Hlt in Hi. lia.
           ++ destruct (suspended st !! next_fetch st) eqn:Hs; [|done].
              assert (next_fetch st < next_fetch st)%nat; [|lia]. apply Hlt. by rewrite Hs.
      * simpl. rewrite length_app. simpl. repeat split; [lia|done|done].
    + unfold fetchLibCalHours_resume.
      destruct (suspended st !! i) as [f|] eqn:Hi.
      * assert (size (suspended st) = S (size (delete i (suspended st)))) as Hsize.
        { rewrite <- (insert_delete_id (suspended st) i f Hi) at 1.
          rewrite map_size_insert_None; [done|]. apply lookup_delete_eq. }
        destruct (parseHours dash f html); simpl; rewrite length_app; simpl;
          (split; [lia|]); (split; [done|]);
          intros j; rewrite lookup_delete; (case_decide; [by intros [? ?]|apply Hlt]).
      * repeat split; [lia|done|done].
Qed.

(** X17.  Every call of [fetchLibCalHours] returns once or waits for its own
    request: after any run from the initial state, the calls that have
    returned and the calls suspended at [await fetch(url)] are as many as
    the calls made, and the requests sent to the widget are as many as the
    calls that were ever suspended. *)
Theorem every_hours_call_returns_or_waits (dash : re) (evs : list HoursEvent) :
  let st := hours_run dash hours_init evs in
  (length (returned st) + size (suspended st) = length (calls evs))%nat
  /\ length (requested st) = next_fetch st.
Proof. destruct (hours_accounting dash evs) as (H1 & H2 & _). by split. Qed.

Lemma dayLoop_dates (dash : re) (day : Z) (cells : list found) :
  forall (offset : Z) (hours hours' : gmap string DayHours),
  dayLoop dash (Some day) offset cells hours = Returned hours' ->
  forall d, is_Some (hours' !! d) ->
    is_Some (hours !! d)
    \/ exists i, (0 <= i < Z.of_nat (length cells))%Z /\ d = format_iso (day + (offset + i)).
Proof.
  induction cells as [|cell cells IH]; intros offset hours hours' Hrun d Hd; simpl in *.
  - injection Hrun as <-. by left.
  - destruct (IH _ _ _ Hrun d Hd) as [Hin|(i & Hi & ->)].
    + rewrite lookup_insert in Hin. case_decide as Heq; [|by left].
      right. exists 0%Z. split; [lia|]. rewrite <- Heq. f_equal. lia.
    + right. exists (1 + i)%Z. split; [lia|]. f_equal. lia.
Qed.

(** X18.  A row never gives hours for a date outside its week: when
    [mondayDate] is a date of the years 1000 to 9999 (and so is the sixth
    day from it), every key of what [parseRowHours] returns is the date of
    one of the seven days from that Monday on, whatever the markup. *)
Theorem parseRowHours_dates (dash : re) (html rowName mondayDate : string) (monday : Z)
    (hours : gmap string DayHours) (d : string) :
  parse_date mondayDate = Some monday ->
  (days_from_civil 1000 1 1 <= monday)%Z ->
  (monday + 6 <= days_from_civil 9999 12 31)%Z ->
  parseRowHours dash html rowName mondayDate = Returned (Some hours) ->
  is_Some (hours !! d) ->
  exists i, (0 <= i < 7)%Z /\ parse_date d = Some (monday + i)%Z.
Proof.
  intros Hp Hlo Hhi Hrow Hd. unfold parseRowHours in Hrow.
  destruct (findTargetRow rowName (matchAll re_tr html)) as [targetRow|]; [|done].
  rewrite Hp in Hrow.
  destruct (dayLoop dash (Some monday) 0 _ ∅) as [hours'|m] eqn:Hrun; [|done].
  simpl in Hrow. injection Hrow as ->.
  destruct (dayLoop_dates _ _ _ _ _ _ Hrun d Hd) as [Hin|(i & Hi & ->)].
  - rewrite lookup_empty in Hin. by destruct Hin.
  - assert (length (firstn 7 (skipn 1 (matchAll re_td targetRow))) <= 7)%nat
      by apply firstn_le_length.
    exists i. split; [lia|].
    rewrite CalendarTheory.format_iso_local by lia.
    rewrite CalendarTheory.parse_format_local by lia. f_equal; lia.
Qed.

Lemma parseRowHours_dates_witness :
  let html := faes_week "7:30am &ndash; 6:00pm" in
  let hours := match parseRowHours dash_index_js html "FAES Library" "2026-01-19" with
               | Returned (Some h) => h
               | _ => ∅
               end in
  parse_date "2026-01-19" = Some 20472%Z
  /\ (days_from_civil 1000 1 1 <= 20472)%Z
  /\ (20472 + 6 <= days_from_civil 9999 12 31)%Z
  /\ parseRowHours dash_index_js html "FAES Library" "2026-01-19" = Returned (Some hours)
  /\ is_Some (hours !! "2026-01-21")
  /\ exists i, (0 <= i < 7)%Z /\ parse_date "2026-01-21" = Some (20472 + i)%Z.
Proof.
  cbv zeta.
  set (hours := match parseRowHours dash_index_js (faes_week "7:30am &ndash; 6:00pm")
                        "FAES Library" "2026-01-19" with
                | Returned (Some h) => h
                | _ => ∅
                end).
  assert (parse_date "2026-01-19" = Some 20472%Z) as Hp by (vm_compute; reflexivity).
  assert (days_from_civil 1000 1 1 <= 20472)%Z as Hlo by (vm_compute; discriminate).
  assert (20472 + 6 <= days_from_civil 9999 12 31)%Z as Hhi by (vm_compute; discriminate).
  assert (parseRowHours dash_index_js (faes_week "7:30am &ndash; 6:00pm") "FAES Library"
            "2026-01-19" = Returned (Some hours)) as Hrow by (vm_compute; reflexivity).
  assert (is_Some (hours !! "2026-01-21")) as Hd by (vm_compute; eauto).
  split; [exact Hp|]. split; [exact Hlo|]. split; [exact Hhi|]. split; [exact Hrow|].
  split; [exact Hd|].
  exact (parseRowHours_dates _ _ _ _ _ _ _ Hp Hlo Hhi Hrow Hd).
Defined.

Lemma parseRowHours_returns (dash : re) (html rowName mondayDate : string) (monday : Z) :
  parse_date mondayDate = Some monday ->
  exists r, parseRowHours dash html rowName mondayDate = Returned r
            /\ (matchAll re_tr html = [] -> r = None).
Proof.
  intros Hp. unfold parseRowHours. rewrite Hp.
  destruct (matchAll re_tr html) as [|row rows] eqn:Hrows.
  - simpl. eauto.
  - destruct (findTargetRow rowName (row :: rows)) as [targetRow|]; [|by eexists].
    destruct (HoursTheory.dayLoop_total dash monday
                (firstn 7 (skipn 1 (matchAll re_td targetRow))) 0 ∅) as (hours' & -> & _).
    simpl. by eexists.
Qed.

(** X19.  Whatever text the widget answers with is cached for an hour.  A
    call for a configured library and a date of the calendar (from
    1000-01-07 on) that finds no fresh entry sends a request; when the
    request is answered, by any text at all, the parse does not fail, the
    result goes into [hoursCache] under the key of the week with the time
    of the answer, and the caller gets it.  A text with no table row, such
    as an error page, is cached as the empty object. *)
Theorem every_page_is_cached (dash : re) (st : HoursState) (c : nat)
    (libraryId dateStr : string) (day : Z) (config : HoursConfig) (now now' : Z)
    (text : string) :
  LIBCAL_HOURS_CONFIG !! libraryId = Some config ->
  parse_date dateStr = Some day ->
  (days_from_civil 1000 1 7 <= day)%Z ->
  hoursFresh (hoursCache st !! hoursKey libraryId (getMondayOfWeek dateStr)) now = false ->
  let st1 := hours_step dash st (HCall c libraryId dateStr now) in
  let st2 := hours_step dash st1 (HSettle (next_fetch st) (Returned text) now') in
  exists result,
    hoursCache st2 !! hoursKey libraryId (getMondayOfWeek dateStr)
      = Some {| lastUpdated := now'; data := result |}
    /\ returned st2 = returned st ++ [(c, Some result)]
    /\ (matchAll re_tr text = [] -> result = ∅).
Proof.
  intros Hconfig Hp Hlo Hfresh.
  assert (exists monday, parse_date (getMondayOfWeek dateStr) = Some monday) as [monday Hm].
  { rewrite (WeekTheory.getMondayOfWeek_format dateStr day Hp).
    destruct (WeekTheory.monday_of day) as (_ & Hr & _ & Heq). cbv zeta in *.
    pose proof (WeekTheory.parse_date_bound _ _ Hp) as Hhi.
    change (days_from_civil 1000 1 7) with (days_from_civil 1000 1 1 + 6)%Z in Hlo.
    eexists. apply CalendarTheory.parse_format_local. lia. }
  cbv zeta. simpl. unfold fetchLibCalHours. rewrite Hconfig, Hfresh.
  unfold fetchLibCalHours_resume. cbn [suspended]. rewrite lookup_insert_eq.
  unfold parseHours. cbn [hf_config hf_mondayDate hf_cacheKey hf_caller].
  destruct (parseRowHours_returns dash text (buildingRowName config) _ _ Hm) as (b & Hb & Hb0).
  destruct (parseRowHours_returns dash text (reservationRowName config) _ _ Hm) as (r & Hr & Hr0).
  unfold mbind, outcome_bind, bind. rewrite Hb, Hr. simpl.
  rewrite lookup_insert_eq. eexists. split; [done|]. split; [done|].
  intros Hrows. rewrite (Hb0 Hrows), (Hr0 Hrows). unfold combineHours. simpl.
  apply merge_empty.
Qed.

Lemma every_page_is_cached_witness :
  LIBCAL_HOURS_CONFIG !! "thompson"
    = Some {| lid := 16286; buildingRowName := "Thompson Library";
              reservationRowName := "Thompson Group Study Rooms" |}
  /\ parse_date "2026-01-21" = Some 20474%Z
  /\ (days_from_civil 1000 1 7 <= 20474)%Z
  /\ hoursFresh (hoursCache hours_init !! hoursKey "thompson" (getMondayOfWeek "2026-01-21")) 10
     = false
  /\ (let st1 := hours_step dash_part_000 hours_init (HCall 1 "thompson" "2026-01-21" 10) in
      let st2 := hours_step dash_part_000 st1
                   (HSettle (next_fetch hours_init) (Returned "Service Unavailable") 20) in
      exists result,
        hoursCache st2 !! hoursKey "thompson" (getMondayOfWeek "2026-01-21")
          = Some {| lastUpdated := 20; data := result |}
        /\ returned st2 = returned hours_init ++ [(1, Some result)]
        /\ (matchAll re_tr "Service Unavailable" = [] -> result = ∅)).
Proof.
  assert (LIBCAL_HOURS_CONFIG !! "thompson"
          = Some {| lid := 16286; buildingRowName := "Thompson Library";
                    reservationRowName := "Thompson Group Study Rooms" |}) as Hc
    by (vm_compute; reflexivity).
  assert (parse_date "2026-01-21" = Some 20474%Z) as Hp by (vm_compute; reflexivity).
  assert (days_from_civil 1000 1 7 <= 20474)%Z as Hlo by (vm_compute; discriminate).
  assert (hoursFresh (hoursCache hours_init !! hoursKey "thompson" (getMondayOfWeek "2026-01-21")) 10
          = false) as Hf by (vm_compute; reflexivity).
  split; [exact Hc|]. split; [exact Hp|]. split; [exact Hlo|]. split; [exact Hf|].
  exact (every_page_is_cached dash_part_000 hours_init 1 _ _ _ _ 10 20 "Service Unavailable"
           Hc Hp Hlo Hf).
Defined.

End HoursInvariants.

Module AdapterInvariants.
Import JsString Regex Calendar Adapters Order Query.
Local Open Scope list_scope.

Lemma fetchOsuApi_returns (library0 : Library) (dateStr : option string) (w : OsuNet) :
  exists f, fetchOsuApi library0 dateStr w = Returned f
    /\ library f = library0
    /\ ((isLive f = true /\ error f = None)
        \/ (isLive f = false /\ rooms f = [] /\ is_Some (error f))).
Proof.
  unfold fetchOsuApi, try_catch, mbind, outcome_bind, bind, degraded.
  destruct (fetch w) as [response|m]; [|eexists; simpl; eauto 6].
  destruct (dynamicHours w) as [dyn|m]; [|eexists; simpl; eauto 6].
  destruct (ok response); simpl; [|eexists; simpl; eauto 6].
  destruct (json response) as [j|m]; [|eexists; simpl; eauto 6].
  destruct (String.eqb (api_status j) "success"); [|eexists; simpl; eauto 6].
  destruct (locationAvailableRooms j) as [[rooms0|m]|]; eexists; simpl; eauto 6.
Qed.

Lemma scrapeLibCal_cases (library0 : Library) (dateStr : option string) (w : Chrome) :
  match scrapeLibCal library0 dateStr w with
  | Returned f =>
      library f = library0
      /\ ((isLive f = true /\ error f = None)
          \/ (isLive f = false /\ rooms f = [] /\ is_Some (error f)))
  | Raised m =>
      (exists u, import_puppeteer w = Returned u)
      /\ (launch w = Raised m \/ ((exists u, launch w = Returned u) /\ close w = Raised m))
  end.
Proof.
  unfold scrapeLibCal, try_finally, try_catch, mbind, outcome_bind, bind, degraded.
  destruct (import_puppeteer w) as [u|m0]; [|simpl; eauto 6].
  destruct (launch w) as [u'|m1]; [|eauto 6].
  destruct (close w) as [u''|m2]; [|eauto 8].
  destruct (newPage w); [|simpl; eauto 6]. destruct (goto w); [|simpl; eauto 6].
  destruct (waitForSelector w); [|simpl; eauto 6].
  destruct (document w) as [slots0|]; [|simpl; eauto 6].
  destruct (evaluate dateStr (today w) slots0); [|simpl; eauto 6].
  destruct (addMetadata library0 _); simpl; eauto 6.
Qed.

Lemma fetchLibrary_cases (dateStr : option string) (w : World) (library0 : Library) :
  match fetchLibrary dateStr w library0 with
  | Returned f =>
      library f = library0
      /\ ((isLive f = true /\ error f = None)
          \/ (isLive f = false /\ rooms f = [] /\ is_Some (error f)))
  | Raised m =>
      lib_type library0 = libcal
      /\ (exists u, import_puppeteer (chrome w) = Returned u)
      /\ (launch (chrome w) = Raised m
          \/ ((exists u, launch (chrome w) = Returned u) /\ close (chrome w) = Raised m))
  end.
Proof.
  unfold fetchLibrary. destruct (lib_type library0).
  - destruct (fetchOsuApi_returns library0 dateStr (osu w (lib_id library0)))
      as (f & -> & Hl & Hs). by split.
  - pose proof (scrapeLibCal_cases library0 dateStr (chrome w)) as H.
    destruct (scrapeLibCal library0 dateStr (chrome w)); [done|]. by split.
Qed.

Lemma fetchAll_unfold (dateStr : option string) (w : World) :
  fetchAll dateStr w
  = (f1 ← fetchLibrary dateStr w library_18th_ave;
     f2 ← fetchLibrary dateStr w library_thompson;
     f3 ← fetchLibrary dateStr w library_faes;
     f4 ← fetchLibrary dateStr w library_hsl;
     Returned [f1; f2; f3; f4]).
Proof.
  unfold fetchAll, LIBRARIES. cbn [List.map promise_all].
  unfold mbind, outcome_bind, bind.
  destruct (fetchLibrary dateStr w library_18th_ave); [|done].
  destruct (fetchLibrary dateStr w library_thompson); [|done].
  destruct (fetchLibrary dateStr w library_faes); [|done].
  by destruct (fetchLibrary dateStr w library_hsl).
Qed.

(** X20.  A snapshot has one facility per library, in the order of
    [LIBRARIES].  When the round of fetches returns, its list holds the
    four libraries 18th Avenue, Thompson, FAES and Health Sciences in this
    order, and each facility is either live with no error, or has no rooms
    and the message of an error. *)
Theorem fetchAll_one_facility_per_library
    (dateStr : option string) (w : World) (results : list Facility) :
  fetchAll dateStr w = Returned results ->
  List.map library results = LIBRARIES
  /\ Forall (fun f => (isLive f = true /\ error f = None)
                      \/ (isLive f = false /\ rooms f = [] /\ is_Some (error f))) results.
Proof.
  rewrite fetchAll_unfold. unfold mbind, outcome_bind, bind.
  pose proof (fetchLibrary_cases dateStr w library_18th_ave) as H1.
  pose proof (fetchLibrary_cases dateStr w library_thompson) as H2.
  pose proof (fetchLibrary_cases dateStr w library_faes) as H3.
  pose proof (fetchLibrary_cases dateStr w library_hsl) as H4.
  destruct (fetchLibrary dateStr w library_18th_ave) as [f1|]; [|done].
  destruct (fetchLibrary dateStr w library_thompson) as [f2|]; [|done].
  destruct (fetchLibrary dateStr w library_faes) as [f3|]; [|done].
  destruct (fetchLibrary dateStr w library_hsl) as [f4|]; [|done].
  destruct H1 as [L1 S1], H2 as [L2 S2], H3 as [L3 S3], H4 as [L4 S4].
  intros [= <-]. cbn [List.map]. rewrite L1, L2, L3, L4.
  split; [done|]. repeat (apply Forall_cons; split; [assumption|]). apply Forall_nil_2.
Qed.

Lemma fetchAll_one_facility_per_library_witness :
  fetchAll None world_up = Returned Routes.snapshot_up
  /\ List.map library Routes.snapshot_up = LIBRARIES
  /\ Forall (fun f => (isLive f = true /\ error f = None)
                      \/ (isLive f = false /\ rooms f = [] /\ is_Some (error f)))
       Routes.snapshot_up.
Proof.
  assert (fetchAll None world_up = Returned Routes.snapshot_up) as H
    by (vm_compute; reflexivity).
  split; [exact H|exact (fetchAll_one_facility_per_library _ _ _ H)].
Defined.

Lemma fetchAll_query_text (dateStr : option string) (w : World) :
  fetchAll_query (match dateStr with Some s => DateText s | None => NoDate end) w
  = fetchAll dateStr w.
Proof. by destruct dateStr. Qed.

(** X21.  What makes a snapshot fail: the browser, or a date that is no
    string.  For a date that is a string or missing, the round of fetches
    throws exactly when Puppeteer could be imported and then either the
    browser did not start or it started and [browser.close()] failed; the
    error is that of the failing call; nothing that happens to the three
    requests to the OSU service, and nothing inside the [try] block of
    [scrapeLibCal], makes the round fail.  For a date that is an array or
    an object the round always fails, with the [TypeError] of [fetchOsuApi]
    for the first library, whatever the network and the browser do. *)
Theorem fetchAll_fails_with_the_browser_or_the_date
    (date : QueryDate) (w : World) (message : string) :
  fetchAll_query date w = Raised message
  <-> match date with
      | DateObject _ => message = "dateStr.split is not a function"
      | _ =>
        (exists u, import_puppeteer (chrome w) = Returned u)
        /\ (launch (chrome w) = Raised message
            \/ ((exists u, launch (chrome w) = Returned u)
                /\ close (chrome w) = Raised message))
      end.
Proof.
  assert (forall dateStr,
    fetchAll dateStr w = Raised message
    <-> (exists u, import_puppeteer (chrome w) = Returned u)
        /\ (launch (chrome w) = Raised message
            \/ ((exists u, launch (chrome w) = Returned u)
                /\ close (chrome w) = Raised message))) as Htext.
  { intros dateStr.
    rewrite fetchAll_unfold. unfold mbind, outcome_bind, bind.
    pose proof (fetchLibrary_cases dateStr w library_18th_ave) as H1.
    pose proof (fetchLibrary_cases dateStr w library_thompson) as H2.
    pose proof (fetchLibrary_cases dateStr w library_faes) as H3.
    pose proof (fetchLibrary_cases dateStr w library_hsl) as H4.
    destruct (fetchLibrary dateStr w library_18th_ave) as [f1|]; [|by destruct H1].
    destruct (fetchLibrary dateStr w library_thompson) as [f2|]; [|by destruct H2].
    destruct (fetchLibrary dateStr w library_faes) as [f3|]; [|by destruct H3].
    destruct (fetchLibrary dateStr w library_hsl) as [f4|m] eqn:Hs.
    - split; [done|]. intros ([u Hi] & Hor). exfalso.
      unfold fetchLibrary in Hs. cbn [lib_type library_hsl] in Hs.
      unfold scrapeLibCal in Hs. rewrite Hi in Hs.
      unfold mbind, outcome_bind, bind, try_finally in Hs.
      destruct Hor as [Hl|[[u' Hl] Hc]]; rewrite Hl in Hs; [done|]. by rewrite Hc in Hs.
    - destruct H4 as (_ & Hi & Hor). split.
      + by intros [= <-].
      + intros ([u Hi'] & Hor'). f_equal.
        destruct Hor as [Hl|[[u1 Hl] Hc]], Hor' as [Hl'|[[u2 Hl'] Hc']]; congruence. }
  destruct date as [|s|shown].
  - rewrite (fetchAll_query_text None). apply Htext.
  - rewrite (fetchAll_query_text (Some s)). apply Htext.
  - unfold fetchAll_query, LIBRARIES. cbn [List.map promise_all].
    unfold fetchLibrary_query at 1. cbn [lib_type library_18th_ave fetchOsuApi_query].
    unfold mbind, outcome_bind, bind. split; [by intros [= <-]|by intros ->].
Qed.

(** Sorting by insertion. *)
Lemma ascending_nil {A : Type} (key : A -> Z) : ascending key [].
Proof. intros i j a b _ H. by rewrite lookup_nil in H. Qed.

Lemma ascending_cons {A : Type} (key : A -> Z) (x : A) (l : list A) :
  ascending key (x :: l) <-> (forall y, In y l -> (key x <= key y)%Z) /\ ascending key l.
Proof.
  split.
  - intros H. split.
    + intros y Hy. apply list_elem_of_In, list_elem_of_lookup in Hy as [j Hj].
      apply (H 0%nat (S j) x y); [lia|done|done].
    + intros i j a b Hij Ha Hb. apply (H (S i) (S j) a b); [lia|done|done].
  - intros [Hx Hl] [|i] [|j] a b Hij Ha Hb; simpl in *; try lia.
    + injection Ha as <-. apply Hx, list_elem_of_In, list_elem_of_lookup. eauto.
    + apply (Hl i j a b); [lia|done|done].
Qed.

Lemma In_insert_sorted {A : Type} (key : A -> Z) (x y : A) (l : list A) :
  In y (insert_sorted key x l) -> y = x \/ In y l.
Proof.
  induction l as [|z l IH]; simpl.
  - intros [<-|[]]. by left.
  - destruct (key x <=? key z)%Z; simpl.
    + intros [<-|H]; [by left|by right].
    + intros [<-|H]; [right; by left|]. destruct (IH H); [by left|right; by right].
Qed.

Lemma insert_sorted_ascending {A : Type} (key : A -> Z) (x : A) (l : list A) :
  ascending key l -> ascending key (insert_sorted key x l).
Proof.
  induction l as [|z l IH]; intros Hl; simpl.
  - apply ascending_cons. split; [done|apply ascending_nil].
  - destruct (Z.leb_spec (key x) (key z)).
    + apply ascending_cons. split; [|done].
      apply ascending_cons in Hl as [Hz _].
      intros y [<-|Hy]; [done|]. specialize (Hz y Hy). lia.
    + apply ascending_cons in Hl as [Hz Hl]. apply ascending_cons. split; [|by apply IH].
      intros y Hy. apply In_insert_sorted in Hy as [->|Hy]; [lia|by apply Hz].
Qed.

Lemma sort_by_ascending {A : Type} (key : A -> Z) (l : list A) : ascending key (sort_by key l).
Proof.
  induction l as [|x l IH]; simpl; [apply ascending_nil|by apply insert_sorted_ascending].
Qed.

(** X22.  The slots of every room that the page function returns are in
    ascending order of their time of day, as [parseTime] reads it (a time
    it cannot read counts as midnight), whatever the elements of the page
    are for which the function returns. *)
Theorem evaluate_sorts_the_slots (targetDateStr : option string) (today : Z)
    (slots : list Element) (room : string * list Slot) :
  forall rooms, evaluate targetDateStr today slots = Returned rooms ->
  In room rooms ->
  ascending (fun s => parseTime (time s)) room.2.
Proof.
  unfold evaluate, mbind, outcome_bind, bind. intros rooms Hev Hin.
  destruct (fold_outcome _ slots []) as [roomData|]; [|done]. injection Hev as <-.
  apply in_map_iff in Hin as (r & <- & _). apply sort_by_ascending.
Qed.

Lemma evaluate_sorts_the_slots_witness :
  let elements :=
    [ {| title := Some "1:30pm Wednesday, January 21, 2026 - 360H - Available";
         ariaLabel := None; className := "s-lc-eq-avail" |};
      {| title := Some "11:00am Wednesday, January 21, 2026 - 360H - Available";
         ariaLabel := None; className := "s-lc-eq-avail" |} ] in
  let room := ("360H", [ {| time := "11:00am"; available := true; starttime := None |};
                         {| time := "1:30pm"; available := true; starttime := None |} ]) in
  evaluate (Some "2026-01-21") 20474 elements = Returned [room]
  /\ ascending (fun s => parseTime (time s)) room.2.
Proof.
  cbv zeta.
  assert (evaluate (Some "2026-01-21") 20474
            [ {| title := Some "1:30pm Wednesday, January 21, 2026 - 360H - Available";
                 ariaLabel := None; className := "s-lc-eq-avail" |};
              {| title := Some "11:00am Wednesday, January 21, 2026 - 360H - Available";
                 ariaLabel := None; className := "s-lc-eq-avail" |} ]
          = Returned [("360H", [ {| time := "11:00am"; available := true; starttime := None |};
                                 {| time := "1:30pm"; available := true; starttime := None |} ])])
    as H by (vm_compute; reflexivity).
  split; [exact H|]. apply (evaluate_sorts_the_slots _ _ _ _ _ H). by left.
Defined.

Lemma hsl_roomInfo_values (k : string) (v : Z * Z) :
  hsl_roomInfo !! k = Some v -> v = (5%Z, 3%Z).
Proof.
  unfold hsl_roomInfo. intros H. apply elem_of_list_to_map_2 in H.
  apply list_elem_of_In, in_map_iff in H as (r & [= _ <-] & _). done.
Qed.

(** X23.  The table [roomInfo] of the Health Sciences Library never
    matters: every room scraped there, whatever its name, gets capacity 5,
    floor 3 and the amenities whiteboard and monitor, because the entries of
    the table and the values used for a missing entry are the same. *)
Theorem hsl_metadata_is_constant (data : list (string * list Slot)) :
  addMetadata library_hsl data
  = Returned (List.map (fun room =>
      {| name := room.1; fullName := None; capacity := 5; floor := FloorNumber 3;
         amenities := ["whiteboard"; "monitor"]; slots := room.2 |}) data).
Proof.
  unfold addMetadata. cbn [roomInfo library_hsl]. f_equal.
  apply map_ext. intros [k s]. cbn [fst snd].
  destruct (hsl_roomInfo !! k) as [[c f]|] eqn:Hk; [|done].
  apply hsl_roomInfo_values in Hk. injection Hk as -> ->. done.
Qed.

End AdapterInvariants.

Module FormatTheory.
Import JsString Regex Calendar Adapters Formatting Range StringFacts.
Local Open Scope list_scope.

Lemma split_colon_not_nil (s : string) : split_colon s <> [].
Proof.
  induction s as [|c s IH]; simpl; [done|].
  destruct (Ascii.eqb c ":"); [done|]. by destruct (split_colon s).
Qed.

(** The field before the first colon. *)
Lemma split_colon_field (a s : string) :
  includes ":" a = false ->
  split_colon (String.append a (String ":" s)) = a :: split_colon s.
Proof.
  induction a as [|c a IH]; intros Ha.
  - done.
  - cbn [includes starts_with] in Ha. apply orb_false_elim in Ha as [Hc Ha].
    rewrite andb_true_r in Hc. rewrite Ascii.eqb_sym in Hc.
    rewrite append_cons. cbn [split_colon]. rewrite Hc, (IH Ha). done.
Qed.

Lemma split_colon_last (a : string) : includes ":" a = false -> split_colon a = [a].
Proof.
  induction a as [|c a IH]; intros Ha; [done|].
  cbn [includes starts_with] in Ha. apply orb_false_elim in Ha as [Hc Ha].
  rewrite andb_true_r in Hc. rewrite Ascii.eqb_sym in Hc.
  cbn [split_colon]. by rewrite Hc, (IH Ha).
Qed.

Lemma pad2_colon_free (n : Z) : (0 <= n <= 99)%Z -> includes ":" (pad2 n) = false.
Proof.
  intros Hn. destruct (CalendarTheory.pad2_digits n Hn) as (a & b & -> & Ha & Hb & _).
  cbn [includes starts_with]. rewrite !andb_true_r.
  assert (forall c, is_digit c = true -> Ascii.eqb ":" c = false) as Hd.
  { intros c Hc. destruct (Ascii.eqb_spec ":" c) as [<-|]; [|done]. by vm_compute in Hc. }
  by rewrite (Hd a Ha), (Hd b Hb).
Qed.

(** The times of a day, checked one by one. *)
Lemma formatEstTime_day :
  forall_range (fun h =>
    forall_range (fun m =>
      (parseTime (formatEstTime (String.append (pad2 h) (String ":" (pad2 m))))
       =? h * 60 + m)%Z) 0 60) 0 24 = true.
Proof. vm_compute. reflexivity. Qed.

(** X24.  The display time of a slot of the OSU service reads back as its
    minute of the day.  For every start time [HH:MM:...] of a day,
    [formatEstTime] gives a string in the format that the slot times of the
    Health Sciences Library have, and [parseTime], which sorts those, reads
    it as [60 * HH + MM]; so different times of the day are displayed
    differently, and what stands after the minutes does not matter. *)
Theorem formatEstTime_reads_back (h m : Z) (seconds : string) :
  (0 <= h < 24)%Z -> (0 <= m < 60)%Z ->
  parseTime (formatEstTime
    (String.append (pad2 h) (String ":" (String.append (pad2 m) (String ":" seconds)))))
  = (h * 60 + m)%Z.
Proof.
  intros Hh Hm.
  pose proof (CalendarTheory.forall_range_spec _ _ _ formatEstTime_day h ltac:(lia)) as H.
  cbv beta in H.
  pose proof (CalendarTheory.forall_range_spec _ _ _ H m ltac:(lia)) as H'.
  cbv beta in H'. apply Z.eqb_eq in H'. rewrite <- H'. f_equal.
  unfold formatEstTime.
  rewrite !split_colon_field by (apply pad2_colon_free; lia).
  rewrite (split_colon_last (pad2 m)) by (apply pad2_colon_free; lia).
  destruct (split_colon seconds); done.
Qed.

Lemma formatEstTime_reads_back_witness :
  (0 <= 13 < 24)%Z /\ (0 <= 5 < 60)%Z
  /\ parseTime (formatEstTime
       (String.append (pad2 13) (String ":" (String.append (pad2 5) (String ":" "00")))))
     = (13 * 60 + 5)%Z.
Proof.
  assert (0 <= 13 < 24)%Z as Hh by lia. assert (0 <= 5 < 60)%Z as Hm by lia.
  split; [exact Hh|]. split; [exact Hm|].
  exact (formatEstTime_reads_back 13 5 "00" Hh Hm).
Defined.

End FormatTheory.

Module BootstrapTheory.
Import JsString Bootstrap StringFacts.
Local Open Scope list_scope.

Lemma includes_char_cons (a c : ascii) (s : string) :
  includes (String a EmptyString) (String c s)
  = Ascii.eqb a c || includes (String a EmptyString) s.
Proof. cbn [includes starts_with]. by rewrite andb_true_r. Qed.

Lemma includes_char_app (a : ascii) (s t : string) :
  includes (String a EmptyString) (String.append s t)
  = includes (String a EmptyString) s || includes (String a EmptyString) t.
Proof.
  induction s as [|c s IH].
  - rewrite append_empty. cbn [includes starts_with]. by destruct t.
  - rewrite append_cons, !includes_char_cons, IH. by rewrite orb_assoc.
Qed.

(** A string that holds [p] holds the first character of [p]. *)
Lemma includes_first_char (a : ascii) (p s : string) :
  includes (String a p) s = true -> includes (String a EmptyString) s = true.
Proof.
  induction s as [|c s IH]; cbn [includes starts_with]; [done|].
  rewrite andb_true_r. intros [H|H]%orb_prop.
  - apply andb_prop in H as [-> _]. done.
  - rewrite (IH H). apply orb_true_r.
Qed.

Lemma escape_lt_no_lt (text : string) : includes "<" (escape_lt text) = false.
Proof.
  induction text as [|c text IH]; [done|]. cbn [escape_lt].
  destruct (Ascii.eqb c "<") eqn:Hc.
  - rewrite !includes_char_app, IH. done.
  - rewrite includes_char_cons, IH, Ascii.eqb_sym, Hc. done.
Qed.

(** X25.  The bootstrap data cannot end the script it is put in: the text
    that [safeJsonForHtml] returns holds no [<] at all, whatever the data,
    and so it holds no [</script>]. *)
Theorem safeJsonForHtml_has_no_tag (json : string) :
  includes "<" (safeJsonForHtml json) = false
  /\ includes "</script>" (safeJsonForHtml json) = false.
Proof.
  split; [apply escape_lt_no_lt|].
  destruct (includes "</script>" (safeJsonForHtml json)) eqn:H; [|done].
  apply includes_first_char in H. unfold safeJsonForHtml in H.
  by rewrite escape_lt_no_lt in H.
Qed.

Lemma escape_lt_app (s t : string) :
  escape_lt (String.append s t) = String.append (escape_lt s) (escape_lt t).
Proof.
  induction s as [|c s IH]; [done|]. rewrite append_cons. cbn [escape_lt].
  destruct (Ascii.eqb c "<"); rewrite IH; [|done].
  by rewrite <- !append_assoc.
Qed.

Lemma escape_lt_dollar (text : string) :
  includes "$" (escape_lt text) = includes "$" text.
Proof.
  induction text as [|c text IH]; [done|]. cbn [escape_lt].
  destruct (Ascii.eqb_spec c "<") as [->|Hc].
  - rewrite !includes_char_app, IH. done.
  - by rewrite !includes_char_cons, IH.
Qed.

(** A replacement text goes in unchanged up to its first dollar sign. *)
Lemma substitute_app (matched before after r r' : string) :
  includes "$" r = false ->
  substitute matched before after (String.append r r')
  = String.append r (substitute matched before after r').
Proof.
  induction r as [|c r IH]; intros Hr; [done|].
  rewrite includes_char_cons in Hr. apply orb_false_elim in Hr as [Hc Hr].
  rewrite Ascii.eqb_sym in Hc. rewrite !append_cons. cbn [substitute].
  rewrite Hc. by rewrite (IH Hr).
Qed.

Lemma substitute_plain (matched before after r : string) :
  includes "$" r = false -> substitute matched before after r = r.
Proof.
  intros Hr. rewrite <- (append_nil_r r) at 1.
  rewrite substitute_app by done. cbn [substitute]. apply append_nil_r.
Qed.

Lemma split_first_spec (pattern s before after : string) :
  split_first pattern s = Some (before, after) ->
  s = String.append before (String.append pattern after).
Proof.
  revert before. induction s as [|c s IH]; intros before; cbn [split_first].
  - destruct (starts_with pattern "") eqn:Hp; [|done].
    intros [= <- <-]. destruct pattern; [done|discriminate].
  - destruct (starts_with pattern (String c s)) eqn:Hp.
    + intros [= <- <-]. rewrite append_empty. clear IH.
      revert Hp. generalize (String c s). clear. induction pattern as [|a p IH]; intros s Hp.
      * done.
      * destruct s as [|b s]; [done|]. cbn [starts_with] in Hp.
        apply andb_prop in Hp as [Hab Hp]. apply Ascii.eqb_eq in Hab as ->.
        cbn [String.length drop]. rewrite append_cons. f_equal. by apply IH.
    + destruct (split_first pattern s) as [[b a]|]; [|done].
      intros [= <- <-]. rewrite append_cons. f_equal. by apply IH.
Qed.

(** X26.  Data without a dollar sign is put into the page as it is: when
    the template has a [</head>] and the JSON text holds no [$], the page
    is the template with the script tag, a line break and [</head>] in
    place of the first [</head>]. *)
Theorem inject_puts_the_tag_before_head (template before after json : string) :
  split_first "</head>" template = Some (before, after) ->
  includes "$" json = false ->
  template = String.append before (String.append "</head>" after)
  /\ inject template json
     = String.append before
         (String.append (bootstrapTag json)
            (String.append newline (String.append "</head>" after))).
Proof.
  intros Hsplit Hjson. split; [by apply split_first_spec|].
  unfold inject, replace. rewrite Hsplit. f_equal.
  rewrite substitute_plain.
  - by rewrite <- !append_assoc.
  - unfold bootstrapTag, safeJsonForHtml.
    rewrite !includes_char_app, escape_lt_dollar, Hjson. done.
Qed.

Lemma inject_puts_the_tag_before_head_witness :
  split_first "</head>" "<html><head></head><body></body></html>"
    = Some ("<html><head>", "<body></body></html>")
  /\ includes "$" "{}" = false
  /\ ("<html><head></head><body></body></html>"
      = String.append "<html><head>" (String.append "</head>" "<body></body></html>")
      /\ inject "<html><head></head><body></body></html>" "{}"
         = String.append "<html><head>"
             (String.append (bootstrapTag "{}")
                (String.append newline (String.append "</head>" "<body></body></html>")))).
Proof.
  assert (split_first "</head>" "<html><head></head><body></body></html>"
          = Some ("<html><head>", "<body></body></html>")) as H by (vm_compute; reflexivity).
  assert (includes "$" "{}" = false) as Hj by (vm_compute; reflexivity).
  split; [exact H|]. split; [exact Hj|].
  exact (inject_puts_the_tag_before_head _ _ _ _ H Hj).
Defined.

(** X27.  Data with a dollar pattern is not put into the page as it is.
    [String.prototype.replace] reads the replacement text for patterns:
    where the JSON text holds [$'] (after a part with no dollar sign), the
    page holds, inside the script, everything that follows [</head>] in
    the template instead. *)
Theorem inject_expands_dollar_patterns (template before after a b : string) :
  split_first "</head>" template = Some (before, after) ->
  includes "$" a = false ->
  includes "$" b = false ->
  inject template (String.append a (String.append "$'" b))
  = String.append before
      (String.append "<script>window.__LIBRARYSPOT_INITIAL__="
         (String.append (safeJsonForHtml a)
            (String.append after
               (String.append (safeJsonForHtml b)
                  (String.append ";</script>"
                     (String.append newline (String.append "</head>" after))))))).
Proof.
  intros Hsplit Ha Hb. unfold inject, replace. rewrite Hsplit. f_equal.
  unfold bootstrapTag, safeJsonForHtml. rewrite !escape_lt_app.
  change (escape_lt "$'") with "$'".
  rewrite <- !append_assoc.
  rewrite (substitute_app _ _ _ "<script>window.__LIBRARYSPOT_INITIAL__=") by done.
  rewrite <- !append_assoc. f_equal.
  rewrite substitute_app by (by rewrite escape_lt_dollar).
  rewrite <- !append_assoc. f_equal.
  change (String.append "$'" ?s) with (String "$" (String "'" s)).
  cbn [substitute Ascii.eqb Bool.eqb].
  rewrite <- !append_assoc. f_equal.
  rewrite substitute_app by (by rewrite escape_lt_dollar).
  rewrite <- !append_assoc. by f_equal.
Qed.

Lemma inject_expands_dollar_patterns_witness :
  split_first "</head>" "<html><head></head><body></body></html>"
    = Some ("<html><head>", "<body></body></html>")
  /\ includes "$" "{x:" = false
  /\ includes "$" "}" = false
  /\ inject "<html><head></head><body></body></html>"
       (String.append "{x:" (String.append "$'" "}"))
     = String.append "<html><head>"
         (String.append "<script>window.__LIBRARYSPOT_INITIAL__="
            (String.append (safeJsonForHtml "{x:")
               (String.append "<body></body></html>"
                  (String.append (safeJsonForHtml "}")
                     (String.append ";</script>"
                        (String.append newline
                           (String.append "</head>" "<body></body></html>"))))))).
Proof.
  assert (split_first "</head>" "<html><head></head><body></body></html>"
          = Some ("<html><head>", "<body></body></html>")) as H by (vm_compute; reflexivity).
  assert (includes "$" "{x:" = false) as Ha by (vm_compute; reflexivity).
  assert (includes "$" "}" = false) as Hb by (vm_compute; reflexivity).
  split; [exact H|]. split; [exact Ha|]. split; [exact Hb|].
  exact (inject_expands_dollar_patterns _ _ _ _ _ H Ha Hb).
Defined.

End BootstrapTheory.

Module RoomTheory.
Import JsString Adapters Formatting Grouping.
Local Open Scope list_scope.

Lemma fold_outcome_app {A B : Type} (f : A -> B -> Outcome A) (l1 l2 : list B) (a : A) :
  fold_outcome f (l1 ++ l2) a
  = match fold_outcome f l1 a with
    | Returned a' => fold_outcome f l2 a'
    | Raised e => Raised e
    end.
Proof.
  revert a. induction l1 as [|x l1 IH]; intros a; [done|].
  simpl. destruct (f a x); [apply IH|done].
Qed.

Lemma group_rooms_concat (records : list (list Timeslot)) :
  group_rooms records = fold_outcome add_timeslot (concat records) [].
Proof.
  unfold group_rooms. generalize (@nil (string * Room)).
  induction records as [|r records IH]; intros m; [done|].
  cbn [fold_outcome concat]. rewrite fold_outcome_app.
  destruct (fold_outcome add_timeslot r m); [apply IH|done].
Qed.

Lemma filter_snoc {A : Type} (f : A -> bool) (l : list A) (x : A) :
  List.filter f (l ++ [x]) = List.filter f l ++ (if f x then [x] else []).
Proof. rewrite List.filter_app. simpl. by destruct (f x). Qed.

Lemma head_snoc {A : Type} (l : list A) (x y : A) : head l = Some y -> head (l ++ [x]) = Some y.
Proof. by destruct l. Qed.

Lemma filter_and_nil {A : Type} (f g : A -> bool) (l : list A) :
  List.filter f l = [] -> List.filter (fun x => f x && g x) l = [].
Proof.
  induction l as [|x l IH]; [done|]. simpl.
  destruct (f x); [done|]. simpl. exact IH.
Qed.

(** The function given to [forEach] throws on a record that is [throwing],
    and files every other one. *)
Lemma add_timeslot_cases m t :
  (forall k, Obj.inherited k = true -> Obj.get k m = None) ->
  add_timeslot m t
  = if throwing t then Raised "Cannot read properties of undefined"
    else Returned (file_timeslot m t).
Proof.
  intros Hm. unfold add_timeslot, file_timeslot, throwing, entered, Obj.lookup.
  destruct (roomHide t); [done|]. cbn [negb andb].
  set (kt := extractRoomNumber (roomName t)).
  destruct (Obj.inherited kt) eqn:Hk; cbn [negb].
  - rewrite (Hm kt Hk). destruct (ts_open t); [|done]. by rewrite (Hm kt Hk).
  - destruct (Obj.get kt m) as [room|] eqn:Hget.
    + destruct (ts_open t); [|done]. by rewrite Hget.
    + destruct (ts_open t); [|done]. by rewrite SlotTheory.get_set_eq.
Qed.

Lemma file_timeslot_skipped m t : entered t = false -> file_timeslot m t = m.
Proof. intros H. unfold file_timeslot. by rewrite H. Qed.

Lemma file_timeslot_other m t k :
  extractRoomNumber (roomName t) <> k -> Obj.get k (file_timeslot m t) = Obj.get k m.
Proof.
  intros Hne. unfold file_timeslot. destruct (entered t); [|done].
  set (kt := extractRoomNumber (roomName t)) in *.
  destruct (Obj.get kt m) as [room|] eqn:Hget.
  - destruct (ts_open t); [|done]. rewrite Hget. by apply SlotTheory.get_set_ne.
  - destruct (ts_open t).
    + rewrite SlotTheory.get_set_eq, !SlotTheory.get_set_ne by done. done.
    + by apply SlotTheory.get_set_ne.
Qed.

Lemma file_timeslot_same m t :
  entered t = true ->
  Obj.get (extractRoomNumber (roomName t)) (file_timeslot m t)
  = Some (let room := default (new_room t (extractRoomNumber (roomName t)))
                        (Obj.get (extractRoomNumber (roomName t)) m) in
          if ts_open t then push_slot room (slot_of t) else room).
Proof.
  intros Hin. unfold file_timeslot. rewrite Hin.
  set (kt := extractRoomNumber (roomName t)) in *. cbv zeta.
  destruct (Obj.get kt m) as [room|] eqn:Hget; simpl.
  - destruct (ts_open t); [|done]. rewrite Hget. apply SlotTheory.get_set_eq.
  - destruct (ts_open t).
    + rewrite SlotTheory.get_set_eq. apply SlotTheory.get_set_eq.
    + apply SlotTheory.get_set_eq.
Qed.

(** No entry is ever made under the name of a member of
    [Object.prototype]. *)
Lemma file_timeslot_plain m t :
  (forall k, Obj.inherited k = true -> Obj.get k m = None) ->
  forall k, Obj.inherited k = true -> Obj.get k (file_timeslot m t) = None.
Proof.
  intros Hm k Hk. destruct (entered t) eqn:Hin; [|by rewrite file_timeslot_skipped; auto].
  rewrite file_timeslot_other; [by apply Hm|].
  unfold entered in Hin. apply andb_prop in Hin as [_ Hin]. apply negb_true_iff in Hin.
  congruence.
Qed.

Lemma grouped_step ts m t :
  (forall k, Obj.inherited k = false -> grouped ts m k) ->
  forall k, Obj.inherited k = false -> grouped (ts ++ [t]) (file_timeslot m t) k.
Proof.
  intros H k Hk. specialize (H k Hk). unfold grouped in *. rewrite !filter_snoc.
  destruct (shown_as k t) eqn:Hshown.
  - unfold shown_as in Hshown. apply andb_prop in Hshown as [Hhide Hkt].
    apply String.eqb_eq in Hkt. subst k.
    assert (entered t = true) as Hin by (unfold entered; by rewrite Hhide, Hk).
    rewrite (file_timeslot_same m t Hin). cbv zeta.
    destruct (Obj.get (extractRoomNumber (roomName t)) m) as [room|]; simpl.
    + destruct H as (first & Hhead & ->). exists first. split; [by apply head_snoc|].
      destruct (ts_open t); [|by rewrite app_nil_r].
      by rewrite List.map_app, fold_left_app.
    + rewrite H, (filter_and_nil _ _ _ H). exists t. split; [done|].
      by destruct (ts_open t).
  - simpl. rewrite !app_nil_r.
    unfold shown_as in Hshown. apply andb_false_iff in Hshown as [Hhide|Hkt].
    + apply negb_false_iff in Hhide. rewrite file_timeslot_skipped; [done|].
      unfold entered. by rewrite Hhide.
    + apply String.eqb_neq in Hkt. by rewrite (file_timeslot_other m t k Hkt).
Qed.

Lemma grouped_fold ts :
  (forall k, Obj.inherited k = true -> Obj.get k (fold_left file_timeslot ts []) = None)
  /\ forall k, Obj.inherited k = false -> grouped ts (fold_left file_timeslot ts []) k.
Proof.
  induction ts as [|t ts [IH1 IH2]] using rev_ind.
  - split; [done|]. by intros k _.
  - rewrite fold_left_app. simpl. split.
    + by apply file_timeslot_plain.
    + by apply grouped_step.
Qed.

Lemma fold_add_timeslot ts : forall m,
  (forall k, Obj.inherited k = true -> Obj.get k m = None) ->
  fold_outcome add_timeslot ts m
  = if existsb throwing ts then Raised "Cannot read properties of undefined"
    else Returned (fold_left file_timeslot ts m).
Proof.
  induction ts as [|t ts IH]; intros m Hm; [done|].
  cbn [fold_outcome existsb fold_left]. rewrite add_timeslot_cases by done.
  destruct (throwing t); [done|]. cbn [orb]. apply IH. by apply file_timeslot_plain.
Qed.

(** X28.  [fetchOsuApi] groups the time slot records by room number, as
    [extractRoomNumber] reads it from the room name.  The two loops over the
    answer throw exactly when some record that is shown and open has for room
    number the name of a member of [Object.prototype].  Otherwise [roomsMap]
    has no entry under such a name, and under any other room number it has an
    entry exactly when a record that is not hidden has this number; the
    name, capacity, floor and amenities of the entry are those of the first
    such record; and its slots are the open ones among these records, in the
    order of the answer, each with its display time and available unless
    taken.  A hidden record changes nothing, and a room whose records are all
    closed is listed with no slots. *)
Theorem rooms_are_grouped (locationAvailableRooms : list (list Timeslot)) :
  let records := concat locationAvailableRooms in
  if existsb throwing records
  then group_rooms locationAvailableRooms = Raised "Cannot read properties of undefined"
  else exists roomsMap,
    group_rooms locationAvailableRooms = Returned roomsMap
    /\ forall k,
        if Obj.inherited k then Obj.get k roomsMap = None
        else match Obj.get k roomsMap with
             | None => List.filter (shown_as k) records = []
             | Some room =>
                 exists first,
                   head (List.filter (shown_as k) records) = Some first
                   /\ room = fold_left push_slot
                               (List.map slot_of
                                  (List.filter (fun t => shown_as k t && ts_open t) records))
                               (new_room first k)
             end.
Proof.
  cbv zeta. rewrite group_rooms_concat, fold_add_timeslot by done.
  destruct (existsb throwing (concat locationAvailableRooms)); [done|].
  eexists. split; [reflexivity|]. intros k.
  destruct (grouped_fold (concat locationAvailableRooms)) as [H1 H2].
  destruct (Obj.inherited k) eqn:Hk; [by apply H1|]. by apply (H2 k Hk).
Qed.

End RoomTheory.

Module PageTheory.
Import JsString Adapters Cache Bootstrap Page.
Local Open Scope list_scope.

Lemma page_state_eta (st : PageState) :
  st = {| cachedBootstrapHtml := cachedBootstrapHtml st;
          cachedBootstrapAt := cachedBootstrapAt st;
          bootstrapInFlight := bootstrapInFlight st; builds := builds st;
          page_awaiting := page_awaiting st; next_build := next_build st; sent := sent st |}.
Proof. by destruct st. Qed.

(** The requests resumed at the end of a build leave everything but
    [bootstrapInFlight] and the answers alone. *)
Lemma page_resume_all result ws st :
  fold_left (page_resume result) ws st =
  {| cachedBootstrapHtml := cachedBootstrapHtml st;
     cachedBootstrapAt := cachedBootstrapAt st;
     bootstrapInFlight := if existsb is_initiator ws then None else bootstrapInFlight st;
     builds := builds st; page_awaiting := page_awaiting st; next_build := next_build st;
     sent := sent st ++ List.map (fun w => (caller w, result)) ws |}.
Proof.
  revert st. induction ws as [|w ws IH]; intros st; simpl.
  - rewrite app_nil_r. apply page_state_eta.
  - rewrite IH. unfold page_resume, is_initiator, send.
    destruct (role w); simpl; rewrite <- app_assoc; simpl; [|done].
    by destruct (existsb _ ws).
Qed.

Lemma build_end_unfold p template json finishedAt st :
  p ∈ builds st ->
  build_end p template json finishedAt st =
  {| cachedBootstrapHtml := match build_html template json with
                            | Returned out => Some out
                            | Raised _ => cachedBootstrapHtml st
                            end;
     cachedBootstrapAt := match build_html template json with
                          | Returned _ => finishedAt
                          | Raised _ => cachedBootstrapAt st
                          end;
     bootstrapInFlight := if existsb is_initiator (List.filter (awaits p) (page_awaiting st))
                          then None else bootstrapInFlight st;
     builds := builds st ∖ {[p]};
     page_awaiting := List.filter (fun w => negb (awaits p w)) (page_awaiting st);
     next_build := next_build st;
     sent := sent st ++ List.map (fun w => (caller w, build_html template json))
                          (List.filter (awaits p) (page_awaiting st)) |}.
Proof.
  intros Hp. unfold build_end. rewrite bool_decide_true by done. cbv zeta.
  by rewrite page_resume_all.
Qed.

Lemma build_end_unknown p template json finishedAt st :
  p ∉ builds st -> build_end p template json finishedAt st = st.
Proof. intros Hp. unfold build_end. by rewrite bool_decide_false. Qed.

(** The three ways a request can go. *)
Lemma request_cases c now st :
  (exists html, cached_page now st = Some html
                /\ renderIndexWithBootstrap c now st = send c (Returned html) st)
  \/ (exists p, cached_page now st = None /\ bootstrapInFlight st = Some p
                /\ renderIndexWithBootstrap c now st = page_suspend c p Joiner st)
  \/ (cached_page now st = None /\ bootstrapInFlight st = None
      /\ renderIndexWithBootstrap c now st
         = page_suspend c (next_build st) Initiator (start_build st)).
Proof.
  unfold renderIndexWithBootstrap. destruct (cached_page now st) as [html|]; [eauto|].
  destruct (bootstrapInFlight st) as [p|]; eauto 6.
Qed.

Lemma page_consistent_init : page_consistent page_init.
Proof.
  repeat split; simpl; try done. intros w Hw. by apply not_elem_of_nil in Hw.
Qed.

Lemma build_in_flight st p :
  page_consistent st -> p ∈ builds st -> bootstrapInFlight st = Some p.
Proof.
  intros (H1 & _) Hp. rewrite H1 in Hp. destruct (bootstrapInFlight st) as [q|].
  - apply elem_of_singleton in Hp. by subst.
  - by apply not_elem_of_empty in Hp.
Qed.

Lemma page_consistent_step st ev : page_consistent st -> page_consistent (page_step st ev).
Proof.
  intros (H1 & H2 & H3). destruct ev as [c now|p template json finishedAt]; simpl.
  - destruct (request_cases c now st) as [(html & _ & ->)|[(p & _ & Hp & ->)|(_ & Hn & ->)]].
    + done.
    + split; [done|]. split; simpl.
      * intros q Hq. destruct (H2 q Hq) as [Hlt [c' Hc']]. split; [done|].
        exists c'. apply elem_of_app. by left.
      * intros w [Hw|Hw]%elem_of_app; [by apply H3|].
        apply list_elem_of_singleton in Hw as ->. done.
    + split; [|split]; simpl.
      * rewrite H1, Hn. apply union_empty_r_L.
      * intros q [= <-]. split; [lia|].
        exists c. apply elem_of_app. right. by apply list_elem_of_singleton.
      * intros w [Hw|Hw]%elem_of_app.
        -- apply H3 in Hw. congruence.
        -- apply list_elem_of_singleton in Hw as ->. done.
  - destruct (decide (p ∈ builds st)) as [Hp|Hp]; [|by rewrite build_end_unknown].
    rewrite (build_end_unfold _ _ _ _ _ Hp).
    pose proof (build_in_flight st p (conj H1 (conj H2 H3)) Hp) as Hfl.
    destruct (H2 p Hfl) as [_ [c0 Hc0]].
    rewrite (CacheTheory.initiator_awaits _ _ _ Hc0).
    split; [|split]; simpl.
    + rewrite H1, Hfl. apply difference_diag_L.
    + done.
    + intros w Hw. apply list_elem_of_In, filter_In in Hw as [Hw Hne].
      apply list_elem_of_In, H3 in Hw. unfold awaits in Hne.
      apply negb_true_iff, Nat.eqb_neq in Hne. congruence.
Qed.

Lemma page_consistent_run evs st : page_consistent st -> page_consistent (page_run st evs).
Proof.
  revert st. induction evs as [|ev evs IH]; intros st H; [done|].
  simpl. apply IH. by apply page_consistent_step.
Qed.

Lemma page_step_conserves st ev :
  List.map fst (sent (page_step st ev)) ++ List.map caller (page_awaiting (page_step st ev))
  ≡ₚ (List.map fst (sent st) ++ List.map caller (page_awaiting st)) ++ requesters [ev].
Proof.
  destruct ev as [c now|p template json finishedAt]; simpl.
  - destruct (request_cases c now st) as [(html & _ & ->)|[(p & _ & _ & ->)|(_ & _ & ->)]];
      simpl; rewrite ?List.map_app; simpl.
    + rewrite <- !app_assoc. apply Permutation_app_head. simpl.
      by rewrite Permutation_app_comm.
    + by rewrite <- !app_assoc.
    + by rewrite <- !app_assoc.
  - rewrite app_nil_r.
    destruct (decide (p ∈ builds st)) as [Hp|Hp]; [|by rewrite build_end_unknown].
    rewrite (build_end_unfold _ _ _ _ _ Hp). simpl.
    rewrite List.map_app, List.map_map, <- app_assoc. simpl.
    apply Permutation_app_head.
    rewrite <- List.map_app. apply Permutation_map, CacheInvariants.filter_split.
Qed.

Lemma page_run_conserves evs st :
  List.map fst (sent (page_run st evs)) ++ List.map caller (page_awaiting (page_run st evs))
  ≡ₚ (List.map fst (sent st) ++ List.map caller (page_awaiting st)) ++ requesters evs.
Proof.
  revert st. induction evs as [|ev evs IH]; intros st.
  - simpl. by rewrite app_nil_r.
  - change (page_run st (ev :: evs)) with (page_run (page_step st ev) evs).
    rewrite IH, page_step_conserves. change (ev :: evs) with ([ev] ++ evs).
    unfold requesters. by rewrite omap_app, <- !app_assoc.
Qed.

(** X29.  The page is built by one request at a time.  In every state that
    [renderIndexWithBootstrap] can reach, at most one build is in flight and
    it is the one behind [bootstrapInFlight]; a request that arrives while
    it is in flight starts no build; and no request is lost or answered
    twice: the requests answered and the requests suspended are the
    requests made. *)
Theorem one_build_at_a_time (evs : list PageEvent) :
  let st := page_run page_init evs in
  (size (builds st) <= 1)%nat
  /\ (forall c now, is_Some (bootstrapInFlight st) ->
        builds (renderIndexWithBootstrap c now st) = builds st)
  /\ List.map fst (sent st) ++ List.map caller (page_awaiting st) ≡ₚ requesters evs.
Proof.
  cbv zeta.
  destruct (page_consistent_run evs page_init page_consistent_init) as (H1 & _).
  split; [|split].
  - rewrite H1. destruct (bootstrapInFlight _); [by rewrite size_singleton|].
    rewrite size_empty. lia.
  - intros c now [p Hp].
    destruct (request_cases c now (page_run page_init evs))
      as [(html & _ & ->)|[(q & _ & _ & ->)|(_ & Hn & _)]]; [done|done|congruence].
  - by rewrite page_run_conserves.
Qed.

Lemma requests_served out finishedAt cs st :
  cachedBootstrapHtml st = Some out -> out <> EmptyString ->
  cachedBootstrapAt st = finishedAt ->
  Forall (fun c : nat * Z => (c.2 - finishedAt < BOOTSTRAP_TTL)%Z) cs ->
  page_run st (requests cs) =
  {| cachedBootstrapHtml := cachedBootstrapHtml st; cachedBootstrapAt := cachedBootstrapAt st;
     bootstrapInFlight := bootstrapInFlight st; builds := builds st;
     page_awaiting := page_awaiting st; next_build := next_build st;
     sent := sent st ++ List.map (fun c : nat * Z => (c.1, Returned out)) cs |}.
Proof.
  intros Hhtml Hne Hat Hcs. revert st Hhtml Hat.
  induction cs as [|c cs IH]; intros st Hhtml Hat.
  - simpl. rewrite app_nil_r. apply page_state_eta.
  - apply Forall_cons in Hcs as [Hc Hcs]. simpl.
    assert (cached_page c.2 st = Some out) as Hcached.
    { unfold cached_page. rewrite Hhtml, Hat.
      destruct out; [done|]. simpl. destruct (Z.ltb_spec (c.2 - finishedAt) BOOTSTRAP_TTL); [done|lia]. }
    unfold renderIndexWithBootstrap. rewrite Hcached.
    rewrite IH; [|done|done|done]. simpl. by rewrite <- app_assoc.
Qed.

(** X30.  A page that was built is served for a minute.  When a build comes
    to its end with a page that is not empty, the requests that awaited it
    get this page; [bootstrapInFlight] is [null] again; and every request
    that arrives less than [BOOTSTRAP_TTL] = 60 000 ms after the end gets
    the same page and starts no build.  A request that arrives later than
    that starts the next build. *)
Theorem page_is_served_for_a_minute (pre : list PageEvent) (p : nat)
    (template json : string) (finishedAt : Z) (cs : list (nat * Z)) :
  let st := page_run page_init pre in
  let out := inject template json in
  p ∈ builds st ->
  out <> EmptyString ->
  Forall (fun c : nat * Z => (c.2 - finishedAt < BOOTSTRAP_TTL)%Z) cs ->
  let st1 := page_step st (BuildEnd p (Returned template) (Returned json) finishedAt) in
  let st2 := page_run st1 (requests cs) in
  BOOTSTRAP_TTL = 60000%Z
  /\ bootstrapInFlight st1 = None
  /\ builds st2 = ∅ /\ next_build st2 = next_build st
  /\ sent st2 = sent st
       ++ List.map (fun w => (caller w, Returned out))
            (List.filter (awaits p) (page_awaiting st))
       ++ List.map (fun c : nat * Z => (c.1, Returned out)) cs
  /\ (forall c now, (BOOTSTRAP_TTL <= now - finishedAt)%Z ->
        bootstrapInFlight (renderIndexWithBootstrap c now st1) = Some (next_build st)).
Proof.
  intros st out Hp Hne Hcs.
  pose proof (page_consistent_run pre page_init page_consistent_init) as Hcons.
  fold st in Hcons. pose proof (build_in_flight st p Hcons Hp) as Hfl.
  destruct Hcons as (H1 & H2 & H3). destruct (H2 p Hfl) as [_ [c0 Hc0]].
  assert (page_step st (BuildEnd p (Returned template) (Returned json) finishedAt)
          = {| cachedBootstrapHtml := Some out; cachedBootstrapAt := finishedAt;
               bootstrapInFlight := None; builds := ∅;
               page_awaiting := List.filter (fun w => negb (awaits p w)) (page_awaiting st);
               next_build := next_build st;
               sent := sent st ++ List.map (fun w => (caller w, Returned out))
                                    (List.filter (awaits p) (page_awaiting st)) |}) as Hst1.
  { simpl. rewrite (build_end_unfold _ _ _ _ _ Hp).
    rewrite (CacheTheory.initiator_awaits _ _ _ Hc0). simpl.
    f_equal. rewrite H1, Hfl. apply difference_diag_L. }
  cbv zeta. rewrite Hst1.
  split; [done|]. split; [done|].
  rewrite (requests_served out finishedAt cs); [|done..].
  simpl. split; [done|]. split; [done|]. split; [by rewrite <- app_assoc|].
  intros c now Hlate. unfold renderIndexWithBootstrap, cached_page. simpl.
  destruct out; [done|]. simpl.
  destruct (Z.ltb_spec (now - finishedAt) BOOTSTRAP_TTL); [lia|done].
Qed.

Lemma page_is_served_for_a_minute_witness :
  let st := page_run page_init [Request 1 10; Request 2 12] in
  let out := inject "<html><head></head></html>" "{}" in
  0 ∈ builds st
  /\ out <> EmptyString
  /\ Forall (fun c : nat * Z => (c.2 - 20 < BOOTSTRAP_TTL)%Z) [(3, 30%Z); (4, 60019%Z)]
  /\ (let st1 := page_step st (BuildEnd 0 (Returned "<html><head></head></html>")
                                 (Returned "{}") 20) in
      let st2 := page_run st1 (requests [(3, 30%Z); (4, 60019%Z)]) in
      BOOTSTRAP_TTL = 60000%Z
      /\ bootstrapInFlight st1 = None
      /\ builds st2 = ∅ /\ next_build st2 = next_build st
      /\ sent st2 = sent st
           ++ List.map (fun w => (caller w, Returned out))
                (List.filter (awaits 0) (page_awaiting st))
           ++ List.map (fun c : nat * Z => (c.1, Returned out)) [(3, 30%Z); (4, 60019%Z)]
      /\ (forall c now, (BOOTSTRAP_TTL <= now - 20)%Z ->
            bootstrapInFlight (renderIndexWithBootstrap c now st1) = Some (next_build st))).
Proof.
  cbv zeta.
  assert (0 ∈ builds (page_run page_init [Request 1 10; Request 2 12])) as Hp
    by (apply elem_of_union; left; apply elem_of_singleton; reflexivity).
  assert (inject "<html><head></head></html>" "{}" <> EmptyString) as Hne
    by (vm_compute; discriminate).
  assert (Forall (fun c : nat * Z => (c.2 - 20 < BOOTSTRAP_TTL)%Z) [(3, 30%Z); (4, 60019%Z)])
    as Hcs by (repeat constructor; vm_compute; reflexivity).
  split; [exact Hp|]. split; [exact Hne|]. split; [exact Hcs|].
  exact (page_is_served_for_a_minute [Request 1 10; Request 2 12] 0
           "<html><head></head></html>" "{}" 20 _ Hp Hne Hcs).
Defined.

End PageTheory.
